(** * AlgoBot: the decision-and-allocation engine of [main.py]

    A shallow embedding of the trading logic of [main.py] and the
    properties of its risk evaluator, position ledger, signal ranker,
    allocation planner and rebalance orchestrator.

    Conventions of the embedding.
    - Python [float]s (and the [int]s mixed with them) are exact rationals
      [Q]; rounding of binary floating point is outside the model.
      [==] is equality of rationals.
    - A [dict] that is only looked up is a [gmap]; a [dict] that is iterated
      ([SpotWallet], the positions, the technicals, [positions_to_sell]) is
      an association list in insertion order, its keys being distinct as
      those of a [dict] are.
    - The portfolio is one shared mutable [dict]: it is a component of the
      state every routine threads, next to the outside world.  What a
      routine prints and the orders it submits are its output, a list of
      events in the order they happen.
    - The HTTP client, the technical-analysis source and the clock are an
      interface ([Api]); [time.sleep] has no counterpart.
    - Log lines are recorded by kind and instrument, without the figures
      they format. *)

From Stdlib Require Import QArith Qround Qpower ZArith List Ascii String Lia.
From Stdlib Require Import Sorted DecimalString.
From stdpp Require Import base option list gmap strings.

Local Open Scope Z_scope.
Local Open Scope string_scope.
Local Open Scope list_scope.

(** ** Numbers *)

Definition Qleb (x y : Q) : bool := Qle_bool x y.
Definition Qltb (x y : Q) : bool := negb (Qle_bool y x).
Definition Qgeb (x y : Q) : bool := Qleb y x.
Definition Qgtb (x y : Q) : bool := Qltb y x.
Definition Qneb (x y : Q) : bool := negb (Qeq_bool x y).

(** ** CONFIGURATION *)

Definition TP_THRESHOLD : Q := 106 # 100.
Definition SL_THRESHOLD : Q := 97 # 100.
Definition STRONG_SELL_THRESHOLD : Z := 13.
Definition QUICK_TP_SL_CHECK_INTERVAL : Z := 15.
Definition FULL_TRADING_CYCLE_INTERVAL : Z := 600.
Definition RESERVE_CASH : Q := inject_Z 20000.
Definition WEAK_SELL_THRESHOLD : Z := 8.
(** [1e-8], the floor of [get_current_positions]. *)
Definition DUST : Q := 1 # 100000000.

Definition TRADING_PAIRS : list string :=
  [ "BTC/USD"; "ETH/USD"; "ZEC/USD"; "SOL/USD"; "XRP/USD"; "BNB/USD"; "DOGE/USD";
    "ASTER/USD"; "WLFI/USD"; "TRUMP/USD"; "NEAR/USD"; "ICP/USD"; "LTC/USD";
    "FIL/USD"; "XPL/USD"; "SUI/USD"; "PUMP/USD"; "VIRTUAL/USD"; "LINK/USD";
    "TRX/USD"; "ENA/USD"; "HBAR/USD"; "UNI/USD"; "FET/USD"; "ADA/USD"; "ZEN/USD";
    "TAO/USD"; "AVAX/USD"; "PEPE/USD"; "AAVE/USD"; "DOT/USD"; "PENGU/USD";
    "PAXG/USD"; "WLD/USD"; "XLM/USD"; "SEI/USD"; "EIGEN/USD"; "ARB/USD"; "S/USD";
    "APT/USD"; "CAKE/USD"; "CRV/USD"; "LINEA/USD"; "BONK/USD"; "WIF/USD";
    "FORM/USD"; "TON/USD"; "EDEN/USD"; "SHIB/USD"; "POL/USD"; "FLOKI/USD";
    "ONDO/USD"; "SOMI/USD"; "AVNT/USD"; "HEMI/USD"; "PLUME/USD"; "MIRA/USD";
    "CFX/USD"; "PENDLE/USD"; "BIO/USD"; "TUT/USD"; "OPEN/USD"; "OMNI/USD";
    "BMT/USD"; "1000CHEEMS/USD"; "LISTA/USD" ].

(** ** Data *)

(** One ledger entry of [portfolio.json]. *)
Record Entry := mkEntry {
  buy_price : Q;
  quantity : Q;
  timestamp : option string
}.

(** One asset of the balance response: [{'Free': .., 'Lock': ..}]. *)
Record Amounts := mkAmounts {
  Free : option Q;
  Lock : option Q
}.

(** The balance response. *)
Record BalanceData := mkBalance {
  Success : bool;
  SpotWallet : list (string * Amounts)
}.

(** The ticker response: ['Data'] maps a pair to its market data, itself a
    [dict] of figures, one of them ['LastPrice']. *)
Record TickerData := mkTicker {
  Data : gmap string (gmap string Q)
}.

Inductive Recommendation := BUY | SELL | NEUTRAL.

(** One value of the technicals [dict], as [get_all_technicals] builds it. *)
Record TechData := mkTech {
  price : Q;
  sell : Z;
  neutral : Z;
  buy : Z;
  signal : Recommendation;
  score : Z
}.

Inductive Side := SideBuy | SideSell.

(** [OrderDetail] of a successful order. *)
Record OrderDetail := mkDetail {
  UnitChange : option Q;
  FilledQuantity : option Q
}.

(** What [place_order] returns: [(True, "", detail)] or
    [(False, err_msg, None)]. *)
Inductive OrderResult :=
| Filled (order_detail : OrderDetail)
| Rejected (err_msg : string).

(** A request as [place_order] sends it. *)
Record Order := mkOrder {
  o_pair : string;
  o_side : Side;
  o_quantity : Q
}.

(** The lines [log] prints, by kind. *)
Inductive LogMsg :=
| LogText (line : string)
| LogPortfolioUpdated (coin : string)
| LogBalances
| LogNoRecord (coin : string)
| LogNoTechnical (coin : string)
| LogNoMarketData (coin : string)
| LogInvalidPrice (coin : string)
| LogTpHit (coin : string)
| LogSlHit (coin : string)
| LogSafe (coin : string)
| LogExecuting (reason coin : string)
| LogSold (reason coin : string) (with_pl : bool)
| LogFailed (reason pair : string) (err_msg : string)
| LogNoPrecision (pair : string)
| LogTooWeak (coin : string)
| LogSelling (kind coin : string)
| LogBuying (pair : string) (rank : nat)
| LogBought (pair : string).

Definition recommendation_eqb (a b : Recommendation) : bool :=
  match a, b with
  | BUY, BUY | SELL, SELL | NEUTRAL, NEUTRAL => true
  | _, _ => false
  end.

Definition side_eqb (a b : Side) : bool :=
  match a, b with
  | SideBuy, SideBuy | SideSell, SideSell => true
  | _, _ => false
  end.

(** ** Dictionaries in insertion order *)

Fixpoint dict_get {V : Type} (k : string) (d : list (string * V)) : option V :=
  match d with
  | [] => None
  | (k', v) :: d' => if String.eqb k k' then Some v else dict_get k d'
  end.

(** [d.get(k, dflt)] on an optional field. *)
Definition get_or (dflt : Q) (field : option Q) : Q :=
  match field with
  | Some v => v
  | None => dflt
  end.

(** [f"{coin}/USD"] *)
Definition usd_pair (coin : string) : string := coin +:+ "/USD".

(** [pair.split('/')[0]] *)
Fixpoint split_coin (pair : string) : string :=
  match pair with
  | EmptyString => EmptyString
  | String c rest =>
      if Ascii.eqb c "/"%char then EmptyString else String c (split_coin rest)
  end.

(** [math.floor(quantity * factor) / factor] with [factor = 10 ** precision],
    written out at each of the five places that submit an order. *)
Definition truncate_quantity (quantity : Q) (precision : Z) : Q :=
  let factor := Qpower (inject_Z 10) precision in
  (inject_Z (Qfloor (quantity * factor)) / factor)%Q.

(** ** TRADING LOGIC: the pure part *)

Definition get_current_positions (balance_data : option BalanceData)
  : list (string * Q) :=
  match balance_data with
  | Some b =>
      if Success b then
        flat_map (fun '(coin, amounts) =>
                    let total :=
                      (get_or 0 (Free amounts) + get_or 0 (Lock amounts))%Q in
                    if negb (String.eqb coin "USD") && Qgtb total DUST
                    then [(coin, total)] else [])
                 (SpotWallet b)
      else []
  | None => []
  end.

Definition get_total_cash_balance (balance_data : option BalanceData) : Q :=
  match balance_data with
  | Some b =>
      if Success b then
        match dict_get "USD" (SpotWallet b) with
        | Some amounts => get_or 0 (Free amounts)
        | None => 0%Q
        end
      else 0%Q
  | None => 0%Q
  end.

(** [not ticker_data or not ticker_data.get('Data')] *)
Definition no_ticker (ticker_data : option TickerData) : bool :=
  match ticker_data with
  | Some t => bool_decide (Data t = ∅)
  | None => true
  end.

Definition ticker_dict (ticker_data : option TickerData)
  : gmap string (gmap string Q) :=
  match ticker_data with
  | Some t => Data t
  | None => ∅
  end.

(** [market_data.get('LastPrice', 0)] *)
Definition last_price (market_data : gmap string Q) : Q :=
  get_or 0 (market_data !! "LastPrice").

Definition get_total_portfolio_value (balance_data : option BalanceData)
    (ticker_data : option TickerData) : Q :=
  let positions := get_current_positions balance_data in
  if no_ticker ticker_data then 0%Q
  else
    fold_left
      (fun total_value '(coin, quantity) =>
         match ticker_dict ticker_data !! usd_pair coin with
         | Some market_data =>
             if bool_decide (market_data = ∅) then total_value
             else
               let current_price := last_price market_data in
               if Qgtb current_price 0
               then (total_value + quantity * current_price)%Q
               else total_value
         | None => total_value
         end)
      positions 0%Q.

(** [sorted(technicals.items(), key=score, reverse=True)]: a stable sort by
    descending score. *)
Fixpoint insert_by_score (x : string * TechData) (l : list (string * TechData))
  : list (string * TechData) :=
  match l with
  | [] => [x]
  | y :: l' =>
      if (score (snd y) <? score (snd x))%Z then x :: y :: l'
      else y :: insert_by_score x l'
  end.

Definition rank_pairs_by_technicals (technicals : list (string * TechData))
  : list (string * TechData) :=
  fold_left (fun sorted x => insert_by_score x sorted) technicals [].

(** The list comprehension that opens [execute_buys]. *)
Definition strong_buy_signals (ranked_pairs : list (string * TechData))
  : list (string * TechData) :=
  filter (fun pd => recommendation_eqb (signal (snd pd)) BUY
                    && (STRONG_SELL_THRESHOLD <=? buy (snd pd))%Z)
         ranked_pairs.

(** [[2 ** (num_buys - i - 1) for i in range(num_buys)]] *)
Definition exponential_weights (num_buys : nat) : list Z :=
  map (fun i : nat => 2 ^ Z.of_nat (num_buys - i - 1)) (seq 0 num_buys).

(** [sum(exponential_weights)] *)
Definition total_weight (weights : list Z) : Z := fold_right Z.add 0 weights.

(** [(exponential_weights[i] / total_weight) * cash_to_invest]; [i] is an
    index of [enumerate(buy_signals)], hence in range. *)
Definition allocation (num_buys : nat) (cash_to_invest : Q) (i : nat) : Q :=
  let exponential_weights := exponential_weights num_buys in
  let total_weight := total_weight exponential_weights in
  ((inject_Z (nth i exponential_weights 0%Z) / inject_Z total_weight)
   * cash_to_invest)%Q.

(** A ledger entry after [portfolio[coin]['quantity'] = 0]. *)
Definition zeroed (e : Entry) : Entry :=
  mkEntry (buy_price e) 0 (timestamp e).

(** The ledger after the body of [update_portfolio_on_buy]: a missing entry
    starts as [{'buy_price': 0, 'quantity': 0}], then the three fields are
    assigned. *)
Definition ledger_on_buy (coin : string) (fill_qty current_price : Q)
    (now : string) (portfolio : gmap string Entry) : gmap string Entry :=
  let old :=
    match portfolio !! coin with
    | Some e => e
    | None => mkEntry 0 0 None
    end in
  let old_qty := quantity old in
  let old_price := buy_price old in
  let new_total_qty := (old_qty + fill_qty)%Q in
  let new_price :=
    if Qgtb new_total_qty 0
    then ((old_price * old_qty + current_price * fill_qty) / new_total_qty)%Q
    else old_price in
  <[coin := mkEntry new_price new_total_qty (Some now)]> portfolio.

(** [d[k] = v] on a dictionary in insertion order. *)
Fixpoint dict_set {V : Type} (k : string) (v : V) (d : list (string * V))
  : list (string * V) :=
  match d with
  | [] => [(k, v)]
  | (k', v') :: d' =>
      if String.eqb k k' then (k, v) :: d' else (k', v') :: dict_set k v d'
  end.

(** ** The outside world

    The collaborators of the bot as Python functions of their own:
    [get_balance], [get_ticker], [get_all_technicals], [place_order] and
    [datetime.now().isoformat()].  Each may depend on, and change, a world
    the bot does not see into. *)
Class Api (World : Type) := {
  api_get_balance : World → option BalanceData * World;
  api_get_ticker : World → option TickerData * World;
  api_get_all_technicals :
    list string → World → list (string * TechData) * World;
  api_place_order : string → Side → Q → World → OrderResult * World;
  api_now : World → string
}.

(** ** State, output and their monad *)

(** What a routine lets out, in the order it does: a line on the log or
    a request to the venue, with the answer it got. *)
Inductive Event :=
| Logged (m : LogMsg)
| Ordered (o : Order) (r : OrderResult).

(** What a routine reads and writes: the world outside, the portfolio
    [dict] that [main] hands to every routine, and [portfolio.json]. *)
Record State (World : Type) := mkState {
  world : World;
  portfolio : gmap string Entry;
  saved : gmap string Entry
}.
Arguments mkState {World}.
Arguments world {World}.
Arguments portfolio {World}.
Arguments saved {World}.

Definition M (World A : Type) : Type :=
  State World → A * State World * list Event.

Definition ret {World A : Type} (a : A) : M World A := fun s => (a, s, []).

Definition bind {World A B : Type} (k : A → M World B) (m : M World A)
  : M World B :=
  fun s =>
    let '(a, s1, t1) := m s in
    let '(b, s2, t2) := k a s1 in
    (b, s2, t1 ++ t2).

#[global] Instance M_ret {World : Type} : MRet (M World) := @ret World.
#[global] Instance M_bind {World : Type} : MBind (M World) := @bind World.

Definition value {World A : Type} (r : A * State World * list Event) : A :=
  fst (fst r).
Definition final {World A : Type} (r : A * State World * list Event)
  : State World := snd (fst r).
Definition trace {World A : Type} (r : A * State World * list Event)
  : list Event := snd r.

(** [for x in l: acc = body(acc, x)] *)
Fixpoint for_each {World A B : Type} (body : B → A → M World B) (acc : B)
    (l : list A) : M World B :=
  match l with
  | [] => ret acc
  | x :: l' => bind (fun acc' => for_each body acc' l') (body acc x)
  end.

Section Bot.
Context {World : Type} `{Api World}.

(** The precision table, filled by [load_exchange_rules] before the loop
    of [main] starts and only read from then on. *)
Variable PAIR_PRECISION : gmap string Z.

Local Abbreviation M := (M World).

Definition log (m : LogMsg) : M unit :=
  fun s => (tt, s, [Logged m]).

Definition get_portfolio : M (gmap string Entry) :=
  fun s => (portfolio s, s, []).

Definition set_portfolio (p : gmap string Entry) : M unit :=
  fun s => (tt, mkState (world s) p (saved s), []).

Definition save_portfolio : M unit :=
  fun s => (tt, mkState (world s) (portfolio s) (portfolio s), []).

Definition get_balance : M (option BalanceData) :=
  fun s => let (r, w) := api_get_balance (world s) in
           (r, mkState w (portfolio s) (saved s), []).

Definition get_ticker : M (option TickerData) :=
  fun s => let (r, w) := api_get_ticker (world s) in
           (r, mkState w (portfolio s) (saved s), []).

Definition get_all_technicals (pairs : list string)
  : M (list (string * TechData)) :=
  fun s => let (r, w) := api_get_all_technicals pairs (world s) in
           (r, mkState w (portfolio s) (saved s), []).

Definition now : M string :=
  fun s => (api_now (world s), s, []).

Definition place_order (pair : string) (side : Side) (quantity : Q)
  : M OrderResult :=
  fun s => let (r, w) := api_place_order pair side quantity (world s) in
           (r, mkState w (portfolio s) (saved s),
            [Ordered (mkOrder pair side quantity) r]).

(** *** PORTFOLIO MANAGEMENT *)

Definition update_portfolio_on_buy (pair : string) (quantity : Q)
    (current_price : Q) : M unit :=
  let coin := split_coin pair in
  t ← now;
  portfolio ← get_portfolio;
  set_portfolio (ledger_on_buy coin quantity current_price t portfolio);;
  save_portfolio;;
  log (LogPortfolioUpdated coin).

(** [portfolio[coin]['quantity'] = 0; save_portfolio(portfolio)] *)
Definition zero_and_save (coin : string) : M unit :=
  portfolio ← get_portfolio;
  set_portfolio (alter zeroed coin portfolio);;
  save_portfolio.

(** The same, under [if coin in portfolio:]. *)
Definition zero_if_recorded (coin : string) : M unit :=
  portfolio ← get_portfolio;
  match portfolio !! coin with
  | Some _ => zero_and_save coin
  | None => mret tt
  end.

Definition get_holdings_to_sell_for_tp_sl
    (balance_data : option BalanceData)
    (technicals : list (string * TechData))
  : M (list (string * Q) * list (string * string)) :=
  let positions := get_current_positions balance_data in
  let cash_balance := get_total_cash_balance balance_data in
  ticker_data ← get_ticker;
  let portfolio_value := get_total_portfolio_value balance_data ticker_data in
  log (LogText "TECHNICAL-CYCLE TP/SL CHECK");;
  log LogBalances;;
  for_each
    (fun '(positions_to_sell, sell_reasons) '(coin, quantity) =>
       let pair := usd_pair coin in
       portfolio ← get_portfolio;
       match portfolio !! coin with
       | None =>
           log (LogNoRecord coin);; mret (positions_to_sell, sell_reasons)
       | Some entry =>
           match dict_get pair technicals with
           | None =>
               log (LogNoTechnical coin);;
               mret (positions_to_sell, sell_reasons)
           | Some t =>
               let buy_price := buy_price entry in
               let current_price := price t in
               let price_ratio :=
                 if Qgtb buy_price 0 then (current_price / buy_price)%Q
                 else 1%Q in
               if Qgeb price_ratio TP_THRESHOLD then
                 log (LogTpHit coin);;
                 mret (dict_set pair quantity positions_to_sell,
                       dict_set pair "TP" sell_reasons)
               else if Qleb price_ratio SL_THRESHOLD then
                 log (LogSlHit coin);;
                 mret (dict_set pair quantity positions_to_sell,
                       dict_set pair "SL" sell_reasons)
               else
                 log (LogSafe coin);; mret (positions_to_sell, sell_reasons)
           end
       end)
    ([], []) positions.

(** The branch the quick check runs on a hit; the source writes it twice,
    once with the label TP and once with SL. *)
Definition quick_sell (label coin pair : string) (quantity : Q)
    (total_received : Q) : M Q :=
  match PAIR_PRECISION !! pair with
  | Some precision =>
      let adjusted_quantity := truncate_quantity quantity precision in
      if Qgtb adjusted_quantity 0 then
        log (LogExecuting label coin);;
        r ← place_order pair SideSell adjusted_quantity;
        match r with
        | Filled order_detail =>
            let usd_received := get_or 0 (UnitChange order_detail) in
            log (LogSold label coin true);;
            zero_and_save coin;;
            mret (total_received + usd_received)%Q
        | Rejected err_msg =>
            log (LogFailed label pair err_msg);; mret total_received
        end
      else mret total_received
  | None => mret total_received
  end.

Definition quick_check_position (ticker_data : option TickerData)
    (total_received : Q) (position : string * Q) : M Q :=
  let '(coin, quantity) := position in
  let pair := usd_pair coin in
  portfolio ← get_portfolio;
  match portfolio !! coin with
  | None => log (LogNoRecord coin);; mret total_received
  | Some entry =>
      if Qleb (buy_price entry) 0 then
        log (LogNoRecord coin);; mret total_received
      else
        match ticker_dict ticker_data !! pair with
        | None => log (LogNoMarketData coin);; mret total_received
        | Some market_data =>
            if bool_decide (market_data = ∅) then
              log (LogNoMarketData coin);; mret total_received
            else
              let current_price := last_price market_data in
              if Qleb current_price 0 then
                log (LogInvalidPrice coin);; mret total_received
              else
                let buy_price := buy_price entry in
                let price_ratio :=
                  if Qgtb buy_price 0 then (current_price / buy_price)%Q
                  else 1%Q in
                if Qgeb price_ratio TP_THRESHOLD then
                  log (LogTpHit coin);;
                  quick_sell "TP" coin pair quantity total_received
                else if Qleb price_ratio SL_THRESHOLD then
                  log (LogSlHit coin);;
                  quick_sell "SL" coin pair quantity total_received
                else
                  log (LogSafe coin);; mret total_received
        end
  end.

Definition quick_tp_sl_check_and_sell : M Q :=
  balance_data ← get_balance;
  match balance_data with
  | None => log (LogText "Could not fetch balance for TP/SL check");; mret 0%Q
  | Some _ =>
      let positions := get_current_positions balance_data in
      match positions with
      | [] => log (LogText "No positions to check for TP/SL");; mret 0%Q
      | _ =>
          ticker_data ← get_ticker;
          if no_ticker ticker_data then
            log (LogText "Could not fetch market prices");; mret 0%Q
          else
            log (LogText "QUICK TP/SL CHECK");;
            log LogBalances;;
            total_received ←
              for_each (quick_check_position ticker_data) 0%Q positions;
            (if Qgtb total_received 0
             then log (LogText "Quick TP/SL Check Complete")
             else mret tt);;
            mret total_received
      end
  end.

(** *** TRADING LOGIC: the orders *)

(** From the precision lookup to the end of the loop body of
    [execute_sells], [execute_tp_sl_sells] and
    [execute_weak_sell_rebalancing]; the source writes it three times, the
    log lines apart.  [acc] is [(total_received, total_pl)]. *)
Definition sell_truncated (kind coin pair : string) (quantity : Q)
    (acc : Q * Q) : M (Q * Q) :=
  let '(total_received, total_pl) := acc in
  match PAIR_PRECISION !! pair with
  | None => log (LogNoPrecision pair);; mret (total_received, total_pl)
  | Some precision =>
      let adjusted_quantity := truncate_quantity quantity precision in
      if Qgtb adjusted_quantity 0 then
        log (LogSelling kind coin);;
        r ← place_order pair SideSell adjusted_quantity;
        match r with
        | Filled order_detail =>
            let usd_received := get_or 0 (UnitChange order_detail) in
            let total_received := (total_received + usd_received)%Q in
            portfolio ← get_portfolio;
            total_pl ←
              match portfolio !! coin with
              | Some entry =>
                  if Qgtb (buy_price entry) 0 then
                    let pl_amount :=
                      (usd_received - buy_price entry * adjusted_quantity)%Q in
                    log (LogSold kind coin true);;
                    mret (total_pl + pl_amount)%Q
                  else log (LogSold kind coin false);; mret total_pl
              | None => log (LogSold kind coin false);; mret total_pl
              end;
            zero_if_recorded coin;;
            mret (total_received, total_pl)
        | Rejected err_msg =>
            log (LogFailed kind pair err_msg);;
            mret (total_received, total_pl)
        end
      else mret (total_received, total_pl)
  end.

Definition execute_sells (positions : list (string * Q))
    (technicals : list (string * TechData)) : M Q :=
  log (LogText "EXECUTING SELLS");;
  '(total_received, total_pl) ←
    for_each
      (fun acc '(coin, quantity) =>
         let pair := usd_pair coin in
         match dict_get pair technicals with
         | None => mret acc
         | Some t =>
             if negb (recommendation_eqb (signal t) SELL) then mret acc
             else
               let sell_count := sell t in
               if (sell_count <? STRONG_SELL_THRESHOLD)%Z then
                 log (LogTooWeak coin);; mret acc
               else sell_truncated "STRONG SELL" coin pair quantity acc
         end)
      (0%Q, 0%Q) positions;
  log (LogText "Total cash received from sells");;
  (if Qneb total_pl 0 then log (LogText "Total P&L from sells")
   else mret tt);;
  mret total_received.

Definition execute_tp_sl_sells (positions_to_sell : list (string * Q))
    (sell_reasons : list (string * string)) : M Q :=
  match positions_to_sell with
  | [] => log (LogText "No TP/SL targets hit");; mret 0%Q
  | _ =>
      log (LogText "EXECUTING TP/SL SELLS");;
      '(total_received, total_pl) ←
        for_each
          (fun acc item =>
             let pair := fst item in
             let quantity := snd item in
             let coin := split_coin pair in
             let reason :=
               match dict_get pair sell_reasons with
               | Some r => r
               | None => "UNKNOWN"
               end in
             sell_truncated reason coin pair quantity acc)
          (0%Q, 0%Q) positions_to_sell;
      log (LogText "Total cash received from TP/SL sells");;
      (if Qneb total_pl 0 then log (LogText "Total P&L from TP/SL sells")
       else mret tt);;
      mret total_received
  end.

Definition execute_weak_sell_rebalancing (positions : list (string * Q))
    (technicals : list (string * TechData)) : M Q :=
  log (LogText "EXECUTING WEAK SELL REBALANCING");;
  '(total_received, total_pl) ←
    for_each
      (fun acc '(coin, quantity) =>
         let pair := usd_pair coin in
         match dict_get pair technicals with
         | None => mret acc
         | Some t =>
             let sell_count := sell t in
             if (sell_count <? WEAK_SELL_THRESHOLD)%Z then mret acc
             else sell_truncated "WEAK SELL" coin pair quantity acc
         end)
      (0%Q, 0%Q) positions;
  (if Qgtb total_received 0 then
     log (LogText "Total cash from weak sell rebalancing");;
     (if Qneb total_pl 0
      then log (LogText "Total P&L from weak sell rebalancing")
      else mret tt)
   else log (LogText "No weak SELL signals found for rebalancing"));;
  mret total_received.

(** The body of the loop over [enumerate(buy_signals)]. *)
Definition buy_candidate (num_buys : nat) (cash_to_invest : Q)
    (_ : unit) (candidate : nat * (string * TechData)) : M unit :=
  let i := fst candidate in
  let pair := fst (snd candidate) in
  let data := snd (snd candidate) in
  let allocation := allocation num_buys cash_to_invest i in
  if Qltb allocation 10 then mret tt
  else
    let price := price data in
    if Qleb price 0 then mret tt
    else
      let ideal_quantity := (allocation / price)%Q in
      match PAIR_PRECISION !! pair with
      | None => log (LogNoPrecision pair)
      | Some precision =>
          let adjusted_quantity := truncate_quantity ideal_quantity precision in
          if Qgtb adjusted_quantity 0 then
            log (LogBuying pair (i + 1));;
            r ← place_order pair SideBuy adjusted_quantity;
            match r with
            | Filled order_detail =>
                let filled_qty := get_or 0 (FilledQuantity order_detail) in
                log (LogBought pair);;
                if Qgtb filled_qty 0
                then update_portfolio_on_buy pair filled_qty price
                else mret tt
            | Rejected err_msg => log (LogFailed "BUY" pair err_msg)
            end
          else mret tt
      end.

(** [enumerate(l)] *)
Definition enumerate {A : Type} (l : list A) : list (nat * A) :=
  combine (seq 0 (length l)) l.

Definition execute_buys (available_cash : Q)
    (ranked_pairs : list (string * TechData))
    (positions : list (string * Q))
    (technicals : list (string * TechData)) : M unit :=
  log (LogText "EXECUTING BUYS");;
  let buy_signals := strong_buy_signals ranked_pairs in
  match buy_signals with
  | [] => log (LogText "No STRONG BUY signals found")
  | _ =>
      log (LogText "Found STRONG BUY signals");;
      cash_from_weak_sells ←
        execute_weak_sell_rebalancing positions technicals;
      let available_cash := (available_cash + cash_from_weak_sells)%Q in
      let cash_to_invest := (available_cash - RESERVE_CASH)%Q in
      if Qleb cash_to_invest 10 then
        log (LogText "Cash to invest is too low after rebalancing")
      else
        log (LogText "Deploying STRONG BUY signals");;
        let num_buys := length buy_signals in
        for_each (buy_candidate num_buys cash_to_invest) tt
                 (enumerate buy_signals)
  end.

(** *** MAIN BOT LOGIC *)

Definition trading_cycle : M unit :=
  log (LogText "FULL TRADING CYCLE");;
  balance_data ← get_balance;
  match balance_data with
  | None => log (LogText "Failed to get balance")
  | Some b =>
      let available_cash :=
        match dict_get "USD" (SpotWallet b) with
        | Some amounts => get_or 0 (Free amounts)
        | None => 0%Q
        end in
      log (LogText "Starting cash balance");;
      let positions := get_current_positions balance_data in
      log (LogText "Current Positions");;
      technicals ← get_all_technicals TRADING_PAIRS;
      match technicals with
      | [] => log (LogText "No technical data retrieved")
      | _ =>
          '(positions_to_sell, sell_reasons) ←
            get_holdings_to_sell_for_tp_sl balance_data technicals;
          cash_from_tp_sl ←
            execute_tp_sl_sells positions_to_sell sell_reasons;
          let available_cash := (available_cash + cash_from_tp_sl)%Q in
          let ranked_pairs := rank_pairs_by_technicals technicals in
          log (LogText "TOP 10 TECHNICAL SIGNALS");;
          cash_from_sells ← execute_sells positions technicals;
          let available_cash := (available_cash + cash_from_sells)%Q in
          let total_cash_for_buys := available_cash in
          log (LogText "Total cash available for buys");;
          execute_buys total_cash_for_buys ranked_pairs positions technicals;;
          final_balance ← get_balance;
          (match final_balance with
           | Some _ => log (LogText "Cycle Complete")
           | None => mret tt
           end);;
          log (LogText "======")
      end
  end.

(** The local variables of [main] that survive an iteration. *)
Record Loop := mkLoop {
  quick_check_count : Z;
  full_cycle_count : Z;
  time_since_full_cycle : Z
}.

(** [main] enters its loop with these. *)
Definition main_start : Loop :=
  mkLoop 0 0 FULL_TRADING_CYCLE_INTERVAL.

(** One pass through the body of [while True] in [main]. *)
Definition main_iteration (l : Loop) : M Loop :=
  l1 ←
    (if (FULL_TRADING_CYCLE_INTERVAL <=? time_since_full_cycle l)%Z then
       log (LogText "FULL TRADING CYCLE #");;
       trading_cycle;;
       mret (mkLoop (quick_check_count l) (full_cycle_count l + 1) 0)
     else mret l);
  log (LogText "QUICK TP/SL CHECK #");;
  quick_tp_sl_check_and_sell;;
  log (LogText "Waiting");;
  mret (mkLoop (quick_check_count l1 + 1) (full_cycle_count l1)
               (time_since_full_cycle l1 + QUICK_TP_SL_CHECK_INTERVAL)).

(** The first [n] passes. *)
Fixpoint main_loop (n : nat) (l : Loop) : M Loop :=
  match n with
  | O => mret l
  | S n' => l' ← main_iteration l; main_loop n' l'
  end.
End Bot.

(** ** A venue to run the bot against

    A paper exchange: a wallet, a last price per pair and the technicals
    it reports.  A sell pays [quantity * price] into the USD balance and
    takes the quantity out of the asset's free balance; a buy does the
    reverse.  A [strict] exchange rejects an order the wallet cannot
    cover; one that is not fills every order and leaves the wallet as it
    is, as a stub that answers every request alike does. *)
Record Paper := mkPaper {
  wallet : list (string * Amounts);
  prices : gmap string Q;
  reported : list (string * TechData);
  strict : bool
}.

Definition free_of (coin : string) (w : list (string * Amounts)) : Q :=
  match dict_get coin w with
  | Some a => get_or 0 (Free a)
  | None => 0%Q
  end.

Definition set_free (coin : string) (v : Q) (w : list (string * Amounts))
  : list (string * Amounts) :=
  let lock := match dict_get coin w with Some a => Lock a | None => None end in
  dict_set coin (mkAmounts (Some v) lock) w.

Definition paper_order (pair : string) (side : Side) (qty : Q) (x : Paper)
  : OrderResult * Paper :=
  match prices x !! pair with
  | None => (Rejected "unknown pair", x)
  | Some p =>
      let coin := split_coin pair in
      let usd := (qty * p)%Q in
      let detail := mkDetail (Some usd) (Some qty) in
      if strict x then
        match side with
        | SideSell =>
            if Qleb qty (free_of coin (wallet x)) then
              (Filled detail,
               mkPaper (set_free "USD" (free_of "USD" (wallet x) + usd)%Q
                          (set_free coin (free_of coin (wallet x) - qty)%Q
                             (wallet x)))
                       (prices x) (reported x) true)
            else (Rejected "insufficient balance", x)
        | SideBuy =>
            if Qleb usd (free_of "USD" (wallet x)) then
              (Filled detail,
               mkPaper (set_free "USD" (free_of "USD" (wallet x) - usd)%Q
                          (set_free coin (free_of coin (wallet x) + qty)%Q
                             (wallet x)))
                       (prices x) (reported x) true)
            else (Rejected "insufficient balance", x)
        end
      else (Filled detail, x)
  end.

#[global] Instance paper_api : Api Paper := {
  api_get_balance x := (Some (mkBalance true (wallet x)), x);
  api_get_ticker x :=
    (Some (mkTicker ((fun p => {[ "LastPrice" := p ]}) <$> prices x)), x);
  api_get_all_technicals _ x := (reported x, x);
  api_place_order := paper_order;
  api_now _ := "2025-01-01T00:00:00"
}.

Definition holding (free : Q) : Amounts := mkAmounts (Some free) (Some 0%Q).

(** The orders among the events, in order. *)
Definition orders_of (t : list Event) : list (Order * OrderResult) :=
  flat_map (fun e => match e with
                     | Ordered o r => [(o, r)]
                     | Logged _ => []
                     end) t.

(** The log lines among the events, in order. *)
Definition lines_of (t : list Event) : list LogMsg :=
  flat_map (fun e => match e with
                     | Logged m => [m]
                     | Ordered _ _ => []
                     end) t.

(** ** Reading a run *)

(** The sum of a list of rationals. *)
Definition Qsum (l : list Q) : Q := fold_right Qplus 0%Q l.

Definition requests_of (t : list Event) : list Order :=
  map fst (orders_of t).

(** Between two ledgers: every entry is as it was, or has its quantity
    zeroed; none appears and none goes. *)
Definition sold_only (p p' : gmap string Entry) : Prop :=
  ∀ c, p' !! c = p !! c
       ∨ ∃ e, p !! c = Some e ∧ p' !! c = Some (zeroed e).

(** The line the evaluator logs for a price ratio. *)
Definition ratio_line (coin : string) (price_ratio : Q) : LogMsg :=
  if Qgeb price_ratio TP_THRESHOLD then LogTpHit coin
  else if Qleb price_ratio SL_THRESHOLD then LogSlHit coin
       else LogSafe coin.

(** The lines by which the two checks tell what they made of a position. *)
Definition is_verdict (m : LogMsg) : bool :=
  match m with
  | LogNoRecord _ | LogNoTechnical _ | LogNoMarketData _ | LogInvalidPrice _
  | LogTpHit _ | LogSlHit _ | LogSafe _ => true
  | _ => false
  end.

Definition is_hit (m : LogMsg) : bool :=
  match m with
  | LogTpHit _ | LogSlHit _ => true
  | _ => false
  end.

Definition verdicts_of (t : list Event) : list LogMsg :=
  List.filter is_verdict (lines_of t).

(** The verdict of the quick check on a coin, from the ledger and the
    ticker. *)
Definition quick_verdict (p : gmap string Entry)
    (ticker_data : option TickerData) (coin : string) : LogMsg :=
  match p !! coin with
  | None => LogNoRecord coin
  | Some entry =>
      if Qleb (buy_price entry) 0 then LogNoRecord coin
      else
        match ticker_dict ticker_data !! usd_pair coin with
        | None => LogNoMarketData coin
        | Some market_data =>
            if bool_decide (market_data = ∅) then LogNoMarketData coin
            else if Qleb (last_price market_data) 0 then LogInvalidPrice coin
                 else ratio_line coin
                        (if Qgtb (buy_price entry) 0
                         then (last_price market_data / buy_price entry)%Q
                         else 1%Q)
        end
  end.

(** The verdict of the full-cycle check on a coin, from the ledger and the
    technicals. *)
Definition full_verdict (p : gmap string Entry)
    (technicals : list (string * TechData)) (coin : string) : LogMsg :=
  match p !! coin with
  | None => LogNoRecord coin
  | Some entry =>
      match dict_get (usd_pair coin) technicals with
      | None => LogNoTechnical coin
      | Some t =>
          ratio_line coin
            (if Qgtb (buy_price entry) 0 then (price t / buy_price entry)%Q
             else 1%Q)
      end
  end.

(** The coin a verdict line is about. *)
Definition line_coin (m : LogMsg) : option string :=
  match m with
  | LogNoRecord c | LogNoTechnical c | LogNoMarketData c | LogInvalidPrice c
  | LogTpHit c | LogSlHit c | LogSafe c => Some c
  | _ => None
  end.

(** What one pass of the loop of the full-cycle check does to
    [(positions_to_sell, sell_reasons)], with ledger [p]. *)
Definition rate_full (p : gmap string Entry)
    (technicals : list (string * TechData))
    (acc : list (string * Q) * list (string * string))
    (position : string * Q) : list (string * Q) * list (string * string) :=
  let pair := usd_pair position.1 in
  match full_verdict p technicals position.1 with
  | LogTpHit _ =>
      (dict_set pair position.2 acc.1, dict_set pair "TP" acc.2)
  | LogSlHit _ =>
      (dict_set pair position.2 acc.1, dict_set pair "SL" acc.2)
  | _ => acc
  end.


(** Between two ledgers: no entry goes. *)
Definition retains (p p' : gmap string Entry) : Prop :=
  ∀ c, is_Some (p !! c) → is_Some (p' !! c).

(** The pairs of the sell orders the venue filled, in order. *)
Definition sales_of (t : list Event) : list string :=
  flat_map (fun e => match e with
                     | Ordered o (Filled _) =>
                         if side_eqb (o_side o) SideSell then [o_pair o] else []
                     | _ => []
                     end) t.

(** ** What the routines are to do

    The requests each routine is to submit, element by element, and the
    relations its run is to keep between the ledger and what it lets
    out. *)

Section Plans.
Context {World : Type} `{Api World}.
Variable PAIR_PRECISION : gmap string Z.

(** The request [sell_truncated] submits. *)
Definition sell_request (pair : string) (quantity : Q) : list Order :=
  match PAIR_PRECISION !! pair with
  | Some precision =>
      let adjusted_quantity := truncate_quantity quantity precision in
      if Qgtb adjusted_quantity 0
      then [mkOrder pair SideSell adjusted_quantity] else []
  | None => []
  end.

(** Every sale filled so far has left its entry, if there is one, with
    no quantity; [ρ] tells the coin of a pair. *)
Definition filled_are_zeroed (ρ : string → string → Prop)
    (t : list Event) (p : gmap string Entry) : Prop :=
  ∀ pair coin q d e,
    ρ pair coin →
    In (mkOrder pair SideSell q, Filled d) (orders_of t) →
    p !! coin = Some e → quantity e = 0%Q.

(** The body of each of the three loops, for one element: it skips the
    element with at most some lines on the log, or it is one call of
    [sell_truncated]. *)
Inductive sale_or_skip (ρ : string → string → Prop)
    (body_x : Q * Q → M World (Q * Q)) (plan_x : list Order) : Prop :=
| is_skip (lines : list LogMsg) :
    (∀ acc s, body_x acc s = (acc, s, map Logged lines)) →
    plan_x = [] →
    sale_or_skip ρ body_x plan_x
| is_sale (kind coin pair : string) (quantity : Q) :
    (∀ acc s, body_x acc s
              = sell_truncated PAIR_PRECISION kind coin pair quantity acc s) →
    plan_x = sell_request pair quantity →
    (∀ coin', ρ pair coin' → coin' = coin) →
    sale_or_skip ρ body_x plan_x.

(** The request [execute_sells] submits for a position. *)
Definition strong_request (technicals : list (string * TechData))
    (position : string * Q) : list Order :=
  let pair := usd_pair position.1 in
  match dict_get pair technicals with
  | None => []
  | Some t =>
      if negb (recommendation_eqb (signal t) SELL) then []
      else if (sell t <? STRONG_SELL_THRESHOLD)%Z then []
           else sell_request pair position.2
  end.

(** The request [execute_weak_sell_rebalancing] submits for a position. *)
Definition weak_request (technicals : list (string * TechData))
    (position : string * Q) : list Order :=
  let pair := usd_pair position.1 in
  match dict_get pair technicals with
  | None => []
  | Some t =>
      if (sell t <? WEAK_SELL_THRESHOLD)%Z then []
      else sell_request pair position.2
  end.

(** The request [execute_tp_sl_sells] submits for an entry of
    [positions_to_sell]. *)
Definition tp_sl_request (item : string * Q) : list Order :=
  sell_request item.1 item.2.

Definition pair_of_coin (pair coin : string) : Prop := pair = usd_pair coin.
Definition coin_of_pair (pair coin : string) : Prop := coin = split_coin pair.

(** What a routine that sells does: the requests it submits are [plan],
    the ledger changes by zeroed quantities only, and the entry of every
    sale that was filled is zeroed when the routine returns. *)
Definition sells (ρ : string → string → Prop) (plan : list Order)
    (m : M World Q) : Prop :=
  ∀ s, let r := m s in
    requests_of (trace r) = plan
    ∧ sold_only (portfolio s) (portfolio (final r))
    ∧ (∀ t0, filled_are_zeroed ρ t0 (portfolio s) →
             filled_are_zeroed ρ (t0 ++ trace r) (portfolio (final r))).

(** The request the quick check submits for a position. *)
Definition quick_request (p : gmap string Entry)
    (ticker_data : option TickerData) (position : string * Q) : list Order :=
  if is_hit (quick_verdict p ticker_data position.1)
  then sell_request (usd_pair position.1) position.2
  else [].

(** The positions the quick check goes through and the ticker it reads,
    as the venue answers in state [s]: none when the balance or the
    prices cannot be fetched. *)
Definition quick_inputs (s : State World)
  : list (string * Q) * option TickerData :=
  let (balance_data, w1) := api_get_balance (world s) in
  match balance_data with
  | None => ([], None)
  | Some _ =>
      match get_current_positions balance_data with
      | [] => ([], None)
      | positions =>
          let (ticker_data, w2) := api_get_ticker w1 in
          if no_ticker ticker_data then ([], None)
          else (positions, ticker_data)
      end
  end.

(** What the full-cycle check returns in [positions_to_sell]: entries of
    positions it went through and rated a hit. *)
Definition targets_of (p : gmap string Entry)
    (technicals : list (string * TechData)) (positions : list (string * Q))
    (positions_to_sell : list (string * Q)) : Prop :=
  ∀ pair q, In (pair, q) positions_to_sell →
    ∃ coin, In (coin, q) positions ∧ pair = usd_pair coin
            ∧ is_hit (full_verdict p technicals coin) = true.

(** The request [execute_buys] submits for the candidate at rank [i]. *)
Definition buy_request (num_buys : nat) (cash_to_invest : Q)
    (candidate : nat * (string * TechData)) : list Order :=
  let i := candidate.1 in
  let pair := candidate.2.1 in
  let data := candidate.2.2 in
  let allocation := allocation num_buys cash_to_invest i in
  if Qltb allocation 10 then []
  else if Qleb (price data) 0 then []
  else match PAIR_PRECISION !! pair with
       | None => []
       | Some precision =>
           let adjusted_quantity :=
             truncate_quantity (allocation / price data) precision in
           if Qgtb adjusted_quantity 0
           then [mkOrder pair SideBuy adjusted_quantity] else []
       end.

(** What [execute_buys] has to invest: the cash it is given and what the
    funding sales bring in state [s], less the reserve. *)
Definition cash_to_invest_of (available_cash : Q)
    (positions : list (string * Q)) (technicals : list (string * TechData))
    (s : State World) : Q :=
  (available_cash
   + value (execute_weak_sell_rebalancing PAIR_PRECISION positions
                                          technicals s)
   - RESERVE_CASH)%Q.

(** What a cycle works on, as the venue answers in state [s]: the
    balance, the technicals, and the state once both are fetched; nothing
    when the balance cannot be fetched or no technicals come back. *)
Definition cycle_inputs (s : State World)
  : option (BalanceData * list (string * TechData) * State World) :=
  let (balance_data, w1) := api_get_balance (world s) in
  match balance_data with
  | None => None
  | Some b =>
      let (technicals, w2) := api_get_all_technicals TRADING_PAIRS w1 in
      match technicals with
      | [] => None
      | _ => Some (b, technicals, mkState w2 (portfolio s) (saved s))
      end
  end.

(** [balance_data.get('SpotWallet', {}).get('USD', {}).get('Free', 0)] *)
Definition usd_free (b : BalanceData) : Q :=
  match dict_get "USD" (SpotWallet b) with
  | Some amounts => get_or 0 (Free amounts)
  | None => 0%Q
  end.

(** A full liquidating sell, for a routine [m] that sells and a relation
    [ρ] between a pair and the coin whose entry the routine zeroes: [m]
    changes no entry but to zero its quantity, and when it returns, the
    entry of every sale the venue filled, if there is one, has quantity
    0. *)
Definition liquidates (ρ : string → string → Prop) (m : M World Q)
  : Prop :=
  ∀ s,
    (∀ coin e, portfolio s !! coin = Some e →
       ∃ e', portfolio (final (m s)) !! coin = Some e'
             ∧ buy_price e' = buy_price e
             ∧ (quantity e' = quantity e ∨ quantity e' = 0%Q))
    ∧ (∀ pair coin q d e',
         ρ pair coin →
         In (Ordered (mkOrder pair SideSell q) (Filled d)) (trace (m s)) →
         portfolio (final (m s)) !! coin = Some e' → quantity e' = 0%Q).

End Plans.

(** ** Runs on the paper exchange *)

Definition demo_rules : gmap string Z :=
  {[ "BTC/USD" := 2%Z; "ETH/USD" := 2%Z; "SOL/USD" := 2%Z ]}.

Definition on_paper (x : Paper) (ledger : gmap string Entry) : State Paper :=
  mkState x ledger ledger.

(** Ten BTC bought at 100, now quoted at 106; the technicals quote 97. *)
Definition tp_wallet : list (string * Amounts) :=
  [("USD", holding 50000); ("BTC", holding 10)].

Definition tp_technicals : list (string * TechData) :=
  [("BTC/USD", mkTech 97 3 10 13 NEUTRAL 10)].

Definition tp_state : State Paper :=
  on_paper (mkPaper tp_wallet {[ "BTC/USD" := 106%Q ]} tp_technicals true)
           {[ "BTC" := mkEntry 100 10 None ]}.


(** An entry of cost 100 and no quantity, and a fill of 2 at 50. *)
Definition stale_state : State Paper :=
  on_paper (mkPaper [("USD", holding 50000)] {[ "BTC/USD" := 50%Q ]} [] true)
           {[ "BTC" := mkEntry 100 0 None ]}.

(** Two strong-buy candidates, the second without a usable price, and
    20700 in cash: 700 to invest. *)
Definition two_candidates : list (string * TechData) :=
  [("ETH/USD", mkTech 10 2 10 14 BUY 12); ("SOL/USD", mkTech 0 3 10 13 BUY 10)].

Definition buy_state : State Paper :=
  on_paper (mkPaper [("USD", holding 20700)]
                    {[ "ETH/USD" := 10%Q; "SOL/USD" := 5%Q ]}
                    two_candidates false)
           ∅.

(** One BTC bought at 100 and now at 90, with 14 sell votes and a SELL
    signal: due for the stop-loss, for the strong sell and for the funding
    sale at once; ETH is a strong-buy candidate.  The exchange fills every
    order. *)
Definition falling_technicals : list (string * TechData) :=
  [("BTC/USD", mkTech 90 14 5 7 SELL (-7));
   ("ETH/USD", mkTech 10 2 10 14 BUY 12)].

Definition falling_balance : BalanceData :=
  mkBalance true [("USD", holding 50000); ("BTC", holding 1)].

Definition falling_paper (strictly : bool) : Paper :=
  mkPaper (SpotWallet falling_balance)
          {[ "BTC/USD" := 90%Q; "ETH/USD" := 10%Q ]}
          falling_technicals strictly.

Definition falling_state (strictly : bool) : State Paper :=
  on_paper (falling_paper strictly) {[ "BTC" := mkEntry 100 1 None ]}.

(** The risk phase of the cycle run from [falling_state false], and the
    strong-sell phase run after it. *)
Definition falling_risk_phase : Q * State Paper * list Event :=
  let r1 := get_holdings_to_sell_for_tp_sl (Some falling_balance)
                                           falling_technicals
                                           (falling_state false) in
  execute_tp_sl_sells demo_rules (value r1).1 (value r1).2 (final r1).

Definition falling_strong_sell_phase : Q * State Paper * list Event :=
  execute_sells demo_rules (get_current_positions (Some falling_balance))
                falling_technicals (final falling_risk_phase).

Definition falling_funding_phase : Q * State Paper * list Event :=
  execute_weak_sell_rebalancing demo_rules
    (get_current_positions (Some falling_balance)) falling_technicals
    (final falling_strong_sell_phase).

(** Holdings with eight sell votes and no strong-buy candidate. *)
Definition quiet_technicals : list (string * TechData) :=
  [("BTC/USD", mkTech 100 8 10 8 NEUTRAL 0);
   ("ETH/USD", mkTech 10 2 12 12 BUY 10)].

Definition quiet_state : State Paper :=
  on_paper (mkPaper [("USD", holding 50000); ("BTC", holding 1)]
                    {[ "BTC/USD" := 100%Q; "ETH/USD" := 10%Q ]}
                    quiet_technicals true)
           {[ "BTC" := mkEntry 100 1 None ]}.

(** 1.239 BTC bought at 100 and now at 107, on an exchange that keeps its
    wallet: the take-profit sale is of 1.23 and leaves 0.009. *)
Definition residue_state : State Paper :=
  on_paper (mkPaper [("USD", holding 50000); ("BTC", holding (1239 # 1000))]
                    {[ "BTC/USD" := 107%Q ]} [] true)
           {[ "BTC" := mkEntry 100 (1239 # 1000) None ]}.

Definition after_take_profit : State Paper :=
  final (quick_tp_sl_check_and_sell demo_rules residue_state).

(** A wallet with cash, a holding and a speck of dust. *)
Definition dusty_balance : BalanceData :=
  mkBalance true [("USD", holding 50000); ("BTC", holding 1);
                  ("DOGE", holding (1 # 100000000))].

(** A ledger entry without a cost basis for BTC, and a price of 0 for
    ETH. *)
Definition gap_balance : BalanceData :=
  mkBalance true [("USD", holding 50000); ("BTC", holding 1);
                  ("ETH", holding 1)].

Definition gap_technicals : list (string * TechData) :=
  [("BTC/USD", mkTech 50 3 10 13 NEUTRAL 10);
   ("ETH/USD", mkTech 0 3 10 13 NEUTRAL 10)].

Definition gap_state : State Paper :=
  on_paper (mkPaper (SpotWallet gap_balance)
                    {[ "BTC/USD" := 50%Q; "ETH/USD" := 0%Q ]}
                    gap_technicals true)
           {[ "BTC" := mkEntry 0 0 None; "ETH" := mkEntry 100 1 None ]}.

(** ** Further readings of a run *)

(** An order as the rules of the venue want it: of a pair with a precision
    rule, for a positive quantity cut to that precision. *)
Definition well_formed_order (PAIR_PRECISION : gmap string Z) (o : Order)
  : Prop :=
  ∃ precision quantity,
    PAIR_PRECISION !! o_pair o = Some precision
    ∧ o_quantity o = truncate_quantity quantity precision
    ∧ (0 < o_quantity o)%Q.

(** What the venue reported to have paid for the sells it filled. *)
Definition proceeds_of (t : list Event) : Q :=
  Qsum (flat_map (fun e => match e with
                           | Ordered o (Filled order_detail) =>
                               if side_eqb (o_side o) SideSell
                               then [get_or 0 (UnitChange order_detail)]
                               else []
                           | _ => []
                           end) t).

(** What the buy orders among [requests] cost at the prices of
    [buy_signals], the prices [execute_buys] sized them with. *)
Definition cost_of_buys (buy_signals : list (string * TechData))
    (requests : list Order) : Q :=
  Qsum (flat_map (fun o =>
                    if side_eqb (o_side o) SideBuy then
                      match dict_get (o_pair o) buy_signals with
                      | Some data => [(o_quantity o * price data)%Q]
                      | None => []
                      end
                    else []) requests).

(** A relation between the state a routine starts from and the state it
    ends in, kept by every run. *)
Definition keeps {World A : Type} (R : State World → State World → Prop)
    (m : M World A) : Prop :=
  ∀ s, R s (final (m s)).

(** The ledger and its file after a run: the file holds the ledger, or
    neither was written. *)
Definition persisted {World : Type} (s s' : State World) : Prop :=
  saved s' = portfolio s'
  ∨ (portfolio s' = portfolio s ∧ saved s' = saved s).

(** A ledger without negative figures. *)
Definition sane (p : gmap string Entry) : Prop :=
  ∀ coin e, p !! coin = Some e → (0 <= quantity e)%Q ∧ (0 <= buy_price e)%Q.

(** Between two ledgers: an instrument with a cost basis keeps one. *)
Definition keeps_basis (p p' : gmap string Entry) : Prop :=
  ∀ coin e, p !! coin = Some e → (0 < buy_price e)%Q →
    ∃ e', p' !! coin = Some e' ∧ (0 < buy_price e')%Q.

(** Between the state a run starts from, the state it ends in and what it
    let out: the ledger and its file are as they were unless the venue
    filled an order. *)
Definition written_on_fills {World : Type} (s s' : State World)
    (t : list Event) : Prop :=
  (∀ o d, ¬ In (Ordered o (Filled d)) t) →
  portfolio s' = portfolio s ∧ saved s' = saved s.

(** A relation between the start of a run, its end and what it let out,
    kept by every run of a routine. *)
Definition obeys {World A : Type}
    (T : State World → State World → list Event → Prop) (m : M World A)
  : Prop :=
  ∀ s, T s (final (m s)) (trace (m s)).

(** ** SETUP FUNCTION *)

(** One value of ['TradePairs'] in the exchange information; the
    ['AmountPrecision'] it may hold is a whole number, which [int] leaves
    as it is. *)
Record PairDetails := mkDetails {
  AmountPrecision : option Z
}.

(** What [get_exchange_info] returns when it returns a response: one that
    has the key ['TradePairs']. *)
Record ExchangeInfo := mkInfo {
  TradePairs : list (string * PairDetails)
}.

(** [get_exchange_info] as a collaborator: the response, or [None]. *)
Class Setup (World : Type) := {
  api_get_exchange_info : World → option ExchangeInfo * World
}.

(** [PAIR_PRECISION[pair] = int(precision)] for every pair of the exchange
    information that has a precision. *)
Definition learn_rules (trade_pairs : list (string * PairDetails))
    (PAIR_PRECISION : gmap string Z) : gmap string Z :=
  fold_left (fun table item =>
               match AmountPrecision (snd item) with
               | Some precision => <[fst item := precision]> table
               | None => table
               end)
            trade_pairs PAIR_PRECISION.

Section Start.
Context {World : Type} `{Api World} `{Setup World}.

Definition get_exchange_info : M World (option ExchangeInfo) :=
  fun s => let (r, w) := api_get_exchange_info (world s) in
           (r, mkState w (portfolio s) (saved s), []).

(** [load_exchange_rules] returns whether it could load the rules; the
    table it leaves in the global [PAIR_PRECISION] is returned with it. *)
Definition load_exchange_rules (PAIR_PRECISION : gmap string Z)
  : M World (bool * gmap string Z) :=
  log (LogText "Loading exchange trading rules");;
  info ← get_exchange_info;
  match info with
  | Some i =>
      match TradePairs i with
      | [] =>
          log (LogText "CRITICAL: Could not load exchange trading rules");;
          mret (false, PAIR_PRECISION)
      | _ =>
          let PAIR_PRECISION := learn_rules (TradePairs i) PAIR_PRECISION in
          log (LogText "Successfully loaded trading rules");;
          mret (true, PAIR_PRECISION)
      end
  | None =>
      log (LogText "CRITICAL: Could not load exchange trading rules");;
      mret (false, PAIR_PRECISION)
  end.

(** [load_portfolio]: what [portfolio.json] holds, a file that is not there
    counting as the empty ledger it is read as. *)
Definition load_portfolio : M World (gmap string Entry) :=
  fun s => (saved s, s, []).

(** [main], its loop cut after [n] passes: [None] when the rules could
    not be loaded, the loop variables after the passes otherwise. *)
Definition main (n : nat) : M World (option Loop) :=
  log (LogText "ROOSTOO TRADINGVIEW ALGO TRADING BOT STARTED");;
  loaded ← load_exchange_rules ∅;
  if negb (fst loaded) then mret None
  else
    log (LogText "Bot is now in LIVE API mode");;
    log (LogText "Monitoring pairs");;
    log (LogText "Quick TP/SL check every");;
    log (LogText "Full trading cycle every");;
    portfolio ← load_portfolio;
    set_portfolio portfolio;;
    l ← main_loop (snd loaded) n main_start;
    mret (Some l).
End Start.

(** ** The technical-analysis source

    [get_multiple_analysis] of [tradingview_ta] as a collaborator: it is
    asked for a list of symbols and answers with a [dict] from symbols to
    analyses, some of them [None], or raises.  An analysis has its
    ['close'] among its indicators and a [summary], whose recommendation
    is text and whose counts are whole numbers, so that inside a [try] of
    [get_all_technicals] nothing but the request can raise; [summary] is
    [None] here when the source finds it falsy.  [PAIR_EXCHANGE_CACHE],
    a global of the source, is handed to [get_all_technicals] and
    returned by it. *)

Record Summary := mkSummary {
  RECOMMENDATION : option string;
  BUY_count : option Z;
  SELL_count : option Z;
  NEUTRAL_count : option Z
}.

Record Analysis := mkAnalysis {
  summary : option Summary;
  close : Q
}.

Class Tradingview (World : Type) := {
  api_get_multiple_analysis :
    list string → World → option (gmap string (option Analysis)) * World
}.

Module Technicals.

(** [p.replace('/', '')] *)
Fixpoint remove_slash (p : string) : string :=
  match p with
  | EmptyString => EmptyString
  | String c rest =>
      if Ascii.eqb c "/"%char then remove_slash rest
      else String c (remove_slash rest)
  end.

(** [f"{exchange}:{p.replace('/', '')}"] *)
Definition symbol_of (exchange p : string) : string :=
  exchange +:+ ":" +:+ remove_slash p.

(** [needle in hay], of two strings. *)
Fixpoint contains (needle hay : string) : bool :=
  String.prefix needle hay
  || match hay with
     | EmptyString => false
     | String _ rest => contains needle rest
     end.

(** The signal kept with an instrument: BUY for a recommendation that
    holds "BUY", SELL for another that holds "SELL"; any other is kept as
    it came, and since the trading logic compares signals with BUY and
    SELL alone, [NEUTRAL] stands for all of them. *)
Definition signal_of (recommendation : string) : Recommendation :=
  if contains "BUY" recommendation then BUY
  else if contains "SELL" recommendation then SELL
  else NEUTRAL.

(** The value stored in [final_technicals[pair]]. *)
Definition technical_of (analysis : Analysis) (summary : Summary)
  : TechData :=
  let signal :=
    signal_of (match RECOMMENDATION summary with
               | Some r => r
               | None => "NEUTRAL"
               end) in
  let count := fun field : option Z =>
    match field with Some n => n | None => 0%Z end in
  mkTech (close analysis) (count (SELL_count summary))
         (count (NEUTRAL_count summary)) (count (BUY_count summary)) signal
         (count (BUY_count summary) - count (SELL_count summary)).

(** [results.get(key) and results[key].summary], and the value stored when
    it holds. *)
Definition found (results : gmap string (option Analysis))
    (exchange p : string) : option TechData :=
  match results !! symbol_of exchange p with
  | Some (Some analysis) =>
      match summary analysis with
      | Some summary => Some (technical_of analysis summary)
      | None => None
      end
  | _ => None
  end.

(** [if exchange not in pairs_in_cache: pairs_in_cache[exchange] = []]
    and [pairs_in_cache[exchange].append(pair)]. *)
Definition dict_append (exchange p : string)
    (pairs_in_cache : list (string * list string))
  : list (string * list string) :=
  match dict_get exchange pairs_in_cache with
  | Some cached_pairs => dict_set exchange (cached_pairs ++ [p]) pairs_in_cache
  | None => dict_set exchange [p] pairs_in_cache
  end.

(** Step 1: [(pairs_in_cache, pairs_to_discover)]. *)
Definition segregate (PAIR_EXCHANGE_CACHE : gmap string string)
    (pairs : list string) : list (string * list string) * list string :=
  fold_left (fun acc p =>
               match PAIR_EXCHANGE_CACHE !! p with
               | Some exchange => (dict_append exchange p acc.1, acc.2)
               | None => (acc.1, acc.2 ++ [p])
               end)
            pairs ([], []).

(** The loop over the pairs asked of one exchange in step 2. *)
Definition store_found (results : gmap string (option Analysis))
    (exchange : string) (final_technicals : list (string * TechData))
    (p : string) : list (string * TechData) :=
  match found results exchange p with
  | Some t => dict_set p t final_technicals
  | None => final_technicals
  end.

(** The loop over [pairs_left_to_find] in step 3, on
    [(PAIR_EXCHANGE_CACHE, final_technicals, newly_found_this_exchange)]. *)
Definition store_discovered (results : gmap string (option Analysis))
    (exchange : string)
    (acc : gmap string string * list (string * TechData) * list string)
    (p : string)
  : gmap string string * list (string * TechData) * list string :=
  match found results exchange p with
  | Some t => (<[p := exchange]> acc.1.1, dict_set p t acc.1.2, acc.2 ++ [p])
  | None => acc
  end.

Definition exchanges_to_try : list string :=
  ["BINANCE"; "COINBASE"; "KUCOIN"; "KRAKEN"; "BITSTAMP"; "BYBIT";
   "CRYPTOCOM"].

Section Source.
Context {World : Type} `{Tradingview World}.

Definition get_multiple_analysis (symbols : list string)
  : M World (option (gmap string (option Analysis))) :=
  fun s => let (r, w) := api_get_multiple_analysis symbols (world s) in
           (r, mkState w (portfolio s) (saved s), []).

(** One pass of the loop of step 2, on
    [(final_technicals, pairs_to_discover)]. *)
Definition fetch_cached (acc : list (string * TechData) * list string)
    (group : string * list string)
  : M World (list (string * TechData) * list string) :=
  let exchange := group.1 in
  let cached_pairs := group.2 in
  log (LogText "Fetching known pairs");;
  results ← get_multiple_analysis (map (symbol_of exchange) cached_pairs);
  match results with
  | Some results =>
      mret (fold_left (store_found results exchange) cached_pairs acc.1,
            acc.2)
  | None =>
      log (LogText "Could not fetch from cache, will rediscover");;
      mret (acc.1, acc.2 ++ cached_pairs)
  end.

(** The loop of step 3 over the exchanges still to try, on
    [(PAIR_EXCHANGE_CACHE, final_technicals)] and [pairs_left_to_find]. *)
Fixpoint discover (exchanges : list string)
    (acc : gmap string string * list (string * TechData))
    (pairs_left_to_find : list string)
  : M World (gmap string string * list (string * TechData)) :=
  match exchanges with
  | [] => mret acc
  | exchange :: exchanges' =>
      match pairs_left_to_find with
      | [] => mret acc
      | _ =>
          results ←
            get_multiple_analysis
              (map (symbol_of exchange) pairs_left_to_find);
          match results with
          | None => discover exchanges' acc pairs_left_to_find
          | Some results =>
              if bool_decide (results = ∅)
              then discover exchanges' acc pairs_left_to_find
              else
                let after :=
                  fold_left (store_discovered results exchange)
                            pairs_left_to_find (acc, []) in
                let newly_found_this_exchange := after.2 in
                match newly_found_this_exchange with
                | [] => discover exchanges' after.1 pairs_left_to_find
                | _ =>
                    log (LogText "Discovered pairs");;
                    discover exchanges' after.1
                      (List.filter
                         (fun p =>
                            negb (existsb (String.eqb p)
                                          newly_found_this_exchange))
                         pairs_left_to_find)
                end
          end
      end
  end.

(** [get_all_technicals]; the [PAIR_EXCHANGE_CACHE] it leaves is returned
    with the technicals. *)
Definition get_all_technicals (PAIR_EXCHANGE_CACHE : gmap string string)
    (pairs : list string)
  : M World (list (string * TechData) * gmap string string) :=
  log (LogText "Fetching all technical indicators");;
  let pairs_in_cache := (segregate PAIR_EXCHANGE_CACHE pairs).1 in
  let pairs_to_discover := (segregate PAIR_EXCHANGE_CACHE pairs).2 in
  after_cache ←
    match pairs_in_cache with
    | [] => mret ([], pairs_to_discover)
    | _ =>
        log (LogText "Using cache for faster lookups");;
        for_each fetch_cached ([], pairs_to_discover) pairs_in_cache
    end;
  let final_technicals := after_cache.1 in
  let pairs_to_discover := after_cache.2 in
  match pairs_to_discover with
  | [] => mret (final_technicals, PAIR_EXCHANGE_CACHE)
  | _ =>
      log (LogText "Discovering new/unfound pairs");;
      after_discovery ←
        discover exchanges_to_try (PAIR_EXCHANGE_CACHE, final_technicals)
                 pairs_to_discover;
      mret (after_discovery.2, after_discovery.1)
  end.
End Source.
End Technicals.

(** The technicals [get_all_technicals] may return for [pairs]: of pairs
    that were asked for, each once, the score being the buy votes less
    the sell votes. *)
Definition technicals_ok (pairs : list string)
    (final_technicals : list (string * TechData)) : Prop :=
  (∀ p t, In (p, t) final_technicals →
          In p pairs ∧ score t = (buy t - sell t)%Z)
  ∧ List.NoDup (map fst final_technicals).

(** The cache [get_all_technicals] may leave, from the cache it found:
    no pair is forgotten; a pair that is new in it, or has changed its
    exchange, was asked for, was found, and is with one of the exchanges
    tried; and every pair returned is in it. *)
Definition cache_ok (cache : gmap string string) (pairs : list string)
    (cache' : gmap string string)
    (final_technicals : list (string * TechData)) : Prop :=
  (∀ p, is_Some (cache !! p) → is_Some (cache' !! p))
  ∧ (∀ p e, cache' !! p = Some e →
            cache !! p = Some e
            ∨ (In p pairs ∧ In e Technicals.exchanges_to_try
               ∧ is_Some (dict_get p final_technicals)))
  ∧ (∀ p t, In (p, t) final_technicals → is_Some (cache' !! p)).

(** ** UTILITY & API FUNCTIONS: what is signed and sent

    The requests of [get_balance] and [place_order] as the code builds
    them.  The clock is read in milliseconds; [hmac ... hexdigest] and
    [str] of a quantity are parameters. *)

Definition API_KEY : string := "".
Definition SECRET_KEY : string := "".

(** [str(int(time.time() * 1000))] *)
Definition get_timestamp (now_ms : N) : string :=
  NilEmpty.string_of_uint (N.to_uint now_ms).

(** [sorted(payload.items())]: the keys of a [dict] being distinct, the
    items are ordered by their keys. *)
Fixpoint insert_item (x : string * string) (l : list (string * string))
  : list (string * string) :=
  match l with
  | [] => [x]
  | y :: l' =>
      if String.ltb (fst x) (fst y) then x :: y :: l'
      else y :: insert_item x l'
  end.

Definition sorted_items (payload : list (string * string))
  : list (string * string) :=
  fold_left (fun sorted x => insert_item x sorted) payload [].

(** [s.split(sep)], for a separator of one character. *)
Fixpoint split_on (sep : ascii) (s : string) : list string :=
  match s with
  | EmptyString => [EmptyString]
  | String c rest =>
      if Ascii.eqb c sep then EmptyString :: split_on sep rest
      else match split_on sep rest with
           | w :: ws => String c w :: ws
           | [] => [String c EmptyString]
           end
  end.

Section Signing.
Variable hmac_sha256_hexdigest : string → string → string.
Variable str : Q → string.

(** The headers, as a [dict], and [total_params]. *)
Definition get_signed_headers (payload : list (string * string))
    (now_ms : N) : list (string * string) * string :=
  let payload := dict_set "timestamp" (get_timestamp now_ms) payload in
  let total_params :=
    String.concat "&"
      (map (fun kv => fst kv +:+ "=" +:+ snd kv) (sorted_items payload)) in
  let signature := hmac_sha256_hexdigest SECRET_KEY total_params in
  ([("RST-API-KEY", API_KEY); ("MSG-SIGNATURE", signature);
    ("Content-Type", "application/x-www-form-urlencoded")],
   total_params).

(** What [get_balance] hands to [requests.get]: the headers and
    [params_dict]. *)
Definition balance_request (now_ms : N)
  : list (string * string) * list (string * string) :=
  let '(headers, params_str) := get_signed_headers [] now_ms in
  let params_dict := [("timestamp", nth 1 (split_on "=" params_str) "")] in
  (headers, params_dict).

(** What [place_order] hands to [requests.post]: the headers and the
    body. *)
Definition order_request (pair : string) (side : Side) (quantity : Q)
    (now_ms : N) : list (string * string) * string :=
  let payload :=
    [("pair", pair);
     ("side", match side with SideBuy => "BUY" | SideSell => "SELL" end);
     ("type", "MARKET"); ("quantity", str quantity)] in
  get_signed_headers payload now_ms.
End Signing.

(** ** Runs of the setup and of the technical-analysis source *)

(** A paper exchange that also answers for its rules. *)
Record Desk := mkDesk {
  desk_paper : Paper;
  desk_info : option ExchangeInfo
}.

Definition on_desk {A : Type} (info : option ExchangeInfo)
    (r : A * Paper) : A * Desk :=
  (r.1, mkDesk r.2 info).

#[global] Instance desk_api : Api Desk := {
  api_get_balance x :=
    on_desk (desk_info x) (api_get_balance (desk_paper x));
  api_get_ticker x :=
    on_desk (desk_info x) (api_get_ticker (desk_paper x));
  api_get_all_technicals pairs x :=
    on_desk (desk_info x) (api_get_all_technicals pairs (desk_paper x));
  api_place_order pair side qty x :=
    on_desk (desk_info x) (api_place_order pair side qty (desk_paper x));
  api_now x := api_now (desk_paper x)
}.

#[global] Instance desk_setup : Setup Desk := {
  api_get_exchange_info x := (desk_info x, x)
}.

(** Rules for two pairs, and a pair without a precision. *)
Definition demo_info : ExchangeInfo :=
  mkInfo [("BTC/USD", mkDetails (Some 2%Z)); ("ETH/USD", mkDetails (Some 2%Z));
          ("XYZ/USD", mkDetails None)].

(** The venue of [tp_state], the ledger on file and not yet loaded. *)
Definition desk_state (info : option ExchangeInfo) : State Desk :=
  mkState (mkDesk (world tp_state) info) ∅ (portfolio tp_state).

(** A source that answers every request with all it lists. *)
Record Feed := mkFeed {
  listed : gmap string (option Analysis)
}.

#[global] Instance feed_source : Tradingview Feed := {
  api_get_multiple_analysis _ x := (Some (listed x), x)
}.

Definition demo_feed : Feed :=
  mkFeed {[ "BINANCE:BTCUSD" :=
              Some (mkAnalysis
                      (Some (mkSummary (Some "STRONG_BUY") (Some 14%Z)
                                       (Some 2%Z) (Some 10%Z)))
                      97);
            "BINANCE:ETHUSD" := None ]}.

Definition feed_state : State Feed := mkState demo_feed ∅ ∅.

Definition binance_cache : gmap string string :=
  {[ "BTC/USD" := "BINANCE"; "ETH/USD" := "BINANCE" ]}.

(** * Properties *)

(** ** Comparisons of rationals *)

Lemma Qleb_true (x y : Q) : Qleb x y = true ↔ (x <= y)%Q.
Proof. apply Qle_bool_iff. Qed.

Lemma Qleb_false (x y : Q) : Qleb x y = false ↔ (y < x)%Q.
Proof.
  unfold Qleb. rewrite <- not_true_iff_false, Qle_bool_iff.
  split; [apply Qnot_le_lt | apply Qlt_not_le].
Qed.

Lemma Qltb_true (x y : Q) : Qltb x y = true ↔ (x < y)%Q.
Proof. unfold Qltb. rewrite negb_true_iff. apply Qleb_false. Qed.

Lemma Qltb_false (x y : Q) : Qltb x y = false ↔ (y <= x)%Q.
Proof. unfold Qltb. rewrite negb_false_iff. apply Qleb_true. Qed.

Lemma Qgtb_true (x y : Q) : Qgtb x y = true ↔ (y < x)%Q.
Proof. apply Qltb_true. Qed.

Lemma Qgtb_false (x y : Q) : Qgtb x y = false ↔ (x <= y)%Q.
Proof. apply Qltb_false. Qed.




(** ** The position ledger *)

Lemma ledger_on_buy_lookup coin fill_qty fill_price t p e :
  p !! coin = Some e →
  (0 < quantity e + fill_qty)%Q →
  ledger_on_buy coin fill_qty fill_price t p !! coin
  = Some (mkEntry
            ((buy_price e * quantity e + fill_price * fill_qty)
             / (quantity e + fill_qty))%Q
            (quantity e + fill_qty)%Q (Some t)).
Proof.
  intros Hp Hpos. unfold ledger_on_buy. rewrite Hp, lookup_insert_eq.
  apply Qgtb_true in Hpos. by rewrite Hpos.
Qed.

Lemma ledger_on_buy_other coin coin' fill_qty fill_price t p :
  coin ≠ coin' →
  ledger_on_buy coin fill_qty fill_price t p !! coin' = p !! coin'.
Proof. intros Hne. unfold ledger_on_buy. by rewrite lookup_insert_ne. Qed.

Lemma ledger_on_buy_is_Some coin coin' fill_qty fill_price t p :
  is_Some (p !! coin') →
  is_Some (ledger_on_buy coin fill_qty fill_price t p !! coin').
Proof.
  intros Hs. unfold ledger_on_buy.
  destruct (decide (coin = coin')) as [->|Hne].
  - rewrite lookup_insert_eq. eauto.
  - by rewrite lookup_insert_ne.
Qed.

(** ** The signal ranker *)

Lemma insert_by_score_In x y l :
  In y (insert_by_score x l) ↔ y = x ∨ In y l.
Proof.
  induction l as [|z l IH]; simpl.
  - intuition.
  - destruct (score z.2 <? score x.2)%Z; simpl; rewrite ?IH; intuition.
Qed.

Lemma rank_pairs_by_technicals_In technicals y :
  In y (rank_pairs_by_technicals technicals) ↔ In y technicals.
Proof.
  unfold rank_pairs_by_technicals.
  assert (∀ acc, In y (fold_left (fun sorted x => insert_by_score x sorted)
                                  technicals acc)
                 ↔ In y technicals ∨ In y acc) as Hgen.
  { induction technicals as [|x l IH]; intros acc; simpl.
    - intuition.
    - rewrite IH, insert_by_score_In. intuition. }
  rewrite Hgen. simpl. intuition.
Qed.

Lemma rank_pairs_by_technicals_length technicals :
  length (rank_pairs_by_technicals technicals) = length technicals.
Proof.
  unfold rank_pairs_by_technicals.
  assert (∀ x l, length (insert_by_score x l) = S (length l)) as Hins.
  { intros x l. induction l as [|z l IH]; simpl; [done|].
    destruct (score z.2 <? score x.2)%Z; simpl; by rewrite ?IH. }
  assert (∀ acc, length (fold_left (fun sorted x => insert_by_score x sorted)
                                   technicals acc)
                 = (length technicals + length acc)%nat) as Hgen.
  { induction technicals as [|x l IH]; intros acc; simpl; [done|].
    rewrite IH, Hins. lia. }
  rewrite Hgen. simpl. lia.
Qed.

Lemma recommendation_eqb_eq a b : recommendation_eqb a b = true ↔ a = b.
Proof. destruct a, b; simpl; split; congruence. Qed.

Lemma strong_buy_signals_In ranked_pairs pd :
  In pd (strong_buy_signals ranked_pairs)
  ↔ In pd ranked_pairs ∧ signal pd.2 = BUY
    ∧ (STRONG_SELL_THRESHOLD <= buy pd.2)%Z.
Proof.
  unfold strong_buy_signals.
  rewrite <- !list_elem_of_In, list_elem_of_filter.
  rewrite Is_true_true, andb_true_iff, recommendation_eqb_eq, Z.leb_le.
  tauto.
Qed.

(** ** The allocation planner *)

Lemma exponential_weights_length n : length (exponential_weights n) = n.
Proof. unfold exponential_weights. by rewrite length_map, length_seq. Qed.

Lemma exponential_weights_nth n i :
  (i < n)%nat →
  nth i (exponential_weights n) 0%Z = (2 ^ Z.of_nat (n - i - 1))%Z.
Proof.
  intros Hi. unfold exponential_weights.
  rewrite (nth_indep _ 0%Z ((fun i : nat => 2 ^ Z.of_nat (n - i - 1)) 0%nat))%Z
    by (by rewrite length_map, length_seq).
  rewrite (map_nth (fun i : nat => 2 ^ Z.of_nat (n - i - 1))%Z).
  by rewrite seq_nth.
Qed.

(** The weights of [n] candidates are those of [n - 1] behind a new first
    one twice as heavy as the old first. *)
Lemma exponential_weights_S n :
  exponential_weights (S n) = (2 ^ Z.of_nat n)%Z :: exponential_weights n.
Proof.
  unfold exponential_weights. simpl seq. simpl map.
  f_equal; [f_equal; lia|].
  rewrite <- seq_shift, map_map.
  apply map_ext. intros i. reflexivity.
Qed.

Lemma total_weight_exponential n :
  total_weight (exponential_weights n) = (2 ^ Z.of_nat n - 1)%Z.
Proof.
  induction n as [|n IH].
  - reflexivity.
  - rewrite exponential_weights_S. unfold total_weight in *. simpl fold_right.
    rewrite IH, Nat2Z.inj_succ, Z.pow_succ_r by lia. lia.
Qed.

Lemma total_weight_positive n :
  (1 <= n)%nat → (0 < total_weight (exponential_weights n))%Z.
Proof.
  intros Hn. rewrite total_weight_exponential.
  assert (2 ^ 1 <= 2 ^ Z.of_nat n)%Z by (apply Z.pow_le_mono_r; lia).
  lia.
Qed.

Lemma Qsum_shares (ws : list Z) (total : Z) (cash : Q) :
  (Qsum (map (fun w => (inject_Z w / inject_Z total) * cash)%Q ws)
   == (inject_Z (total_weight ws) / inject_Z total) * cash)%Q.
Proof.
  induction ws as [|w ws IH]; unfold Qsum, total_weight in *; simpl.
  - unfold Qdiv. ring.
  - rewrite IH, inject_Z_plus. unfold Qdiv. ring.
Qed.

Lemma map_nth_seq (ws : list Z) :
  map (fun i => nth i ws 0%Z) (seq 0 (length ws)) = ws.
Proof.
  induction ws as [|w ws IH]; simpl; [done|].
  f_equal. rewrite <- seq_shift, map_map. exact IH.
Qed.

Lemma allocation_sum n cash :
  (1 <= n)%nat →
  (Qsum (map (allocation n cash) (seq 0 n)) == cash)%Q.
Proof.
  intros Hn. unfold allocation.
  pose proof (Qsum_shares (exponential_weights n)
                (total_weight (exponential_weights n)) cash) as Hs.
  rewrite <- (map_nth_seq (exponential_weights n)) in Hs at 1.
  rewrite map_map, exponential_weights_length in Hs.
  rewrite Hs. field.
  pose proof (total_weight_positive n Hn) as Hpos.
  intros Heq.
  assert (inject_Z 0 < inject_Z (total_weight (exponential_weights n)))%Q
    as Hlt by (rewrite <- Zlt_Qlt; exact Hpos).
  rewrite Heq in Hlt. exact (Qlt_irrefl _ Hlt).
Qed.

(** ** Running the routines *)

Lemma orders_of_app t1 t2 : orders_of (t1 ++ t2) = orders_of t1 ++ orders_of t2.
Proof. unfold orders_of. by rewrite flat_map_app. Qed.

Lemma lines_of_app t1 t2 : lines_of (t1 ++ t2) = lines_of t1 ++ lines_of t2.
Proof. unfold lines_of. by rewrite flat_map_app. Qed.

Lemma requests_of_app t1 t2 :
  requests_of (t1 ++ t2) = requests_of t1 ++ requests_of t2.
Proof. unfold requests_of. by rewrite orders_of_app, map_app. Qed.

Section Logic.
Context {World : Type}.

Lemma bind_run {A B : Type} (k : A → M World B) (m : M World A) s :
  bind k m s
  = (value (k (value (m s)) (final (m s))),
     final (k (value (m s)) (final (m s))),
     trace (m s) ++ trace (k (value (m s)) (final (m s)))).
Proof.
  unfold bind, value, final, trace.
  destruct (m s) as [[a s1] t1]. simpl.
  by destruct (k a s1) as [[b s2] t2].
Qed.

Lemma for_each_cons {A B : Type} (body : B → A → M World B) acc x l s :
  for_each body acc (x :: l) s
  = (value (for_each body (value (body acc x s)) l (final (body acc x s))),
     final (for_each body (value (body acc x s)) l (final (body acc x s))),
     trace (body acc x s)
     ++ trace (for_each body (value (body acc x s)) l (final (body acc x s)))).
Proof.
  exact (bind_run (fun acc' => for_each body acc' l) (body acc x) s).
Qed.

(** A loop keeps what its body keeps, and lets out, under a projection
    [π] of the events, what its body lets out for each element. *)
Lemma for_each_proj {A B C : Type} (π : list Event → list C)
    (Inv : gmap string Entry → Prop) (body : B → A → M World B)
    (f : A → list C) (l : list A) :
  π [] = [] →
  (∀ t1 t2, π (t1 ++ t2) = π t1 ++ π t2) →
  (∀ acc x s, In x l → Inv (portfolio s) →
     Inv (portfolio (final (body acc x s)))
     ∧ π (trace (body acc x s)) = f x) →
  ∀ acc s, Inv (portfolio s) →
    Inv (portfolio (final (for_each body acc l s)))
    ∧ π (trace (for_each body acc l s)) = flat_map f l.
Proof.
  intros Hnil Happ. induction l as [|x l IH]; intros Hbody acc s Hinv.
  - simpl. by split.
  - rewrite for_each_cons. unfold final at 1, trace at 1. simpl.
    destruct (Hbody acc x s (or_introl eq_refl) Hinv) as [Hinv1 Hpi1].
    destruct (IH (fun acc x s Hx => Hbody acc x s (or_intror Hx))
                 (value (body acc x s)) (final (body acc x s)) Hinv1)
      as [Hinv2 Hpi2].
    split; [exact Hinv2|]. by rewrite Happ, Hpi1, Hpi2.
Qed.

(** A loop keeps a relation between its accumulator, what has been let
    out so far and the ledger, when its body does. *)
Lemma for_each_inv {A B : Type}
    (J : B → list Event → gmap string Entry → Prop)
    (body : B → A → M World B) (l : list A) :
  (∀ acc x s t0, In x l → J acc t0 (portfolio s) →
     J (value (body acc x s)) (t0 ++ trace (body acc x s))
       (portfolio (final (body acc x s)))) →
  ∀ acc s t0, J acc t0 (portfolio s) →
    J (value (for_each body acc l s))
      (t0 ++ trace (for_each body acc l s))
      (portfolio (final (for_each body acc l s))).
Proof.
  induction l as [|x l IH]; intros Hbody acc s t0 HJ.
  - simpl. by rewrite app_nil_r.
  - rewrite for_each_cons. unfold value at 1, final at 1, trace at 1. simpl.
    rewrite app_assoc. apply IH.
    + intros acc' x' s' t' Hx'. apply Hbody. by right.
    + apply Hbody; [by left | exact HJ].
Qed.
End Logic.

(** Unfolds the monad and runs the straight-line part of a routine. *)
Ltac run :=
  unfold mbind, M_bind, bind, mret, M_ret, ret, log, get_portfolio,
    set_portfolio, save_portfolio, place_order, now, get_balance,
    get_ticker, get_all_technicals;
  cbn [value final trace fst snd portfolio world saved].

Ltac run_cases :=
  run; repeat (case_match; simplify_eq; run).

(** ** What a sale does to the ledger *)

Lemma sold_only_refl p : sold_only p p.
Proof. intros c. by left. Qed.

Lemma sold_only_trans p1 p2 p3 :
  sold_only p1 p2 → sold_only p2 p3 → sold_only p1 p3.
Proof.
  intros H12 H23 c. destruct (H23 c) as [H3|(e2 & H2 & H3)].
  - rewrite H3. apply H12.
  - destruct (H12 c) as [H1|(e1 & H1 & H2')].
    + right. exists e2. by rewrite <- H1.
    + right. exists e1. split; [done|]. rewrite H3. by simplify_eq.
Qed.

Lemma sold_only_alter p c : sold_only p (alter zeroed c p).
Proof.
  intros c'. destruct (decide (c = c')) as [->|Hne].
  - rewrite lookup_alter_eq. destruct (p !! c') as [e|] eqn:He.
    + right. by exists e.
    + by left.
  - left. by rewrite lookup_alter_ne.
Qed.

Lemma sold_only_Some p p' c e :
  sold_only p p' → p !! c = Some e →
  ∃ e', p' !! c = Some e' ∧ buy_price e' = buy_price e
        ∧ timestamp e' = timestamp e
        ∧ (quantity e' = quantity e ∨ quantity e' = 0%Q).
Proof.
  intros Hso He. destruct (Hso c) as [Hc|(e0 & He0 & Hc)].
  - exists e. rewrite Hc. auto.
  - simplify_eq. exists (zeroed e). auto.
Qed.

Lemma sold_only_None p p' c :
  sold_only p p' → p !! c = None → p' !! c = None.
Proof.
  intros Hso He. destruct (Hso c) as [Hc|(e0 & He0 & Hc)]; congruence.
Qed.

Lemma sold_only_buy_price p p' c :
  sold_only p p' → buy_price <$> p' !! c = buy_price <$> p !! c.
Proof.
  intros Hso. destruct (Hso c) as [Hc|(e0 & He0 & Hc)].
  - by rewrite Hc.
  - by rewrite Hc, He0.
Qed.

(** ** The pair of a coin *)

Lemma usd_pair_inj coin coin' : usd_pair coin = usd_pair coin' → coin = coin'.
Proof.
  unfold usd_pair. revert coin'.
  induction coin as [|a coin IH]; intros [|a' coin']; simpl; intros Heq.
  - done.
  - exfalso. injection Heq as Ha Hrest. destruct coin' as [|b [|c [|d [|? ?]]]];
      simpl in Hrest; discriminate.
  - exfalso. injection Heq as Ha Hrest. destruct coin as [|b [|c [|d [|? ?]]]];
      simpl in Hrest; discriminate.
  - injection Heq as -> Hrest. f_equal. by apply IH.
Qed.

Section Sells.
Context {World : Type} `{Api World}.
Variable PAIR_PRECISION : gmap string Z.

Lemma sell_truncated_requests kind coin pair quantity acc
    (s : State World) :
  requests_of (trace (sell_truncated PAIR_PRECISION kind coin pair
                                     quantity acc s))
  = sell_request PAIR_PRECISION pair quantity.
Proof.
  unfold sell_truncated, sell_request, zero_if_recorded, zero_and_save.
  destruct acc as [total_received total_pl].
  run_cases; reflexivity.
Qed.

Lemma sell_truncated_ledger kind coin pair quantity acc (s : State World) :
  sold_only (portfolio s)
    (portfolio (final (sell_truncated PAIR_PRECISION kind coin pair
                                      quantity acc s))).
Proof.
  unfold sell_truncated, zero_if_recorded, zero_and_save.
  destruct acc as [total_received total_pl].
  run_cases; try apply sold_only_refl; apply sold_only_alter.
Qed.

(** What one call of [sell_truncated] submits, and what it does to the
    ledger when the venue fills it. *)
Lemma sell_truncated_orders kind coin pair quantity acc (s : State World) :
  let r := sell_truncated PAIR_PRECISION kind coin pair quantity acc s in
  (∀ o d, In (o, Filled d) (orders_of (trace r)) →
          o_pair o = pair
          ∧ portfolio (final r) = alter zeroed coin (portfolio s)).
Proof.
  unfold sell_truncated, zero_if_recorded, zero_and_save.
  destruct acc as [total_received total_pl].
  run_cases; intros o d Hin; simpl in Hin;
    repeat (destruct Hin as [Hin|Hin]; simplify_eq); try done.
  all: split; [done|]; apply map_eq; intros c.
  all: destruct (decide (coin = c)) as [->|Hne];
    [rewrite lookup_alter_eq | by rewrite lookup_alter_ne].
  all: simpl in *; match goal with Hn : _ !! _ = None |- _ => by rewrite Hn end.
Qed.

Lemma filled_are_zeroed_sold_only ρ t p p' :
  sold_only p p' → filled_are_zeroed ρ t p → filled_are_zeroed ρ t p'.
Proof.
  intros Hso Hz pair coin q d e' Hrho Hin He'.
  destruct (Hso coin) as [Hc|(e & He & Hc)].
  - eapply Hz; [done..|]. by rewrite <- Hc.
  - rewrite Hc in He'. by simplify_eq.
Qed.

Lemma sell_truncated_zeroes (ρ : string → string → Prop) kind coin pair
    quantity acc (s : State World) t0 :
  (∀ coin', ρ pair coin' → coin' = coin) →
  filled_are_zeroed ρ t0 (portfolio s) →
  filled_are_zeroed ρ
    (t0 ++ trace (sell_truncated PAIR_PRECISION kind coin pair quantity
                                 acc s))
    (portfolio (final (sell_truncated PAIR_PRECISION kind coin pair
                                      quantity acc s))).
Proof.
  intros Hfun Hz pair' coin' q d e' Hrho Hin He'.
  rewrite orders_of_app, in_app_iff in Hin. destruct Hin as [Hin|Hin].
  - eapply filled_are_zeroed_sold_only;
      [apply sell_truncated_ledger | exact Hz | done..].
  - apply sell_truncated_orders in Hin as [Hpair Hp]. simpl in Hpair.
    subst pair'. apply Hfun in Hrho. subst coin'.
    rewrite Hp, lookup_alter_eq in He'.
    destruct (portfolio s !! coin); simpl in He'; by simplify_eq.
Qed.

(** *** The three loops that sell *)

Lemma orders_of_lines (lines : list LogMsg) :
  orders_of (map Logged lines) = [].
Proof. induction lines; simpl; auto. Qed.

Lemma sale_loop {A : Type} (ρ : string → string → Prop)
    (body : Q * Q → A → M World (Q * Q)) (plan : A → list Order)
    (l : list A) acc (s : State World) :
  (∀ x, In x l →
        sale_or_skip PAIR_PRECISION ρ (fun acc => body acc x) (plan x)) →
  let r := for_each body acc l s in
  requests_of (trace r) = flat_map plan l
  ∧ sold_only (portfolio s) (portfolio (final r))
  ∧ (∀ t0, filled_are_zeroed ρ t0 (portfolio s) →
           filled_are_zeroed ρ (t0 ++ trace r) (portfolio (final r))).
Proof.
  intros Hbody r. subst r. split; [|split].
  - apply (for_each_proj requests_of (fun _ => True));
      [done | apply requests_of_app | | done].
    intros acc' x s' Hx _. split; [done|].
    destruct (Hbody x Hx) as [lines Hrun ->|kind coin pair q Hrun -> _];
      rewrite Hrun.
    + unfold requests_of. simpl. by rewrite orders_of_lines.
    + apply sell_truncated_requests.
  - pose proof (for_each_inv (fun _ _ p => sold_only (portfolio s) p)
                  body l) as Hloop.
    specialize (Hloop) with (t0 := []). apply Hloop; [|apply sold_only_refl].
    intros acc' x s' _ Hx Hso.
    destruct (Hbody x Hx) as [lines Hrun _|kind coin pair q Hrun _ _];
      rewrite Hrun; [done|].
    eapply sold_only_trans; [exact Hso | apply sell_truncated_ledger].
  - intros t0 Hz.
    apply (for_each_inv (fun _ t p => filled_are_zeroed ρ t p) body l);
      [|done].
    intros acc' x s' t' Hx Hz'.
    destruct (Hbody x Hx) as [lines Hrun _|kind coin pair q Hrun _ Hfun];
      rewrite Hrun.
    + simpl. intros pair coin q d e Hrho Hin.
      rewrite orders_of_app, orders_of_lines, app_nil_r in Hin. by eapply Hz'.
    + by apply sell_truncated_zeroes.
Qed.

Lemma filled_are_zeroed_ext ρ t t' p :
  orders_of t' = orders_of t →
  filled_are_zeroed ρ t p → filled_are_zeroed ρ t' p.
Proof. unfold filled_are_zeroed. by intros ->. Qed.

Lemma execute_sells_sells positions technicals :
  sells pair_of_coin
        (flat_map (strong_request PAIR_PRECISION technicals) positions)
        (execute_sells PAIR_PRECISION positions technicals).
Proof.
  intros s r. subst r. unfold execute_sells.
  set (body := fun (acc : Q * Q) (position : string * Q) => _).
  pose proof (sale_loop pair_of_coin body
                (strong_request PAIR_PRECISION technicals)
                positions (0%Q, 0%Q) s) as Hloop.
  run. destruct (for_each body _ positions s) as [[[tr tp] s1] t1] eqn:Hrun.
  simpl in Hloop.
  assert (∀ x, In x positions →
               sale_or_skip PAIR_PRECISION pair_of_coin (fun acc => body acc x)
                            (strong_request PAIR_PRECISION technicals x))
    as Hbody.
  { intros [coin q] _. unfold body, strong_request. simpl.
    destruct (dict_get (usd_pair coin) technicals) as [t|].
    - destruct (negb (recommendation_eqb (signal t) SELL)).
      + by apply (is_skip _ _ _ _ []).
      + destruct (sell t <? STRONG_SELL_THRESHOLD)%Z.
        * by apply (is_skip _ _ _ _ [LogTooWeak coin]).
        * eapply is_sale; [done..|]. intros coin' Heq. symmetry.
          by apply usd_pair_inj.
    - by apply (is_skip _ _ _ _ []). }
  destruct (Hloop Hbody) as (Hreq & Hso & Hz).
  destruct (Qneb tp 0); run.
  all: split; [|split; [done|]].
  all: try (rewrite !requests_of_app, Hreq; unfold requests_of; simpl;
            by rewrite app_nil_r).
  all: intros t0 Hz0; simpl.
  all: apply (filled_are_zeroed_ext _ (t0 ++ t1)); [|by apply Hz].
  all: rewrite !orders_of_app; simpl; rewrite !orders_of_app; simpl.
  all: by rewrite app_nil_r.
Qed.

Lemma execute_weak_sell_rebalancing_sells positions technicals :
  sells pair_of_coin
        (flat_map (weak_request PAIR_PRECISION technicals) positions)
        (execute_weak_sell_rebalancing PAIR_PRECISION positions technicals).
Proof.
  intros s r. subst r. unfold execute_weak_sell_rebalancing.
  set (body := fun (acc : Q * Q) (position : string * Q) => _).
  pose proof (sale_loop pair_of_coin body
                (weak_request PAIR_PRECISION technicals)
                positions (0%Q, 0%Q) s) as Hloop.
  run. destruct (for_each body _ positions s) as [[[tr tp] s1] t1] eqn:Hrun.
  simpl in Hloop.
  assert (∀ x, In x positions →
               sale_or_skip PAIR_PRECISION pair_of_coin (fun acc => body acc x)
                            (weak_request PAIR_PRECISION technicals x))
    as Hbody.
  { intros [coin q] _. unfold body, weak_request. simpl.
    destruct (dict_get (usd_pair coin) technicals) as [t|].
    - destruct (sell t <? WEAK_SELL_THRESHOLD)%Z.
      + by apply (is_skip _ _ _ _ []).
      + eapply is_sale; [done..|]. intros coin' Heq. symmetry.
        by apply usd_pair_inj.
    - by apply (is_skip _ _ _ _ []). }
  destruct (Hloop Hbody) as (Hreq & Hso & Hz).
  destruct (Qgtb tr 0); [destruct (Qneb tp 0)|]; run.
  all: split; [|split; [done|]].
  all: try (rewrite !requests_of_app, Hreq; unfold requests_of; simpl;
            by rewrite app_nil_r).
  all: intros t0 Hz0; simpl.
  all: apply (filled_are_zeroed_ext _ (t0 ++ t1)); [|by apply Hz].
  all: rewrite !orders_of_app; simpl; rewrite !orders_of_app; simpl.
  all: by rewrite app_nil_r.
Qed.

Lemma execute_tp_sl_sells_sells positions_to_sell sell_reasons :
  sells coin_of_pair (flat_map (tp_sl_request PAIR_PRECISION) positions_to_sell)
        (execute_tp_sl_sells PAIR_PRECISION positions_to_sell sell_reasons).
Proof.
  intros s r. subst r. unfold execute_tp_sl_sells.
  destruct positions_to_sell as [|item0 rest] eqn:Hpos.
  { run. split; [done|]. split; [apply sold_only_refl|].
    intros t0 Hz0. eapply filled_are_zeroed_ext; [|exact Hz0].
    rewrite orders_of_app. simpl. by rewrite app_nil_r. }
  rewrite <- Hpos. clear Hpos.
  set (body := fun (acc : Q * Q) (item : string * Q) => _).
  pose proof (sale_loop coin_of_pair body (tp_sl_request PAIR_PRECISION)
                positions_to_sell (0%Q, 0%Q) s) as Hloop.
  run.
  destruct (for_each body _ positions_to_sell s) as [[[tr tp] s1] t1] eqn:Hrun.
  simpl in Hloop.
  assert (∀ x, In x positions_to_sell →
               sale_or_skip PAIR_PRECISION coin_of_pair (fun acc => body acc x)
                            (tp_sl_request PAIR_PRECISION x)) as Hbody.
  { intros [pair q] _. unfold body, tp_sl_request. simpl.
    eapply is_sale; [done..|]. by intros coin' ->. }
  destruct (Hloop Hbody) as (Hreq & Hso & Hz).
  destruct (Qneb tp 0); run.
  all: split; [|split; [done|]].
  all: try (rewrite !requests_of_app, Hreq; unfold requests_of; simpl;
            by rewrite app_nil_r).
  all: intros t0 Hz0; simpl.
  all: apply (filled_are_zeroed_ext _ (t0 ++ t1)); [|by apply Hz].
  all: rewrite !orders_of_app; simpl; rewrite !orders_of_app; simpl.
  all: by rewrite app_nil_r.
Qed.
End Sells.

(** ** The risk evaluator *)

Lemma verdicts_of_app t1 t2 :
  verdicts_of (t1 ++ t2) = verdicts_of t1 ++ verdicts_of t2.
Proof. unfold verdicts_of. by rewrite lines_of_app, List.filter_app. Qed.

Lemma lines_of_In m t : In m (lines_of t) ↔ In (Logged m) t.
Proof.
  unfold lines_of. rewrite in_flat_map. split.
  - intros ([m'|o r] & Hin & Hm); simpl in Hm; [|done].
    destruct Hm as [->|[]]. done.
  - intros Hin. exists (Logged m). split; [done|]. by left.
Qed.

Lemma orders_of_In o r t : In (o, r) (orders_of t) ↔ In (Ordered o r) t.
Proof.
  unfold orders_of. rewrite in_flat_map. split.
  - intros ([m'|o' r'] & Hin & Hm); simpl in Hm; [done|].
    destruct Hm as [Heq|[]]. by simplify_eq.
  - intros Hin. exists (Ordered o r). split; [done|]. by left.
Qed.

Lemma verdicts_of_In m t :
  is_verdict m = true → (In m (verdicts_of t) ↔ In (Logged m) t).
Proof.
  intros Hm. unfold verdicts_of. rewrite List.filter_In, lines_of_In. tauto.
Qed.

Lemma quick_verdict_sold_only p p' td coin :
  sold_only p p' → quick_verdict p' td coin = quick_verdict p td coin.
Proof.
  intros Hso. unfold quick_verdict.
  destruct (Hso coin) as [Hc|(e & He & Hc)]; rewrite Hc; [done|].
  by rewrite He.
Qed.

Ltac skip_case :=
  split; [|split; [|split]];
  [done | done | apply sold_only_refl | by intros ? ? []].

Section Quick.
Context {World : Type} `{Api World}.
Variable PAIR_PRECISION : gmap string Z.

Lemma quick_sell_facts label coin pair quantity total (s : State World) :
  let r := quick_sell PAIR_PRECISION label coin pair quantity total s in
  verdicts_of (trace r) = []
  ∧ requests_of (trace r) = sell_request PAIR_PRECISION pair quantity
  ∧ sold_only (portfolio s) (portfolio (final r))
  ∧ (∀ o d, In (o, Filled d) (orders_of (trace r)) →
            o_pair o = pair
            ∧ portfolio (final r) = alter zeroed coin (portfolio s)).
Proof.
  unfold quick_sell, sell_request, zero_and_save.
  run_cases; (split; [|split; [|split]]);
    try done; try apply sold_only_refl; try apply sold_only_alter.
  all: intros ? ? Hin; simpl in Hin;
    repeat (destruct Hin as [Hin|Hin]; simplify_eq); done.
Qed.

Lemma quick_check_position_facts td total coin quantity (s : State World) :
  let r := quick_check_position PAIR_PRECISION td total (coin, quantity) s in
  verdicts_of (trace r) = [quick_verdict (portfolio s) td coin]
  ∧ requests_of (trace r)
    = quick_request PAIR_PRECISION (portfolio s) td (coin, quantity)
  ∧ sold_only (portfolio s) (portfolio (final r))
  ∧ (∀ o d, In (o, Filled d) (orders_of (trace r)) →
            o_pair o = usd_pair coin
            ∧ portfolio (final r) = alter zeroed coin (portfolio s)).
Proof.
  unfold quick_check_position, quick_request, quick_verdict, ratio_line.
  simpl.
  run. destruct (portfolio s !! coin) as [entry|]; run;
    [|skip_case].
  destruct (Qleb (buy_price entry) 0); run;
    [skip_case|].
  destruct (ticker_dict td !! usd_pair coin) as [md|]; run;
    [|skip_case].
  destruct (bool_decide (md = ∅)); run;
    [skip_case|].
  destruct (Qleb (last_price md) 0); run;
    [skip_case|].
  destruct (Qgeb _ TP_THRESHOLD); [|destruct (Qleb _ SL_THRESHOLD)]; run;
    [| |skip_case].
  - pose proof (quick_sell_facts "TP" coin (usd_pair coin) quantity total s)
      as (Hv & Hr & Hso & Hf).
    destruct (quick_sell _ _ _ _ _ _ s) as [[v s1] t1]. simpl in *.
    unfold verdicts_of, requests_of in *. simpl. rewrite Hv, Hr.
    split; [|split; [|split]]; done.
  - pose proof (quick_sell_facts "SL" coin (usd_pair coin) quantity total s)
      as (Hv & Hr & Hso & Hf).
    destruct (quick_sell _ _ _ _ _ _ s) as [[v s1] t1]. simpl in *.
    unfold verdicts_of, requests_of in *. simpl. rewrite Hv, Hr.
    split; [|split; [|split]]; done.
Qed.

(** One step of the argument that filled sales leave zeroed entries. *)
Lemma filled_are_zeroed_step (ρ : string → string → Prop)
    (p p' : gmap string Entry) (t0 t : list Event) (coin pair : string) :
  sold_only p p' →
  (∀ o d, In (o, Filled d) (orders_of t) →
          o_pair o = pair ∧ p' = alter zeroed coin p) →
  (∀ coin', ρ pair coin' → coin' = coin) →
  filled_are_zeroed ρ t0 p → filled_are_zeroed ρ (t0 ++ t) p'.
Proof.
  intros Hso Hf Hfun Hz pair' coin' q d e' Hrho Hin He'.
  rewrite orders_of_app, in_app_iff in Hin. destruct Hin as [Hin|Hin].
  - eapply filled_are_zeroed_sold_only; [exact Hso | exact Hz | done..].
  - apply Hf in Hin as [Hpair Hp]. simpl in Hpair.
    subst pair'. apply Hfun in Hrho. subst coin'.
    rewrite Hp, lookup_alter_eq in He'.
    destruct (p !! coin); simpl in He'; by simplify_eq.
Qed.

Lemma quick_request_sold_only p p' td position :
  sold_only p p' →
  quick_request PAIR_PRECISION p' td position
  = quick_request PAIR_PRECISION p td position.
Proof.
  intros Hso. unfold quick_request. by rewrite (quick_verdict_sold_only p p').
Qed.

Lemma quick_loop td total positions (s : State World) :
  let r := for_each (quick_check_position PAIR_PRECISION td) total
                    positions s in
  verdicts_of (trace r)
  = flat_map (fun x => [quick_verdict (portfolio s) td x.1]) positions
  ∧ requests_of (trace r)
    = flat_map (quick_request PAIR_PRECISION (portfolio s) td) positions
  ∧ sold_only (portfolio s) (portfolio (final r))
  ∧ (∀ t0, filled_are_zeroed pair_of_coin t0 (portfolio s) →
           filled_are_zeroed pair_of_coin (t0 ++ trace r)
                             (portfolio (final r))).
Proof.
  intros r. subst r. split; [|split; [|split]].
  - apply (for_each_proj verdicts_of (sold_only (portfolio s)));
      [done | apply verdicts_of_app | | apply sold_only_refl].
    intros acc [coin q] s' _ Hso.
    destruct (quick_check_position_facts td acc coin q s')
      as (Hv & _ & Hso' & _).
    split; [by eapply sold_only_trans|].
    rewrite Hv. simpl. by rewrite (quick_verdict_sold_only (portfolio s)).
  - apply (for_each_proj requests_of (sold_only (portfolio s)));
      [done | apply requests_of_app | | apply sold_only_refl].
    intros acc [coin q] s' _ Hso.
    destruct (quick_check_position_facts td acc coin q s')
      as (_ & Hr & Hso' & _).
    split; [by eapply sold_only_trans|].
    rewrite Hr. by apply quick_request_sold_only.
  - pose proof (for_each_inv (fun _ _ p => sold_only (portfolio s) p)
                  (quick_check_position PAIR_PRECISION td) positions)
      as Hloop.
    specialize (Hloop) with (t0 := []). apply Hloop; [|apply sold_only_refl].
    intros acc [coin q] s' _ _ Hso.
    destruct (quick_check_position_facts td acc coin q s')
      as (_ & _ & Hso' & _).
    by eapply sold_only_trans.
  - intros t0 Hz.
    apply (for_each_inv (fun _ t p => filled_are_zeroed pair_of_coin t p)
             (quick_check_position PAIR_PRECISION td) positions); [|done].
    intros acc [coin q] s' t' _ Hz'.
    destruct (quick_check_position_facts td acc coin q s')
      as (_ & _ & Hso' & Hf).
    eapply filled_are_zeroed_step; [exact Hso' | exact Hf | | exact Hz'].
    intros coin' Heq. symmetry. by apply usd_pair_inj.
Qed.

Lemma quick_tp_sl_check_and_sell_facts (s : State World) :
  let r := quick_tp_sl_check_and_sell PAIR_PRECISION s in
  let positions := (quick_inputs s).1 in
  let td := (quick_inputs s).2 in
  verdicts_of (trace r)
  = flat_map (fun x => [quick_verdict (portfolio s) td x.1]) positions
  ∧ requests_of (trace r)
    = flat_map (quick_request PAIR_PRECISION (portfolio s) td) positions
  ∧ sold_only (portfolio s) (portfolio (final r))
  ∧ (∀ t0, filled_are_zeroed pair_of_coin t0 (portfolio s) →
           filled_are_zeroed pair_of_coin (t0 ++ trace r)
                             (portfolio (final r))).
Proof.
  unfold quick_tp_sl_check_and_sell, quick_inputs. run.
  destruct (api_get_balance (world s)) as [[b|] w1]; run.
  2: { split; [|split; [|split]];
         [done | done | apply sold_only_refl |].
       intros t0 Hz. eapply filled_are_zeroed_ext; [|exact Hz].
       rewrite orders_of_app. simpl. by rewrite app_nil_r. }
  destruct (get_current_positions (Some b)) as [|x0 rest] eqn:Hpos; run.
  { split; [|split; [|split]];
      [done | done | apply sold_only_refl |].
    intros t0 Hz. eapply filled_are_zeroed_ext; [|exact Hz].
    rewrite orders_of_app. simpl. by rewrite app_nil_r. }
  destruct (api_get_ticker w1) as [td w2]; run.
  destruct (no_ticker td); run.
  { split; [|split; [|split]];
      [done | done | apply sold_only_refl |].
    intros t0 Hz. eapply filled_are_zeroed_ext; [|exact Hz].
    rewrite orders_of_app. simpl. by rewrite app_nil_r. }
  pose proof (quick_loop td 0%Q (x0 :: rest)
                (mkState w2 (portfolio s) (saved s)))
    as (Hv & Hr & Hso & Hz).
  destruct (for_each _ _ (x0 :: rest) _) as [[v s1] t1]. simpl in *.
  destruct (Qgtb v 0); run.
  all: unfold verdicts_of, requests_of in *; simpl.
  all: rewrite ?lines_of_app, ?orders_of_app, ?List.filter_app, ?map_app.
  all: simpl; rewrite ?app_nil_r.
  all: split; [|split; [|split]]; [done | done | done |].
  all: intros t0 Hz0; apply (filled_are_zeroed_ext _ (t0 ++ t1));
    [|by apply Hz].
  all: repeat (progress (rewrite ?orders_of_app; simpl)).
  all: by rewrite ?app_nil_r.
Qed.
End Quick.

(** *** Reading the verdicts *)

Lemma ratio_line_coin coin r : line_coin (ratio_line coin r) = Some coin.
Proof. unfold ratio_line. by repeat case_match. Qed.

Lemma quick_verdict_coin p td coin :
  line_coin (quick_verdict p td coin) = Some coin.
Proof.
  unfold quick_verdict. repeat case_match; try done; apply ratio_line_coin.
Qed.

Lemma full_verdict_coin p technicals coin :
  line_coin (full_verdict p technicals coin) = Some coin.
Proof.
  unfold full_verdict. repeat case_match; try done; apply ratio_line_coin.
Qed.

Lemma ratio_line_verdict coin r : is_verdict (ratio_line coin r) = true.
Proof. unfold ratio_line. by repeat case_match. Qed.

Lemma quick_verdict_is_verdict p td coin :
  is_verdict (quick_verdict p td coin) = true.
Proof.
  unfold quick_verdict. repeat case_match; try done; apply ratio_line_verdict.
Qed.






(** The quick check rates nothing else. *)
Lemma quick_verdict_unrated p td coin :
  (∀ e md, p !! coin = Some e → ticker_dict td !! usd_pair coin = Some md →
           ¬ ((0 < buy_price e)%Q ∧ md ≠ ∅ ∧ (0 < last_price md)%Q)) →
  quick_verdict p td coin = LogNoRecord coin
  ∨ quick_verdict p td coin = LogNoMarketData coin
  ∨ quick_verdict p td coin = LogInvalidPrice coin.
Proof.
  intros Hno. unfold quick_verdict.
  destruct (p !! coin) as [e|]; [|by left].
  destruct (Qleb (buy_price e) 0) eqn:Hbuy; [by left|].
  destruct (ticker_dict td !! usd_pair coin) as [md|]; [|by right; left].
  destruct (bool_decide (md = ∅)) eqn:Hmd; [by right; left|].
  destruct (Qleb (last_price md) 0) eqn:Hprice; [by right; right|].
  exfalso. apply (Hno e md eq_refl eq_refl).
  apply Qleb_false in Hbuy, Hprice. apply bool_decide_eq_false in Hmd. auto.
Qed.


Lemma sell_request_In P pair q o :
  In o (sell_request P pair q)
  ↔ ∃ precision, P !! pair = Some precision
      ∧ (0 < truncate_quantity q precision)%Q
      ∧ o = mkOrder pair SideSell (truncate_quantity q precision).
Proof.
  unfold sell_request. destruct (P !! pair) as [precision|].
  - destruct (Qgtb (truncate_quantity q precision) 0) eqn:Hpos; simpl.
    + apply Qgtb_true in Hpos. split.
      * intros [<-|[]]. by exists precision.
      * intros (precision' & Heq & _ & ->). left. by simplify_eq.
    + apply Qgtb_false in Hpos. split; [done|].
      intros (precision' & Heq & Hlt & _). simplify_eq.
      exact (Qlt_irrefl _ (Qlt_le_trans _ _ _ Hlt Hpos)).
  - split; [done|]. by intros (? & ? & _).
Qed.

Lemma dict_set_In {V : Type} (k k' : string) (v v' : V) d :
  In (k, v) (dict_set k' v' d) → (k, v) = (k', v') ∨ In (k, v) d.
Proof.
  induction d as [|[k0 v0] d IH]; simpl.
  - intros [Heq|[]]. by left.
  - destruct (String.eqb k' k0); simpl.
    + intros [Heq|Hin]; [by left | by right; right].
    + intros [Heq|Hin]; [by right; left|].
      destruct (IH Hin) as [?|?]; [by left | by right; right].
Qed.

Section Full.
Context {World : Type} `{Api World}.

Lemma get_holdings_to_sell_for_tp_sl_facts balance_data technicals
    (s : State World) :
  let r := get_holdings_to_sell_for_tp_sl balance_data technicals s in
  let positions := get_current_positions balance_data in
  verdicts_of (trace r)
  = flat_map (fun x => [full_verdict (portfolio s) technicals x.1]) positions
  ∧ orders_of (trace r) = []
  ∧ portfolio (final r) = portfolio s
  ∧ targets_of (portfolio s) technicals positions (value r).1.
Proof.
  unfold get_holdings_to_sell_for_tp_sl. run.
  destruct (api_get_ticker (world s)) as [td w1]. run.
  match goal with |- context [for_each ?b _ _ _] => set (body := b) end.
  set (s1 := mkState w1 (portfolio s) (saved s)).
  set (positions := get_current_positions balance_data).
  assert (∀ acc coin q s',
            portfolio s' = portfolio s →
            let r := body acc (coin, q) s' in
            portfolio (final r) = portfolio s
            ∧ verdicts_of (trace r) = [full_verdict (portfolio s) technicals coin]
            ∧ orders_of (trace r) = []
            ∧ (∀ pair q', In (pair, q') (value r).1 →
                 In (pair, q') acc.1
                 ∨ (pair = usd_pair coin ∧ q' = q
                    ∧ is_hit (full_verdict (portfolio s) technicals coin)
                      = true))) as Hbody.
  { intros [pts reasons] coin q s' Hp. unfold body, full_verdict, ratio_line.
    run. rewrite Hp.
    destruct (portfolio s !! coin) as [e|]; run; [|by auto].
    destruct (dict_get (usd_pair coin) technicals) as [t|]; run; [|by auto].
    destruct (Qgeb _ TP_THRESHOLD); [|destruct (Qleb _ SL_THRESHOLD)]; run.
    all: split; [done|]; split; [done|]; split; [done|].
    all: intros pair q' Hin; try by left.
    all: apply dict_set_In in Hin as [Heq|Hin]; [right; by simplify_eq|by left]. }
  split; [|split; [|split]].
  - pose proof (for_each_proj verdicts_of (fun p => p = portfolio s) body
                 (fun x => [full_verdict (portfolio s) technicals x.1])
                 positions eq_refl verdicts_of_app) as Hloop.
    destruct (for_each body ([], []) positions s1) as [[v s2] t2] eqn:Hrun.
    unfold verdicts_of in *. simpl.
    specialize (Hloop) with (acc := ([], [])) (s := s1).
    rewrite Hrun in Hloop. simpl in Hloop. apply Hloop; [|done].
    intros acc [coin q] s' _ Hp.
    destruct (Hbody acc coin q s' Hp) as (Hp' & Hv & _). done.
  - pose proof (for_each_proj orders_of (fun p => p = portfolio s) body
                 (fun x => []) positions eq_refl orders_of_app) as Hloop.
    destruct (for_each body ([], []) positions s1) as [[v s2] t2] eqn:Hrun.
    simpl.
    specialize (Hloop) with (acc := ([], [])) (s := s1).
    rewrite Hrun in Hloop. simpl in Hloop.
    destruct Hloop as [_ Hloop]; [|done|].
    + intros acc [coin q] s' _ Hp.
      destruct (Hbody acc coin q s' Hp) as (Hp' & _ & Ho & _). done.
    + rewrite Hloop. clear. induction positions; simpl; auto.
  - pose proof (for_each_inv (fun _ _ p => p = portfolio s) body positions)
      as Hloop.
    destruct (for_each body ([], []) positions s1) as [[v s2] t2] eqn:Hrun.
    simpl.
    specialize (Hloop) with (acc := ([], [])) (s := s1) (t0 := []).
    rewrite Hrun in Hloop. simpl in Hloop. apply Hloop; [|done].
    intros acc [coin q] s' _ _ Hp.
    destruct (Hbody acc coin q s' Hp) as (Hp' & _). done.
  - pose proof (for_each_inv
                  (fun acc _ p =>
                     p = portfolio s
                     ∧ targets_of (portfolio s) technicals positions acc.1)
                  body positions) as Hloop.
    destruct (for_each body ([], []) positions s1) as [[v s2] t2] eqn:Hrun.
    simpl.
    specialize (Hloop) with (acc := ([], [])) (s := s1) (t0 := []).
    rewrite Hrun in Hloop. simpl in Hloop. apply Hloop.
    + intros acc [coin q] s' _ Hx [Hp Hacc].
      destruct (Hbody acc coin q s' Hp) as (Hp' & _ & _ & Hval).
      split; [done|]. intros pair q' Hin.
      destruct (Hval pair q' Hin) as [Hold|(-> & -> & Hhit)].
      * by apply Hacc.
      * by exists coin.
    + split; [done|]. by intros pair q [].
Qed.
End Full.

(** *** What the full-cycle check returns *)

Lemma dict_get_set_eq {V : Type} (k : string) (v : V) d :
  dict_get k (dict_set k v d) = Some v.
Proof.
  induction d as [|[k0 v0] d IH]; simpl.
  - by rewrite String.eqb_refl.
  - destruct (String.eqb k k0) eqn:Hk; simpl.
    + by rewrite String.eqb_refl.
    + by rewrite Hk.
Qed.

Lemma dict_get_set_ne {V : Type} (k k' : string) (v : V) d :
  k ≠ k' → dict_get k (dict_set k' v d) = dict_get k d.
Proof.
  intros Hne. induction d as [|[k0 v0] d IH]; simpl.
  - by rewrite (proj2 (String.eqb_neq _ _) Hne).
  - destruct (String.eqb k' k0) eqn:Hk; simpl.
    + apply String.eqb_eq in Hk. subst k0.
      by rewrite (proj2 (String.eqb_neq _ _) Hne).
    + by rewrite IH.
Qed.



Section FullValue.
Context {World : Type} `{Api World}.

Lemma get_holdings_to_sell_for_tp_sl_value balance_data technicals
    (s : State World) :
  value (get_holdings_to_sell_for_tp_sl balance_data technicals s)
  = fold_left (rate_full (portfolio s) technicals)
              (get_current_positions balance_data) ([], []).
Proof.
  unfold get_holdings_to_sell_for_tp_sl. run.
  destruct (api_get_ticker (world s)) as [td w1]. run.
  match goal with |- context [for_each ?b _ _ _] => set (body := b) end.
  set (s1 := mkState w1 (portfolio s) (saved s)).
  assert (∀ l acc s', portfolio s' = portfolio s →
            value (for_each body acc l s')
            = fold_left (rate_full (portfolio s) technicals) l acc) as Hloop.
  { induction l as [|[coin q] l IH]; intros acc s' Hp; [done|].
    rewrite for_each_cons. unfold value at 1. simpl.
    assert (portfolio (final (body acc (coin, q) s')) = portfolio s
            ∧ value (body acc (coin, q) s')
              = rate_full (portfolio s) technicals acc (coin, q)) as [Hp' ->].
    { destruct acc as [pts reasons].
      unfold body, rate_full, full_verdict, ratio_line. run. rewrite Hp.
      destruct (portfolio s !! coin) as [e|]; run; [|done].
      destruct (dict_get (usd_pair coin) technicals) as [t|]; run; [|done].
      destruct (Qgeb _ TP_THRESHOLD); [|destruct (Qleb _ SL_THRESHOLD)];
        run; done. }
    by apply IH. }
  specialize (Hloop (get_current_positions balance_data) ([], []) s1 eq_refl).
  destruct (for_each body _ _ s1) as [[v s2] t2]. exact Hloop.
Qed.

End FullValue.


(** ** What a purchase does to the ledger *)

Lemma retains_refl p : retains p p.
Proof. by intros c. Qed.

Lemma retains_trans p1 p2 p3 : retains p1 p2 → retains p2 p3 → retains p1 p3.
Proof. intros H12 H23 c Hc. by apply H23, H12. Qed.

Lemma sold_only_retains p p' : sold_only p p' → retains p p'.
Proof.
  intros Hso c [e He]. destruct (sold_only_Some p p' c e Hso He) as (e' & He' & _).
  by exists e'.
Qed.

Lemma enumerate_In {A : Type} (l : list A) i x :
  In (i, x) (enumerate l) ↔ nth_error l i = Some x.
Proof.
  unfold enumerate.
  assert (∀ k, In (i, x) (combine (seq k (length l)) l)
               ↔ (k <= i)%nat ∧ nth_error l (i - k) = Some x) as Hgen.
  { induction l as [|y l IH]; intros k; simpl.
    - split; [done|]. intros [_ Hn]. by destruct (i - k)%nat.
    - rewrite IH. split.
      + intros [Heq|[Hle Hn]].
        * simplify_eq. split; [lia|]. by rewrite Nat.sub_diag.
        * split; [lia|]. replace (i - k)%nat with (S (i - S k)) by lia. done.
      + intros [Hle Hn]. destruct (decide (i = k)) as [->|Hne].
        * rewrite Nat.sub_diag in Hn. simpl in Hn. left. by simplify_eq.
        * right. split; [lia|].
          replace (i - k)%nat with (S (i - S k)) in Hn by lia. done. }
  rewrite Hgen, Nat.sub_0_r. intuition lia.
Qed.

Section Buys.
Context {World : Type} `{Api World}.
Variable PAIR_PRECISION : gmap string Z.

Lemma update_portfolio_on_buy_retains pair q price0 (s : State World) :
  retains (portfolio s)
          (portfolio (final (update_portfolio_on_buy pair q price0 s))).
Proof.
  unfold update_portfolio_on_buy. run. intros c Hc.
  by apply ledger_on_buy_is_Some.
Qed.

Lemma buy_candidate_facts n cash u candidate (s : State World) :
  let r := buy_candidate PAIR_PRECISION n cash u candidate s in
  requests_of (trace r) = buy_request PAIR_PRECISION n cash candidate
  ∧ retains (portfolio s) (portfolio (final r)).
Proof.
  unfold buy_candidate, buy_request.
  destruct candidate as [i [pair data]]. simpl.
  destruct (Qltb (allocation n cash i) 10); run;
    [split; [done | apply retains_refl]|].
  destruct (Qleb (price data) 0); run;
    [split; [done | apply retains_refl]|].
  destruct (PAIR_PRECISION !! pair) as [precision|]; run;
    [|split; [done | apply retains_refl]].
  destruct (Qgtb (truncate_quantity _ precision) 0); run;
    [|split; [done | apply retains_refl]].
  destruct (api_place_order _ _ _ _) as [[d|err] w]; run;
    [|split; [done | apply retains_refl]].
  destruct (Qgtb (get_or 0 (FilledQuantity d)) 0); run;
    [|split; [done | apply retains_refl]].
  pose proof (update_portfolio_on_buy_retains pair
                (get_or 0 (FilledQuantity d)) (price data)
                (mkState w (portfolio s) (saved s))) as Hret.
  destruct (update_portfolio_on_buy _ _ _ _) as [[v s1] t1] eqn:Hrun.
  assert (orders_of t1 = []) as Ht1.
  { unfold update_portfolio_on_buy in Hrun. revert Hrun. run.
    intros Hrun. by simplify_eq. }
  unfold requests_of. simpl. rewrite Ht1. split; [done|]. exact Hret.
Qed.

Lemma execute_buys_facts available_cash ranked_pairs positions technicals
    (s : State World) :
  let r := execute_buys PAIR_PRECISION available_cash ranked_pairs
                        positions technicals s in
  let buy_signals := strong_buy_signals ranked_pairs in
  let cash :=
    cash_to_invest_of PAIR_PRECISION available_cash positions technicals s in
  requests_of (trace r)
  = match buy_signals with
    | [] => []
    | _ =>
        flat_map (weak_request PAIR_PRECISION technicals) positions
        ++ (if Qleb cash 10 then []
            else flat_map (buy_request PAIR_PRECISION (length buy_signals) cash)
                          (enumerate buy_signals))
    end
  ∧ retains (portfolio s) (portfolio (final r)).
Proof.
  unfold execute_buys, cash_to_invest_of. run.
  destruct (strong_buy_signals ranked_pairs) as [|c0 rest] eqn:Hsig; run.
  { split; [done | apply retains_refl]. }
  destruct (execute_weak_sell_rebalancing_sells PAIR_PRECISION positions
              technicals s) as (Hreq & Hso & _).
  destruct (execute_weak_sell_rebalancing _ _ _ s) as [[v s1] t1].
  cbn [value final trace fst snd] in *.
  destruct (Qleb (available_cash + v - RESERVE_CASH) 10) eqn:Hcash; run.
  { split; [|by apply sold_only_retains].
    unfold requests_of in *.
    repeat (progress (rewrite ?orders_of_app, ?map_app; simpl)).
    by rewrite Hreq, ?Hcash. }
  pose proof (for_each_proj requests_of (fun _ => True)
                (buy_candidate PAIR_PRECISION (S (length rest))
                               (available_cash + v - RESERVE_CASH)%Q)
                (buy_request PAIR_PRECISION (S (length rest))
                             (available_cash + v - RESERVE_CASH)%Q)
                (enumerate (c0 :: rest)) eq_refl requests_of_app)
    as Hloop.
  pose proof (for_each_inv (fun _ _ p => retains (portfolio s) p)
                (buy_candidate PAIR_PRECISION (S (length rest))
                               (available_cash + v - RESERVE_CASH)%Q)
                (enumerate (c0 :: rest))) as Hkeep.
  specialize (Hloop) with (acc := tt) (s := s1).
  specialize (Hkeep) with (acc := tt) (s := s1) (t0 := []).
  destruct (for_each _ tt (enumerate (c0 :: rest)) s1) as [[v2 s2] t2].
  cbn [value final trace fst snd] in *. split.
  - destruct Hloop as [_ Hloop]; [|done|].
    { intros acc x s' _ _. split; [done|]. apply buy_candidate_facts. }
    unfold requests_of in *.
    repeat (progress (rewrite ?orders_of_app, ?map_app;
                      cbn [orders_of flat_map map app])).
    by rewrite Hreq, Hloop, ?Hcash.
  - apply Hkeep; [|by apply sold_only_retains].
    intros acc x s' _ _ Hret. eapply retains_trans; [exact Hret|].
    apply buy_candidate_facts.
Qed.
End Buys.

(** ** One full cycle, phase by phase *)

Section Cycle.
Context {World : Type} `{Api World}.
Variable PAIR_PRECISION : gmap string Z.

Lemma trading_cycle_idle (s : State World) :
  cycle_inputs s = None →
  orders_of (trace (trading_cycle PAIR_PRECISION s)) = []
  ∧ portfolio (final (trading_cycle PAIR_PRECISION s)) = portfolio s.
Proof.
  unfold cycle_inputs, trading_cycle. run.
  destruct (api_get_balance (world s)) as [[b|] w1]; run; [|done].
  destruct (api_get_all_technicals TRADING_PAIRS w1) as [[|x0 technicals] w2];
    run; done.
Qed.

Lemma trading_cycle_phases (s : State World) b technicals s1 :
  cycle_inputs s = Some (b, technicals, s1) →
  let positions := get_current_positions (Some b) in
  let r1 := get_holdings_to_sell_for_tp_sl (Some b) technicals s1 in
  let r2 := execute_tp_sl_sells PAIR_PRECISION (value r1).1 (value r1).2
                                (final r1) in
  let r3 := execute_sells PAIR_PRECISION positions technicals (final r2) in
  let r4 := execute_buys PAIR_PRECISION
              (usd_free b + value r2 + value r3)%Q
              (rank_pairs_by_technicals technicals) positions technicals
              (final r3) in
  portfolio (final (trading_cycle PAIR_PRECISION s)) = portfolio (final r4)
  ∧ ∃ tail,
      orders_of tail = []
      ∧ trace (trading_cycle PAIR_PRECISION s)
        = [Logged (LogText "FULL TRADING CYCLE");
           Logged (LogText "Starting cash balance");
           Logged (LogText "Current Positions")]
          ++ trace r1 ++ trace r2
          ++ [Logged (LogText "TOP 10 TECHNICAL SIGNALS")] ++ trace r3
          ++ [Logged (LogText "Total cash available for buys")] ++ trace r4
          ++ tail.
Proof.
  unfold cycle_inputs, trading_cycle, usd_free. run.
  destruct (api_get_balance (world s)) as [[b'|] w1]; run; [|done].
  destruct (api_get_all_technicals TRADING_PAIRS w1) as [[|x0 rest] w2];
    [done|].
  intros Heq. simplify_eq. run.
  destruct (get_holdings_to_sell_for_tp_sl _ _ _) as [[[pts reasons] s2] t1].
  run.
  destruct (execute_tp_sl_sells _ _ _ _) as [[v2 s3] t2]. run.
  destruct (execute_sells _ _ _ _) as [[v3 s4] t3]. run.
  destruct (execute_buys _ _ _ _ _ _) as [[v4 s5] t4]. run.
  destruct (api_get_balance (world s5)) as [[b2|] w3]; run.
  - split; [done|].
    exists [Logged (LogText "Cycle Complete"); Logged (LogText "======")].
    split; reflexivity.
  - split; [done|]. exists [Logged (LogText "======")].
    split; reflexivity.
Qed.

Lemma cycle_inputs_portfolio (s : State World) b technicals s1 :
  cycle_inputs s = Some (b, technicals, s1) → portfolio s1 = portfolio s.
Proof.
  unfold cycle_inputs.
  destruct (api_get_balance (world s)) as [[b'|] w1]; [|done].
  destruct (api_get_all_technicals TRADING_PAIRS w1) as [[|x0 rest] w2];
    [done|].
  intros Heq. by simplify_eq.
Qed.

Lemma trading_cycle_retains (s : State World) :
  retains (portfolio s) (portfolio (final (trading_cycle PAIR_PRECISION s))).
Proof.
  destruct (cycle_inputs s) as [[[b technicals] s1]|] eqn:Hin.
  - destruct (trading_cycle_phases s b technicals s1 Hin) as [-> _].
    rewrite <- (cycle_inputs_portfolio s b technicals s1 Hin).
    destruct (get_holdings_to_sell_for_tp_sl_facts (Some b) technicals s1)
      as (_ & _ & Hp1 & _).
    rewrite <- Hp1.
    eapply retains_trans;
      [apply sold_only_retains, execute_tp_sl_sells_sells|].
    eapply retains_trans;
      [apply sold_only_retains, execute_sells_sells|].
    apply execute_buys_facts.
  - destruct (trading_cycle_idle s Hin) as [_ ->]. apply retains_refl.
Qed.

(** An iteration of [main] when the full cycle is due. *)
Lemma main_iteration_due (l : Loop) (s : State World) :
  (FULL_TRADING_CYCLE_INTERVAL <= time_since_full_cycle l)%Z →
  let r1 := trading_cycle PAIR_PRECISION s in
  let r2 := quick_tp_sl_check_and_sell PAIR_PRECISION (final r1) in
  main_iteration PAIR_PRECISION l s
  = (mkLoop (quick_check_count l + 1) (full_cycle_count l + 1)
            (0 + QUICK_TP_SL_CHECK_INTERVAL),
     final r2,
     [Logged (LogText "FULL TRADING CYCLE #")] ++ trace r1
     ++ [Logged (LogText "QUICK TP/SL CHECK #")] ++ trace r2
     ++ [Logged (LogText "Waiting")]).
Proof.
  intros Hdue. unfold main_iteration.
  rewrite (proj2 (Z.leb_le _ _) Hdue). run.
  destruct (trading_cycle PAIR_PRECISION s) as [[v1 s1] t1]. run.
  destruct (quick_tp_sl_check_and_sell PAIR_PRECISION s1) as [[v2 s2] t2].
  run. simpl. by rewrite <- !app_assoc.
Qed.

(** An iteration of [main] when it is not. *)
Lemma main_iteration_not_due (l : Loop) (s : State World) :
  (time_since_full_cycle l < FULL_TRADING_CYCLE_INTERVAL)%Z →
  let r2 := quick_tp_sl_check_and_sell PAIR_PRECISION s in
  main_iteration PAIR_PRECISION l s
  = (mkLoop (quick_check_count l + 1) (full_cycle_count l)
            (time_since_full_cycle l + QUICK_TP_SL_CHECK_INTERVAL),
     final r2,
     [Logged (LogText "QUICK TP/SL CHECK #")] ++ trace r2
     ++ [Logged (LogText "Waiting")]).
Proof.
  intros Hdue. unfold main_iteration.
  rewrite (proj2 (Z.leb_gt _ _) Hdue). run.
  destruct (quick_tp_sl_check_and_sell PAIR_PRECISION s) as [[v2 s2] t2].
  run. done.
Qed.

Lemma main_iteration_retains (l : Loop) (s : State World) :
  retains (portfolio s)
          (portfolio (final (main_iteration PAIR_PRECISION l s))).
Proof.
  destruct (Z_le_gt_dec FULL_TRADING_CYCLE_INTERVAL (time_since_full_cycle l))
    as [Hdue|Hnot].
  - rewrite main_iteration_due by done. unfold final at 1. simpl.
    eapply retains_trans; [apply trading_cycle_retains|].
    apply sold_only_retains, quick_tp_sl_check_and_sell_facts.
  - rewrite main_iteration_not_due by lia. unfold final at 1. simpl.
    apply sold_only_retains, quick_tp_sl_check_and_sell_facts.
Qed.

Lemma main_loop_retains (n : nat) (l : Loop) (s : State World) :
  retains (portfolio s) (portfolio (final (main_loop PAIR_PRECISION n l s))).
Proof.
  revert l s. induction n as [|n IH]; intros l s.
  - apply retains_refl.
  - simpl. unfold mbind, M_bind. rewrite bind_run. unfold final at 1. simpl.
    eapply retains_trans; [apply main_iteration_retains | apply IH].
Qed.
End Cycle.

(** * The claims *)

Lemma last_price_empty : last_price ∅ = 0%Q.
Proof. reflexivity. Qed.


Lemma verdict_in_loop (f : string → LogMsg) (positions : list (string * Q))
    coin q m :
  (∀ c, line_coin (f c) = Some c) →
  In (coin, q) positions → line_coin m = Some coin →
  In m (flat_map (fun x : string * Q => [f x.1]) positions) ↔ f coin = m.
Proof.
  intros Hcoin Hin Hm. rewrite in_flat_map. split.
  - intros ([c q'] & _ & [Heq|[]]). simpl in Heq.
    assert (c = coin) as ->; [|done].
    pose proof (Hcoin c) as Hc. rewrite Heq, Hm in Hc. by simplify_eq.
  - intros Heq. exists (coin, q). split; [done|]. by left.
Qed.

Lemma strong_request_In P technicals coin q o :
  In o (strong_request P technicals (coin, q))
  ↔ ∃ t precision,
      dict_get (usd_pair coin) technicals = Some t
      ∧ signal t = SELL ∧ (STRONG_SELL_THRESHOLD <= sell t)%Z
      ∧ P !! usd_pair coin = Some precision
      ∧ (0 < truncate_quantity q precision)%Q
      ∧ o = mkOrder (usd_pair coin) SideSell (truncate_quantity q precision).
Proof.
  unfold strong_request. simpl.
  destruct (dict_get (usd_pair coin) technicals) as [t|];
    [|split; [done | by intros (? & ? & ? & _)]].
  destruct (recommendation_eqb (signal t) SELL) eqn:Hsig; simpl.
  - apply recommendation_eqb_eq in Hsig.
    destruct (sell t <? STRONG_SELL_THRESHOLD)%Z eqn:Hlt.
    + apply Z.ltb_lt in Hlt. split; [done|].
      intros (t' & ? & Ht & _ & Hle & _). simplify_eq. lia.
    + apply Z.ltb_ge in Hlt. rewrite sell_request_In. split.
      * intros (precision & ? & ? & ?). by exists t, precision.
      * intros (t' & precision & Ht & _ & _ & ? & ? & ?). by exists precision.
  - split; [done|]. intros (t' & ? & Ht & Hs & _). simplify_eq.
    apply recommendation_eqb_eq in Hs. congruence.
Qed.

Lemma weak_request_In P technicals coin q o :
  In o (weak_request P technicals (coin, q))
  ↔ ∃ t precision,
      dict_get (usd_pair coin) technicals = Some t
      ∧ (WEAK_SELL_THRESHOLD <= sell t)%Z
      ∧ P !! usd_pair coin = Some precision
      ∧ (0 < truncate_quantity q precision)%Q
      ∧ o = mkOrder (usd_pair coin) SideSell (truncate_quantity q precision).
Proof.
  unfold weak_request. simpl.
  destruct (dict_get (usd_pair coin) technicals) as [t|];
    [|split; [done | by intros (? & ? & ? & _)]].
  destruct (sell t <? WEAK_SELL_THRESHOLD)%Z eqn:Hlt.
  - apply Z.ltb_lt in Hlt. split; [done|].
    intros (t' & ? & Ht & Hle & _). simplify_eq. lia.
  - apply Z.ltb_ge in Hlt. rewrite sell_request_In. split.
    + intros (precision & ? & ? & ?). by exists t, precision.
    + intros (t' & precision & Ht & _ & ? & ? & ?). by exists precision.
Qed.

Lemma buy_request_In P n cash i pair data o :
  In o (buy_request P n cash (i, (pair, data)))
  ↔ ∃ precision,
      (10 <= allocation n cash i)%Q ∧ (0 < price data)%Q
      ∧ P !! pair = Some precision
      ∧ (0 < truncate_quantity (allocation n cash i / price data) precision)%Q
      ∧ o = mkOrder pair SideBuy
              (truncate_quantity (allocation n cash i / price data) precision).
Proof.
  unfold buy_request. simpl.
  destruct (Qltb (allocation n cash i) 10) eqn:Halloc.
  { apply Qltb_true in Halloc. split; [done|]. intros (? & Hle & _).
    exact (Qlt_irrefl _ (Qlt_le_trans _ _ _ Halloc Hle)). }
  apply Qltb_false in Halloc.
  destruct (Qleb (price data) 0) eqn:Hprice.
  { apply Qleb_true in Hprice. split; [done|]. intros (? & _ & Hlt & _).
    exact (Qlt_irrefl _ (Qlt_le_trans _ _ _ Hlt Hprice)). }
  apply Qleb_false in Hprice.
  destruct (P !! pair) as [precision|];
    [|split; [done | by intros (? & _ & _ & ? & _)]].
  destruct (Qgtb (truncate_quantity _ precision) 0) eqn:Hpos; simpl.
  - apply Qgtb_true in Hpos. split.
    + intros [<-|[]]. by exists precision.
    + intros (precision' & _ & _ & Heq & _ & ->). left. by simplify_eq.
  - apply Qgtb_false in Hpos. split; [done|].
    intros (precision' & _ & _ & Heq & Hlt & _). simplify_eq.
    exact (Qlt_irrefl _ (Qlt_le_trans _ _ _ Hlt Hpos)).
Qed.

Section Claims.
Context {World : Type} `{Api World}.
Variable PAIR_PRECISION : gmap string Z.



(** C2. A buy fill merged into an existing ledger entry leaves the
    volume-weighted average of the old cost and the fill price as cost
    basis, and the sum of the quantities as quantity, whenever that sum is
    positive; an entry of cost 100 and quantity 0 merged with a fill of 2
    at 50 ends with cost 50 and quantity 2. *)
Theorem C2_weighted_average_cost :
  (∀ (s : State World) pair fill_qty fill_price e,
     portfolio s !! split_coin pair = Some e →
     (0 < quantity e + fill_qty)%Q →
     ∃ e',
       portfolio (final (update_portfolio_on_buy pair fill_qty fill_price s))
       !! split_coin pair = Some e'
       ∧ buy_price e'
         = ((buy_price e * quantity e + fill_price * fill_qty)
            / (quantity e + fill_qty))%Q
       ∧ quantity e' = (quantity e + fill_qty)%Q)
  ∧ (∀ (s : State World) pair stamp,
       portfolio s !! split_coin pair = Some (mkEntry 100 0 stamp) →
       ∃ e',
         portfolio (final (update_portfolio_on_buy pair 2 50 s))
         !! split_coin pair = Some e'
         ∧ (buy_price e' == 50)%Q ∧ (quantity e' == 2)%Q).
Proof.
  assert (∀ (s : State World) pair fill_qty fill_price e,
     portfolio s !! split_coin pair = Some e →
     (0 < quantity e + fill_qty)%Q →
     ∃ e',
       portfolio (final (update_portfolio_on_buy pair fill_qty fill_price s))
       !! split_coin pair = Some e'
       ∧ buy_price e'
         = ((buy_price e * quantity e + fill_price * fill_qty)
            / (quantity e + fill_qty))%Q
       ∧ quantity e' = (quantity e + fill_qty)%Q) as Hgen.
  { intros s pair fill_qty fill_price e Hp Hpos.
    unfold update_portfolio_on_buy. run.
    rewrite (ledger_on_buy_lookup _ _ _ _ _ e Hp Hpos). eauto. }
  split; [exact Hgen|].
  intros s pair stamp Hp.
  destruct (Hgen s pair 2%Q 50%Q _ Hp) as (e' & He' & Hcost & Hqty);
    [reflexivity|].
  exists e'. split; [done|]. rewrite Hcost, Hqty. simpl. split; reflexivity.
Qed.

(** C8. An instrument is a strong-buy candidate of the buy phase exactly
    when its signal is BUY and it has at least 13 buy votes; the bound is
    [STRONG_SELL_THRESHOLD], the constant the strong-sell phase tests the
    sell votes against. *)
Theorem C8_strong_buy_selection :
  (∀ technicals pd,
     In pd (strong_buy_signals (rank_pairs_by_technicals technicals))
     ↔ In pd technicals ∧ signal pd.2 = BUY ∧ (13 <= buy pd.2)%Z)
  ∧ (∀ positions technicals (s : State World) o,
       In o (requests_of (trace (execute_sells PAIR_PRECISION positions
                                               technicals s))) →
       ∃ coin q t,
         In (coin, q) positions
         ∧ dict_get (usd_pair coin) technicals = Some t
         ∧ signal t = SELL ∧ (STRONG_SELL_THRESHOLD <= sell t)%Z)
  ∧ STRONG_SELL_THRESHOLD = 13%Z.
Proof.
  split; [|split; [|done]].
  - intros technicals pd.
    by rewrite strong_buy_signals_In, rank_pairs_by_technicals_In.
  - intros positions technicals s o.
    destruct (execute_sells_sells PAIR_PRECISION positions technicals s)
      as (-> & _).
    rewrite in_flat_map. intros ([coin q] & Hin & Ho).
    apply strong_request_In in Ho as (t & precision & Ht & Hsig & Hle & _).
    by exists coin, q, t.
Qed.
End Claims.


Section Planner.
Context {World : Type} `{Api World}.
Variable PAIR_PRECISION : gmap string Z.



Lemma execute_buys_with_candidate available_cash ranked_pairs positions
    technicals (s : State World) :
  strong_buy_signals ranked_pairs ≠ [] →
  ∃ rest,
    trace (execute_buys PAIR_PRECISION available_cash ranked_pairs
                        positions technicals s)
    = [Logged (LogText "EXECUTING BUYS");
       Logged (LogText "Found STRONG BUY signals")]
      ++ trace (execute_weak_sell_rebalancing PAIR_PRECISION positions
                                              technicals s)
      ++ rest.
Proof.
  intros Hsig. unfold execute_buys.
  destruct (strong_buy_signals ranked_pairs) as [|c0 rest]; [done|]. run.
  destruct (execute_weak_sell_rebalancing _ _ _ s) as [[v s1] t1]. run.
  destruct (Qleb _ 10); run; [by eexists|].
  destruct (for_each _ _ _ _) as [[v2 s2] t2]. run. by eexists.
Qed.

End Planner.


Lemma get_current_positions_In balance_data coin q :
  In (coin, q) (get_current_positions balance_data)
  ↔ ∃ b amounts,
      balance_data = Some b ∧ Success b = true
      ∧ In (coin, amounts) (SpotWallet b) ∧ coin ≠ "USD"
      ∧ q = (get_or 0 (Free amounts) + get_or 0 (Lock amounts))%Q
      ∧ (DUST < q)%Q.
Proof.
  unfold get_current_positions.
  destruct balance_data as [b|];
    [|split; [done | by intros (? & ? & ? & _)]].
  destruct (Success b) eqn:Hok;
    [|split; [done | intros (? & ? & ? & ? & _); congruence]].
  rewrite in_flat_map. split.
  - intros ([c amounts] & Hin & Hx).
    destruct (negb (String.eqb c "USD")) eqn:Husd; [|done].
    destruct (Qgtb _ DUST) eqn:Hdust; [|done]. simpl in Hx.
    destruct Hx as [Heq|[]]. simplify_eq.
    exists b, amounts. apply Qgtb_true in Hdust.
    apply negb_true_iff, String.eqb_neq in Husd. done.
  - intros (b' & amounts & Hb & _ & Hin & Husd & -> & Hdust). simplify_eq.
    exists (coin, amounts). split; [done|].
    rewrite (proj2 (String.eqb_neq _ _) Husd), (proj2 (Qgtb_true _ _) Hdust).
    by left.
Qed.

(** An asset at or below the floor, or the cash currency, counts for the
    enumeration as if it were not in the wallet. *)
Lemma get_current_positions_dust ok w1 w2 coin amounts :
  coin = "USD"
  ∨ (get_or 0 (Free amounts) + get_or 0 (Lock amounts) <= DUST)%Q →
  get_current_positions (Some (mkBalance ok (w1 ++ (coin, amounts) :: w2)))
  = get_current_positions (Some (mkBalance ok (w1 ++ w2))).
Proof.
  intros Hdust. unfold get_current_positions. simpl.
  destruct ok; [|done]. rewrite !flat_map_app. f_equal. simpl.
  destruct Hdust as [->|Hle].
  - done.
  - rewrite (proj2 (Qgtb_false _ _) Hle). by rewrite andb_false_r.
Qed.

Lemma get_total_portfolio_value_dust ok w1 w2 coin amounts td :
  coin = "USD"
  ∨ (get_or 0 (Free amounts) + get_or 0 (Lock amounts) <= DUST)%Q →
  get_total_portfolio_value
    (Some (mkBalance ok (w1 ++ (coin, amounts) :: w2))) td
  = get_total_portfolio_value (Some (mkBalance ok (w1 ++ w2))) td.
Proof.
  intros Hdust. unfold get_total_portfolio_value.
  by rewrite (get_current_positions_dust ok w1 w2 coin amounts Hdust).
Qed.

Section Orchestrator.
Context {World : Type} `{Api World}.
Variable PAIR_PRECISION : gmap string Z.

Lemma quick_inputs_In (s : State World) x :
  In x (quick_inputs s).1 →
  In x (get_current_positions (api_get_balance (world s)).1)
  ∧ (quick_inputs s).2 = (api_get_ticker (api_get_balance (world s)).2).1.
Proof.
  unfold quick_inputs.
  destruct (api_get_balance (world s)) as [[b|] w1]; cbn [fst snd];
    [|by intros []].
  destruct (get_current_positions (Some b)) as [|x0 rest] eqn:Hpos;
    [by intros []|].
  destruct (api_get_ticker w1) as [td w2]. cbn [fst snd].
  destruct (no_ticker td); cbn [fst snd]; [by intros []|done].
Qed.


Lemma liquidates_intro ρ (m : M World Q) :
  (∀ s, sold_only (portfolio s) (portfolio (final (m s)))
        ∧ (∀ t0, filled_are_zeroed ρ t0 (portfolio s) →
                 filled_are_zeroed ρ (t0 ++ trace (m s))
                                   (portfolio (final (m s))))) →
  liquidates ρ m.
Proof.
  intros Hm s. destruct (Hm s) as [Hso Hz]. split.
  - intros coin e He.
    destruct (sold_only_Some _ _ coin e Hso He) as (e' & ? & ? & _ & ?).
    by exists e'.
  - intros pair coin q d e' Hrho Hin He'.
    apply (Hz [] (fun _ _ _ _ _ _ (Hnil : In _ (orders_of [])) => match Hnil with end)
             pair coin q d e' Hrho); [|done].
    simpl. by apply orders_of_In.
Qed.

(** C7, as the code has it. No routine ever removes an entry from the
    portfolio: every key present before any number of iterations of [main]
    is present after them.  Each of the four routines that sell changes an
    entry only by setting its quantity to 0, and leaves the entry of every
    sale the venue filled, if there is one, with quantity 0.  The positions
    the quick check goes through are read off the balance the venue
    reports, whatever the ledger says, and it gives its verdict on every
    one of them. *)
Theorem C7_entries_zeroed_and_retained :
  (∀ n (l : Loop) (s : State World) coin,
     is_Some (portfolio s !! coin) →
     is_Some (portfolio (final (main_loop PAIR_PRECISION n l s)) !! coin))
  ∧ liquidates pair_of_coin (quick_tp_sl_check_and_sell PAIR_PRECISION)
  ∧ (∀ positions_to_sell sell_reasons,
       liquidates coin_of_pair
         (execute_tp_sl_sells PAIR_PRECISION positions_to_sell sell_reasons))
  ∧ (∀ positions technicals,
       liquidates pair_of_coin
         (execute_sells PAIR_PRECISION positions technicals))
  ∧ (∀ positions technicals,
       liquidates pair_of_coin
         (execute_weak_sell_rebalancing PAIR_PRECISION positions technicals))
  ∧ (∀ (s : State World) ledger,
       (quick_inputs (mkState (world s) ledger (saved s))).1
       = (quick_inputs s).1)
  ∧ (∀ (s : State World) coin q,
       In (coin, q) (quick_inputs s).1 →
       ∃ m, line_coin m = Some coin ∧ is_verdict m = true
            ∧ In (Logged m)
                 (trace (quick_tp_sl_check_and_sell PAIR_PRECISION s))).
Proof.
  split; [|split; [|split; [|split; [|split; [|split]]]]].
  - intros n l s coin. apply main_loop_retains.
  - apply liquidates_intro. intros s.
    destruct (quick_tp_sl_check_and_sell_facts PAIR_PRECISION s)
      as (_ & _ & Hso & Hz). done.
  - intros positions_to_sell sell_reasons. apply liquidates_intro. intros s.
    destruct (execute_tp_sl_sells_sells PAIR_PRECISION positions_to_sell
                sell_reasons s) as (_ & Hso & Hz). done.
  - intros positions technicals. apply liquidates_intro. intros s.
    destruct (execute_sells_sells PAIR_PRECISION positions technicals s)
      as (_ & Hso & Hz). done.
  - intros positions technicals. apply liquidates_intro. intros s.
    destruct (execute_weak_sell_rebalancing_sells PAIR_PRECISION positions
                technicals s) as (_ & Hso & Hz). done.
  - done.
  - intros s coin q Hin.
    exists (quick_verdict (portfolio s) (quick_inputs s).2 coin).
    split; [apply quick_verdict_coin|].
    split; [apply quick_verdict_is_verdict|].
    apply verdicts_of_In; [apply quick_verdict_is_verdict|].
    destruct (quick_tp_sl_check_and_sell_facts PAIR_PRECISION s) as (-> & _).
    apply in_flat_map. exists (coin, q). split; [done|]. by left.
Qed.

(** C5, as the code has it. The strong-sell phase and the funding phase
    go through the positions enumerated when the cycle started: each
    submits a sell order for every one of them that meets its own
    condition and has a precision rule and a positive truncated quantity,
    from whatever state the earlier phases left, and so also for a
    position an earlier phase has sold. *)
Theorem C5_sell_phases_use_the_snapshot :
  (∀ positions technicals (s : State World) o,
     In o (requests_of (trace (execute_sells PAIR_PRECISION positions
                                             technicals s)))
     ↔ ∃ coin q t precision,
         In (coin, q) positions
         ∧ dict_get (usd_pair coin) technicals = Some t
         ∧ signal t = SELL ∧ (STRONG_SELL_THRESHOLD <= sell t)%Z
         ∧ PAIR_PRECISION !! usd_pair coin = Some precision
         ∧ (0 < truncate_quantity q precision)%Q
         ∧ o = mkOrder (usd_pair coin) SideSell
                 (truncate_quantity q precision))
  ∧ (∀ positions technicals (s : State World) o,
       In o (requests_of
               (trace (execute_weak_sell_rebalancing PAIR_PRECISION positions
                                                     technicals s)))
       ↔ ∃ coin q t precision,
           In (coin, q) positions
           ∧ dict_get (usd_pair coin) technicals = Some t
           ∧ (WEAK_SELL_THRESHOLD <= sell t)%Z
           ∧ PAIR_PRECISION !! usd_pair coin = Some precision
           ∧ (0 < truncate_quantity q precision)%Q
           ∧ o = mkOrder (usd_pair coin) SideSell
                   (truncate_quantity q precision))
  ∧ (∀ (s : State World) b technicals s1,
       cycle_inputs s = Some (b, technicals, s1) →
       let snapshot := get_current_positions (Some b) in
       let r1 := get_holdings_to_sell_for_tp_sl (Some b) technicals s1 in
       let r2 := execute_tp_sl_sells PAIR_PRECISION (value r1).1 (value r1).2
                                     (final r1) in
       let r3 := execute_sells PAIR_PRECISION snapshot technicals
                               (final r2) in
       let r4 := execute_weak_sell_rebalancing PAIR_PRECISION snapshot
                                               technicals (final r3) in
       (∃ before between after,
          trace (trading_cycle PAIR_PRECISION s)
          = before ++ trace r2 ++ between ++ trace r3 ++ after)
       ∧ (strong_buy_signals (rank_pairs_by_technicals technicals) ≠ [] →
          ∃ before between after,
            trace (trading_cycle PAIR_PRECISION s)
            = before ++ trace r3 ++ between ++ trace r4 ++ after)).
Proof.
  split; [|split].
  - intros positions technicals s o.
    destruct (execute_sells_sells PAIR_PRECISION positions technicals s)
      as (-> & _).
    rewrite in_flat_map. split.
    + intros ([coin q] & Hin & Ho).
      apply strong_request_In in Ho as (t & precision & Ho).
      by exists coin, q, t, precision.
    + intros (coin & q & t & precision & Hin & Ho). exists (coin, q).
      split; [done|]. apply strong_request_In. by exists t, precision.
  - intros positions technicals s o.
    destruct (execute_weak_sell_rebalancing_sells PAIR_PRECISION positions
                technicals s) as (-> & _).
    rewrite in_flat_map. split.
    + intros ([coin q] & Hin & Ho).
      apply weak_request_In in Ho as (t & precision & Ho).
      by exists coin, q, t, precision.
    + intros (coin & q & t & precision & Hin & Ho). exists (coin, q).
      split; [done|]. apply weak_request_In. by exists t, precision.
  - intros s b technicals s1 Hin snapshot r1 r2 r3 r4.
    destruct (trading_cycle_phases PAIR_PRECISION s b technicals s1 Hin)
      as (_ & tail & _ & Htrace).
    fold snapshot r1 r2 r3 in Htrace.
    match type of Htrace with
    | context [trace (execute_buys ?P ?c ?r ?p ?t ?s4)] =>
        set (r5 := execute_buys P c r p t s4) in *;
        pose proof (execute_buys_with_candidate P c r p t s4) as Hbuys
    end.
    fold r4 r5 in Hbuys.
    split.
    + exists ([Logged (LogText "FULL TRADING CYCLE");
               Logged (LogText "Starting cash balance");
               Logged (LogText "Current Positions")] ++ trace r1),
             [Logged (LogText "TOP 10 TECHNICAL SIGNALS")],
             ([Logged (LogText "Total cash available for buys")]
              ++ trace r5 ++ tail).
      rewrite Htrace. by rewrite <- !app_assoc.
    + intros Hsig. destruct (Hbuys Hsig) as [rest Hr5].
      exists ([Logged (LogText "FULL TRADING CYCLE");
               Logged (LogText "Starting cash balance");
               Logged (LogText "Current Positions")] ++ trace r1 ++ trace r2
              ++ [Logged (LogText "TOP 10 TECHNICAL SIGNALS")]),
             [Logged (LogText "Total cash available for buys");
              Logged (LogText "EXECUTING BUYS");
              Logged (LogText "Found STRONG BUY signals")],
             (rest ++ tail).
      rewrite Htrace, Hr5. by rewrite <- !app_assoc.
Qed.

Lemma cycle_inputs_balance (s : State World) b technicals s1 :
  cycle_inputs s = Some (b, technicals, s1) →
  (api_get_balance (world s)).1 = Some b.
Proof.
  unfold cycle_inputs.
  destruct (api_get_balance (world s)) as [[b'|] w1]; [|done].
  destruct (api_get_all_technicals TRADING_PAIRS w1) as [[|x0 rest] w2];
    [done|].
  intros Heq. by simplify_eq.
Qed.

Lemma positions_above_dust balance_data coin q :
  In (coin, q) (get_current_positions balance_data) → (DUST < q)%Q.
Proof.
  intros Hin.
  by apply get_current_positions_In in Hin
    as (? & ? & _ & _ & _ & _ & _ & ?).
Qed.

(** C10. The enumeration of positions leaves out USD and every asset
    whose free and locked balance together are at most [1e-8], so that
    every position it yields is above that floor; an asset at or below it
    changes neither the enumeration nor the portfolio value; and every
    verdict of the two risk checks and every sell order of the quick
    check and of the full cycle is about an enumerated position. *)
Theorem C10_dust_is_invisible :
  (∀ balance_data coin q,
     In (coin, q) (get_current_positions balance_data)
     ↔ ∃ b amounts,
         balance_data = Some b ∧ Success b = true
         ∧ In (coin, amounts) (SpotWallet b) ∧ coin ≠ "USD"
         ∧ q = (get_or 0 (Free amounts) + get_or 0 (Lock amounts))%Q
         ∧ (DUST < q)%Q)
  ∧ (∀ ok w1 w2 coin amounts td,
       coin = "USD"
       ∨ (get_or 0 (Free amounts) + get_or 0 (Lock amounts) <= DUST)%Q →
       get_current_positions
         (Some (mkBalance ok (w1 ++ (coin, amounts) :: w2)))
       = get_current_positions (Some (mkBalance ok (w1 ++ w2)))
       ∧ get_total_portfolio_value
           (Some (mkBalance ok (w1 ++ (coin, amounts) :: w2))) td
         = get_total_portfolio_value (Some (mkBalance ok (w1 ++ w2))) td)
  ∧ (∀ (s : State World) m,
       In (Logged m) (trace (quick_tp_sl_check_and_sell PAIR_PRECISION s)) →
       is_verdict m = true →
       ∃ coin q,
         line_coin m = Some coin
         ∧ In (coin, q)
              (get_current_positions (api_get_balance (world s)).1)
         ∧ (DUST < q)%Q)
  ∧ (∀ (s : State World) balance_data technicals m,
       In (Logged m) (trace (get_holdings_to_sell_for_tp_sl balance_data
                                                            technicals s)) →
       is_verdict m = true →
       ∃ coin q,
         line_coin m = Some coin
         ∧ In (coin, q) (get_current_positions balance_data)
         ∧ (DUST < q)%Q)
  ∧ (∀ (s : State World) o,
       In o (requests_of
               (trace (quick_tp_sl_check_and_sell PAIR_PRECISION s))) →
       ∃ coin q precision,
         In (coin, q) (get_current_positions (api_get_balance (world s)).1)
         ∧ (DUST < q)%Q
         ∧ o = mkOrder (usd_pair coin) SideSell
                 (truncate_quantity q precision))
  ∧ (∀ (s : State World) o,
       In o (requests_of (trace (trading_cycle PAIR_PRECISION s))) →
       o_side o = SideSell →
       ∃ coin q precision,
         In (coin, q) (get_current_positions (api_get_balance (world s)).1)
         ∧ (DUST < q)%Q
         ∧ o = mkOrder (usd_pair coin) SideSell
                 (truncate_quantity q precision)).
Proof.
  split; [exact get_current_positions_In|].
  split; [|split; [|split; [|split]]].
  - intros ok w1 w2 coin amounts td Hdust. split.
    + by apply get_current_positions_dust.
    + by apply get_total_portfolio_value_dust.
  - intros s m Hin Hm. apply verdicts_of_In in Hin; [|done].
    destruct (quick_tp_sl_check_and_sell_facts PAIR_PRECISION s)
      as (Hv & _).
    rewrite Hv in Hin. apply in_flat_map in Hin as ([coin q] & Hpos & Hx).
    destruct Hx as [<-|[]]. apply quick_inputs_In in Hpos as [Hpos _].
    exists coin, q. split; [apply quick_verdict_coin|]. split; [done|].
    by eapply positions_above_dust.
  - intros s bd technicals m Hin Hm. apply verdicts_of_In in Hin; [|done].
    destruct (get_holdings_to_sell_for_tp_sl_facts bd technicals s)
      as (Hv & _).
    rewrite Hv in Hin. apply in_flat_map in Hin as ([coin q] & Hpos & Hx).
    destruct Hx as [<-|[]].
    exists coin, q. split; [apply full_verdict_coin|]. split; [done|].
    by eapply positions_above_dust.
  - intros s o Hin.
    destruct (quick_tp_sl_check_and_sell_facts PAIR_PRECISION s)
      as (_ & Hr & _).
    rewrite Hr in Hin. apply in_flat_map in Hin as ([coin q] & Hpos & Ho).
    apply quick_inputs_In in Hpos as [Hpos _].
    unfold quick_request in Ho. destruct (is_hit _); [|done].
    apply sell_request_In in Ho as (precision & _ & _ & ->).
    exists coin, q, precision. split; [done|]. split; [|done].
    by eapply positions_above_dust.
  - intros s o Hin Hside.
    destruct (cycle_inputs s) as [[[b technicals] s1]|] eqn:Hcyc.
    2: { destruct (trading_cycle_idle PAIR_PRECISION s Hcyc) as [Hnone _].
         unfold requests_of in Hin. by rewrite Hnone in Hin. }
    rewrite (cycle_inputs_balance s b technicals s1 Hcyc).
    destruct (trading_cycle_phases PAIR_PRECISION s b technicals s1 Hcyc)
      as (_ & tail & Htail & Htrace).
    rewrite Htrace in Hin. unfold requests_of in Hin.
    repeat (progress (rewrite ?orders_of_app, ?map_app in Hin;
                      cbn [orders_of flat_map map app] in Hin)).
    rewrite Htail, app_nil_r in Hin.
    destruct (get_holdings_to_sell_for_tp_sl_facts (Some b) technicals s1)
      as (_ & Hr1 & _ & Htargets).
    rewrite Hr1 in Hin. cbn [map app] in Hin.
    rewrite !in_app_iff in Hin. destruct Hin as [Hin|[Hin|Hin]].
    + match type of Hin with
      | In _ (map fst (orders_of (trace (execute_tp_sl_sells _ ?a ?r ?s2)))) =>
          destruct (execute_tp_sl_sells_sells PAIR_PRECISION a r s2)
            as (Hr2 & _)
      end.
      unfold requests_of in Hr2. rewrite Hr2 in Hin.
      apply in_flat_map in Hin as ([pair q] & Hpair & Ho).
      apply Htargets in Hpair as (coin & Hpos & -> & _).
      apply sell_request_In in Ho as (precision & _ & _ & ->).
      exists coin, q, precision. split; [done|]. split; [|done].
      by eapply positions_above_dust.
    + match type of Hin with
      | In _ (map fst (orders_of (trace (execute_sells _ ?p ?t ?s3)))) =>
          destruct (execute_sells_sells PAIR_PRECISION p t s3) as (Hr3 & _)
      end.
      unfold requests_of in Hr3. rewrite Hr3 in Hin.
      apply in_flat_map in Hin as ([coin q] & Hpos & Ho).
      apply strong_request_In in Ho as (t & precision & _ & _ & _ & _ & _ & ->).
      exists coin, q, precision. split; [done|]. split; [|done].
      by eapply positions_above_dust.
    + match type of Hin with
      | In _ (map fst (orders_of (trace (execute_buys _ ?c ?r ?p ?t ?s4)))) =>
          destruct (execute_buys_facts PAIR_PRECISION c r p t s4) as (Hr4 & _)
      end.
      unfold requests_of in Hr4. rewrite Hr4 in Hin.
      destruct (strong_buy_signals _) as [|c0 rest]; [done|].
      apply in_app_iff in Hin as [Hin|Hin].
      * apply in_flat_map in Hin as ([coin q] & Hpos & Ho).
        apply weak_request_In in Ho as (t & precision & _ & _ & _ & _ & ->).
        exists coin, q, precision. split; [done|]. split; [|done].
        by eapply positions_above_dust.
      * exfalso. destruct (Qleb _ 10); [done|].
        apply in_flat_map in Hin as ([i [pair data]] & _ & Ho).
        apply buy_request_In in Ho as (precision & _ & _ & _ & _ & ->).
        done.
Qed.
End Orchestrator.

(** * The claims on the paper exchange *)


Lemma C2_weighted_average_cost_witness :
  ∃ e',
    portfolio (final (update_portfolio_on_buy "BTC/USD" 2 50 stale_state))
    !! "BTC" = Some e'
    ∧ (buy_price e' == 50)%Q ∧ (quantity e' == 2)%Q.
Proof.
  assert (portfolio stale_state !! split_coin "BTC/USD"
          = Some (mkEntry 100 0 None)) as Hp by (vm_compute; reflexivity).
  destruct (proj1 (C2_weighted_average_cost (World:=Paper)) stale_state
              "BTC/USD" 2%Q 50%Q _ Hp eq_refl)
    as (e' & He' & Hcost & Hqty).
  exists e'. split; [exact He'|]. rewrite Hcost, Hqty. split; reflexivity.
Defined.


(** C5 as stated fails: the position the risk phase sold is sold again by
    the strong-sell phase and once more by the funding phase of the same
    cycle. *)
Lemma C5_sold_again_counterexample :
  sales_of (trace falling_risk_phase) = ["BTC/USD"]
  ∧ sales_of (trace falling_strong_sell_phase) = ["BTC/USD"]
  ∧ sales_of (trace falling_funding_phase) = ["BTC/USD"]
  ∧ sales_of (trace (trading_cycle demo_rules (falling_state false)))
    = ["BTC/USD"; "BTC/USD"; "BTC/USD"].
Proof. vm_compute. repeat split; reflexivity. Qed.

(** An exchange that checks the wallet gets the same three requests and
    rejects the second and the third. *)
Lemma strict_exchange_rejects_resale :
  map o_pair
      (requests_of (trace (trading_cycle demo_rules (falling_state true))))
  = ["BTC/USD"; "BTC/USD"; "BTC/USD"; "ETH/USD"]
  ∧ sales_of (trace (trading_cycle demo_rules (falling_state true)))
    = ["BTC/USD"].
Proof. vm_compute. split; reflexivity. Qed.

Lemma C5_sell_phases_use_the_snapshot_witness :
  (∃ before between after,
     trace (trading_cycle demo_rules (falling_state false))
     = before ++ trace falling_risk_phase ++ between
       ++ trace falling_strong_sell_phase ++ after)
  ∧ (∃ before between after,
       trace (trading_cycle demo_rules (falling_state false))
       = before ++ trace falling_strong_sell_phase ++ between
         ++ trace falling_funding_phase ++ after).
Proof.
  assert (cycle_inputs (falling_state false)
          = Some (falling_balance, falling_technicals, falling_state false))
    as Hin by (vm_compute; reflexivity).
  destruct (proj2 (proj2 (C5_sell_phases_use_the_snapshot (World:=Paper)
                            demo_rules))
              (falling_state false) _ _ _ Hin) as [Hstrong Hweak].
  split; [exact Hstrong|]. apply Hweak. vm_compute. discriminate.
Defined.


(** C7 as stated fails: after the take-profit sale the entry is kept with
    quantity 0 and nothing is bought, yet the next enumeration holds BTC,
    and the next quick check rates it again. *)
Lemma C7_zeroed_entry_enumerated_counterexample :
  sales_of (trace (quick_tp_sl_check_and_sell demo_rules residue_state))
  = ["BTC/USD"]
  ∧ map o_side (requests_of (trace (quick_tp_sl_check_and_sell demo_rules
                                                              residue_state)))
    = [SideSell]
  ∧ quantity <$> portfolio after_take_profit !! "BTC" = Some 0%Q
  ∧ map fst (get_current_positions
               (api_get_balance (world after_take_profit)).1) = ["BTC"]
  ∧ verdicts_of (trace (quick_tp_sl_check_and_sell demo_rules
                                                   after_take_profit))
    = [LogTpHit "BTC"].
Proof. vm_compute. repeat split; reflexivity. Qed.

Lemma C7_entries_zeroed_and_retained_witness :
  is_Some (portfolio (final (main_loop demo_rules 3 main_start residue_state))
           !! "BTC")
  ∧ ∀ e', portfolio after_take_profit !! "BTC" = Some e' → quantity e' = 0%Q.
Proof.
  split.
  - apply (proj1 (C7_entries_zeroed_and_retained (World:=Paper) demo_rules)).
    vm_compute. eauto.
  - intros e'.
    eapply (proj2 (proj1 (proj2 (C7_entries_zeroed_and_retained (World:=Paper)
                                   demo_rules)) residue_state)
              "BTC/USD" "BTC").
    + reflexivity.
    + vm_compute. repeat (first [left; reflexivity | right]).
Defined.

Lemma C8_strong_buy_selection_witness :
  In ("ETH/USD", mkTech 10 2 10 14 BUY 12)
     (strong_buy_signals (rank_pairs_by_technicals falling_technicals)).
Proof.
  apply (proj1 (C8_strong_buy_selection (World:=Paper) demo_rules)).
  vm_compute. split; [auto|]. split; [reflexivity | discriminate].
Defined.


Lemma C10_dust_is_invisible_witness :
  (DUST < 1 + 0)%Q
  ∧ ¬ In ("DOGE", ((1 # 100000000) + 0)%Q)
         (get_current_positions (Some dusty_balance)).
Proof.
  split.
  - destruct (proj1 (proj1 (C10_dust_is_invisible (World:=Paper) demo_rules)
                       (Some dusty_balance) "BTC" (1 + 0)%Q))
      as (b & amounts & _ & _ & _ & _ & _ & Hlt).
    + vm_compute. auto.
    + exact Hlt.
  - intros Hin.
    destruct (proj1 (proj1 (C10_dust_is_invisible (World:=Paper) demo_rules)
                       (Some dusty_balance) "DOGE" _) Hin)
      as (b & amounts & _ & _ & _ & _ & _ & Hlt).
    revert Hlt. vm_compute. discriminate.
Defined.

(** The quick check never rates a position that lacks a positive cost
    basis or a positive price: it logs that it skips it. *)
Lemma quick_check_skips_missing_data {World : Type} `{Api World}
    (PAIR_PRECISION : gmap string Z) (s : State World) coin q :
  In (coin, q) (quick_inputs s).1 →
  (∀ e md, portfolio s !! coin = Some e →
           ticker_dict (quick_inputs s).2 !! usd_pair coin = Some md →
           ¬ ((0 < buy_price e)%Q ∧ (0 < last_price md)%Q)) →
  let t := trace (quick_tp_sl_check_and_sell PAIR_PRECISION s) in
  ¬ In (Logged (LogSafe coin)) t
  ∧ ¬ In (Logged (LogTpHit coin)) t
  ∧ ¬ In (Logged (LogSlHit coin)) t
  ∧ (In (Logged (LogNoRecord coin)) t
     ∨ In (Logged (LogNoMarketData coin)) t
     ∨ In (Logged (LogInvalidPrice coin)) t).
Proof.
  intros Hin Hno t. subst t.
  destruct (quick_tp_sl_check_and_sell_facts PAIR_PRECISION s) as (Hv & _).
  rewrite <- !verdicts_of_In, Hv by done.
  rewrite !(verdict_in_loop (quick_verdict (portfolio s) (quick_inputs s).2)
              _ coin q) by (done || apply quick_verdict_coin).
  destruct (quick_verdict_unrated (portfolio s) (quick_inputs s).2 coin)
    as [Hq|[Hq|Hq]].
  { intros e md He Hmd (Hbuy & _ & Hprice). by apply (Hno e md). }
  all: rewrite Hq; repeat split; try discriminate; auto.
Qed.

(** C3, where the code departs from it. The full-cycle check rates a
    position whose ledger entry has no positive cost basis as safe, and one
    whose price is 0 as a stop-loss hit, which the cycle then sells; the
    quick check skips both. *)
Theorem C3_full_check_rates_missing_data :
  verdicts_of (trace (get_holdings_to_sell_for_tp_sl (Some gap_balance)
                                                     gap_technicals gap_state))
  = [LogSafe "BTC"; LogSlHit "ETH"]
  ∧ map fst (value (get_holdings_to_sell_for_tp_sl (Some gap_balance)
                                                   gap_technicals gap_state)).1
    = ["ETH/USD"]
  ∧ sales_of (trace (trading_cycle demo_rules gap_state)) = ["ETH/USD"]
  ∧ verdicts_of (trace (quick_tp_sl_check_and_sell demo_rules gap_state))
    = [LogNoRecord "BTC"; LogInvalidPrice "ETH"].
Proof. vm_compute. repeat split; reflexivity. Qed.

(** * Further properties *)

(** ** Quantities cut to the precision of a pair *)

Lemma factor_positive precision : (0 < Qpower (inject_Z 10) precision)%Q.
Proof. apply Qpower_0_lt. reflexivity. Qed.

Lemma truncate_quantity_le q precision :
  (truncate_quantity q precision <= q)%Q.
Proof.
  unfold truncate_quantity.
  apply Qle_shift_div_r; [apply factor_positive | apply Qfloor_le].
Qed.






(** ** Pairs and coins *)

Lemma split_coin_append coin rest :
  split_coin (coin +:+ String "/"%char rest) = split_coin coin.
Proof.
  induction coin as [|c coin IH]; simpl.
  - reflexivity.
  - destruct (Ascii.eqb c "/"); [reflexivity | by rewrite IH].
Qed.

Lemma split_coin_fixed coin :
  split_coin coin = coin ↔ ¬ In "/"%char (list_ascii_of_string coin).
Proof.
  induction coin as [|c coin IH]; simpl.
  - split; [intros _ [] | done].
  - destruct (Ascii.eqb_spec c "/") as [->|Hne].
    + split; [discriminate | intros Hn; destruct Hn; by left].
    + split.
      * intros E. injection E as E. intros [Hc|Hin]; [by subst|].
        by apply IH in E.
      * intros Hn. f_equal. apply IH. intros Hin. apply Hn. by right.
Qed.

Lemma split_coin_no_slash pair :
  ¬ In "/"%char (list_ascii_of_string (split_coin pair)).
Proof.
  induction pair as [|c pair IH]; simpl; [by intros []|].
  destruct (Ascii.eqb_spec c "/") as [->|Hne]; simpl; [by intros []|].
  intros [Hc|Hin]; [by subst | by apply IH].
Qed.

(** X2. [pair.split('/')[0]] of [f"{coin}/USD"] is the coin up to its
    first ['/']: it is the coin itself exactly when the coin holds no
    ['/'], and taking it twice is taking it once. *)
Theorem X2_coin_of_its_pair :
  (∀ coin, split_coin (usd_pair coin) = split_coin coin)
  ∧ (∀ coin, split_coin (usd_pair coin) = coin
             ↔ ¬ In "/"%char (list_ascii_of_string coin))
  ∧ (∀ pair, split_coin (split_coin pair) = split_coin pair).
Proof.
  split; [|split].
  - intros coin. apply split_coin_append.
  - intros coin. unfold usd_pair. rewrite split_coin_append.
    apply split_coin_fixed.
  - intros pair. apply split_coin_fixed, split_coin_no_slash.
Qed.

(** ** The ranker sorts *)

Lemma insert_by_score_sorted x l :
  StronglySorted (fun a b : string * TechData => (score b.2 <= score a.2)%Z) l →
  StronglySorted (fun a b : string * TechData => (score b.2 <= score a.2)%Z)
                 (insert_by_score x l).
Proof.
  induction 1 as [|y l Hl IH Hy]; simpl.
  - constructor; constructor.
  - destruct (Z.ltb_spec (score y.2) (score x.2)) as [Hlt|Hge].
    + constructor; [by constructor|].
      constructor; [lia|].
      eapply Forall_impl; [exact Hy|]. simpl. intros z Hz. lia.
    + constructor; [exact IH|].
      apply List.Forall_forall. intros z Hz.
      apply insert_by_score_In in Hz as [->|Hz]; [exact Hge|].
      rewrite List.Forall_forall in Hy. by apply Hy.
Qed.

Lemma insert_by_score_Permutation x l :
  Permutation (insert_by_score x l) (x :: l).
Proof.
  induction l as [|y l IH]; simpl; [reflexivity|].
  destruct (score y.2 <? score x.2)%Z; [reflexivity|].
  rewrite IH. apply perm_swap.
Qed.

Lemma rank_fold_sorted l acc :
  StronglySorted (fun a b : string * TechData => (score b.2 <= score a.2)%Z) acc →
  StronglySorted (fun a b : string * TechData => (score b.2 <= score a.2)%Z)
    (fold_left (fun sorted x => insert_by_score x sorted) l acc).
Proof.
  revert acc. induction l as [|x l IH]; intros acc Hacc; simpl; [done|].
  by apply IH, insert_by_score_sorted.
Qed.

Lemma rank_fold_Permutation l acc :
  Permutation (fold_left (fun sorted x => insert_by_score x sorted) l acc)
              (acc ++ l).
Proof.
  revert acc. induction l as [|x l IH]; intros acc; simpl.
  - by rewrite app_nil_r.
  - rewrite IH, insert_by_score_Permutation. simpl.
    apply Permutation_middle.
Qed.

(** X3. [rank_pairs_by_technicals] returns the items of the technicals
    in an order of descending score: every item is followed only by items
    of a score no higher, and the result is a permutation of the input. *)
Theorem X3_ranking_sorts technicals :
  StronglySorted (fun a b : string * TechData => (score b.2 <= score a.2)%Z)
                 (rank_pairs_by_technicals technicals)
  ∧ Permutation (rank_pairs_by_technicals technicals) technicals.
Proof.
  split.
  - apply rank_fold_sorted. constructor.
  - apply (rank_fold_Permutation technicals []).
Qed.

Lemma filter_none {A : Type} (f : A → bool) (l : list A) :
  (∀ x, In x l → f x = false) → List.filter f l = [].
Proof.
  induction l as [|x l IH]; simpl; [done|]. intros Hf.
  rewrite (Hf x) by (by left). apply IH. intros y Hy. apply Hf. by right.
Qed.

Lemma insert_by_score_ties k x l :
  StronglySorted (fun a b : string * TechData => (score b.2 <= score a.2)%Z) l →
  List.filter (fun y : string * TechData => (score y.2 =? k)%Z)
              (insert_by_score x l)
  = List.filter (fun y : string * TechData => (score y.2 =? k)%Z) l
    ++ (if (score x.2 =? k)%Z then [x] else []).
Proof.
  induction 1 as [|y l Hl IH Hy]; simpl.
  - reflexivity.
  - destruct (Z.ltb_spec (score y.2) (score x.2)) as [Hlt|Hge].
    + destruct (score x.2 =? k)%Z eqn:Hx.
      * assert (Hn : List.filter (fun y0 : string * TechData =>
                                    (score y0.2 =? k)%Z) (y :: l) = []).
        { apply filter_none. apply Z.eqb_eq in Hx.
          intros z [<-|Hz]; apply Z.eqb_neq; [lia|].
          rewrite List.Forall_forall in Hy. specialize (Hy z Hz).
          simpl in Hy. lia. }
        simpl in Hn. simpl. by rewrite Hx, Hn.
      * simpl. rewrite Hx. by rewrite app_nil_r.
    + simpl. rewrite IH. by destruct (score y.2 =? k)%Z.
Qed.

Lemma rank_fold_ties k l acc :
  StronglySorted (fun a b : string * TechData => (score b.2 <= score a.2)%Z) acc →
  List.filter (fun y : string * TechData => (score y.2 =? k)%Z)
              (fold_left (fun sorted x => insert_by_score x sorted) l acc)
  = List.filter (fun y : string * TechData => (score y.2 =? k)%Z) acc
    ++ List.filter (fun y : string * TechData => (score y.2 =? k)%Z) l.
Proof.
  revert acc. induction l as [|x l IH]; intros acc Hacc; simpl.
  - by rewrite app_nil_r.
  - rewrite IH by (by apply insert_by_score_sorted).
    rewrite insert_by_score_ties by done.
    rewrite <- app_assoc. by destruct (score x.2 =? k)%Z.
Qed.

(** X4. The ranking is stable: the items of any one score come in the
    order the technicals hold them. *)
Theorem X4_ranking_is_stable technicals k :
  List.filter (fun y : string * TechData => (score y.2 =? k)%Z)
              (rank_pairs_by_technicals technicals)
  = List.filter (fun y : string * TechData => (score y.2 =? k)%Z) technicals.
Proof. apply (rank_fold_ties k technicals []). constructor. Qed.

(** ** The value of the holdings *)

Lemma dust_positive : (0 < DUST)%Q.
Proof. reflexivity. Qed.

Lemma value_fold_bounds (tickers : gmap string (gmap string Q))
    (l : list (string * Q)) (acc : Q) :
  (∀ x, In x l → (0 < x.2)%Q) →
  let step := fun (total_value : Q) '((coin, quantity) : string * Q) =>
    match tickers !! usd_pair coin with
    | Some market_data =>
        if bool_decide (market_data = ∅) then total_value
        else
          let current_price := last_price market_data in
          if Qgtb current_price 0
          then (total_value + quantity * current_price)%Q
          else total_value
    | None => total_value
    end in
  (acc <= fold_left step l acc)%Q
  ∧ ((acc < fold_left step l acc)%Q
     ↔ ∃ coin q md, In (coin, q) l ∧ tickers !! usd_pair coin = Some md
                    ∧ (0 < last_price md)%Q).
Proof.
  intros Hpos step. revert acc Hpos.
  induction l as [|[coin q] l IH]; intros acc Hpos.
  - simpl. split; [apply Qle_refl|]. split.
    + intros Hlt. by apply Qlt_irrefl in Hlt.
    + by intros (? & ? & ? & [] & _).
  - assert (Hq : (0 < q)%Q) by (apply (Hpos (coin, q)); by left).
    assert (Hl : ∀ x, In x l → (0 < x.2)%Q)
      by (intros x Hx; apply Hpos; by right).
    cbn [fold_left].
    destruct (IH (step acc (coin, q)) Hl) as [Hge Hiff].
    assert (Hstep : (acc <= step acc (coin, q))%Q
                    ∧ ((acc < step acc (coin, q))%Q
                       ↔ ∃ md, tickers !! usd_pair coin = Some md
                               ∧ (0 < last_price md)%Q)).
    { unfold step. destruct (tickers !! usd_pair coin) as [md|] eqn:Hmd.
      - destruct (bool_decide (md = ∅)) eqn:Hemp.
        + apply bool_decide_eq_true in Hemp. subst md.
          split; [apply Qle_refl|]. split.
          * intros Hlt. by apply Qlt_irrefl in Hlt.
          * intros (md & E & Hlt). simplify_eq. by apply Qlt_irrefl in Hlt.
        + cbv zeta. destruct (Qgtb (last_price md) 0) eqn:Hp.
          * apply Qgtb_true in Hp.
            assert (Hc : (0 < q * last_price md)%Q)
              by (apply Qmult_lt_0_compat; done).
            split.
            -- rewrite <- (Qplus_0_r acc) at 1.
               apply Qplus_le_r. by apply Qlt_le_weak.
            -- split; [intros _; by exists md|]. intros _.
               rewrite <- (Qplus_0_r acc) at 1. by apply Qplus_lt_r.
          * apply Qgtb_false in Hp.
            split; [apply Qle_refl|]. split.
            -- intros Hlt. by apply Qlt_irrefl in Hlt.
            -- intros (md' & E & Hlt). simplify_eq.
               exfalso. exact (Qlt_irrefl _ (Qlt_le_trans _ _ _ Hlt Hp)).
      - split; [apply Qle_refl|]. split.
        + intros Hlt. by apply Qlt_irrefl in Hlt.
        + by intros (md & E & _). }
    destruct Hstep as [Hs1 Hs2]. split.
    + eapply Qle_trans; [exact Hs1 | exact Hge].
    + split.
      * intros Hlt.
        destruct (Qlt_le_dec acc (step acc (coin, q))) as [Hfirst|Hnot].
        -- apply Hs2 in Hfirst as (md & Hmd & Hp).
           exists coin, q, md. split; [by left | done].
        -- assert (Hrest : (step acc (coin, q)
                            < fold_left step l (step acc (coin, q)))%Q)
             by (eapply Qle_lt_trans; [exact Hnot | exact Hlt]).
           apply Hiff in Hrest as (c & q' & md & Hin & Hmd & Hp).
           exists c, q', md. split; [by right | done].
      * intros (c & q' & md & [E|Hin] & Hmd & Hp).
        -- simplify_eq. eapply Qlt_le_trans; [|exact Hge].
           apply Hs2. by exists md.
        -- eapply Qle_lt_trans; [exact Hs1|].
           apply Hiff. by exists c, q', md.
Qed.

(** X5. The portfolio value is never negative, and it is positive exactly
    when some enumerated position has a positive last price in the
    ticker. *)
Theorem X5_portfolio_value_sign balance_data ticker_data :
  (0 <= get_total_portfolio_value balance_data ticker_data)%Q
  ∧ ((0 < get_total_portfolio_value balance_data ticker_data)%Q
     ↔ ∃ coin q md,
         In (coin, q) (get_current_positions balance_data)
         ∧ ticker_dict ticker_data !! usd_pair coin = Some md
         ∧ (0 < last_price md)%Q).
Proof.
  unfold get_total_portfolio_value.
  assert (Hpos : ∀ x, In x (get_current_positions balance_data) → (0 < x.2)%Q).
  { intros [coin q] Hin. apply positions_above_dust in Hin.
    eapply Qlt_trans; [apply dust_positive | exact Hin]. }
  destruct (no_ticker ticker_data) eqn:Hno.
  - split; [apply Qle_refl|]. split.
    + intros Hlt. by apply Qlt_irrefl in Hlt.
    + intros (coin & q & md & _ & Hmd & _).
      destruct ticker_data as [t|]; simpl in *; [|by rewrite lookup_empty in Hmd].
      apply bool_decide_eq_true in Hno. rewrite Hno in Hmd.
      by rewrite lookup_empty in Hmd.
  - exact (value_fold_bounds (ticker_dict ticker_data)
             (get_current_positions balance_data) 0%Q Hpos).
Qed.

(** ** The shape of the allocation *)

Lemma pow2_positive (k : nat) : (0 < 2 ^ Z.of_nat k)%Z.
Proof. apply Z.pow_pos_nonneg; lia. Qed.

Lemma allocation_closed n cash i :
  (i < n)%nat →
  (allocation n cash i
   == inject_Z (2 ^ Z.of_nat (n - i - 1)) / inject_Z (2 ^ Z.of_nat n - 1) * cash)%Q.
Proof.
  intros Hi. unfold allocation.
  by rewrite exponential_weights_nth, total_weight_exponential.
Qed.

Lemma total_weight_Q_positive n :
  (1 <= n)%nat → (0 < inject_Z (2 ^ Z.of_nat n - 1))%Q.
Proof.
  intros Hn. change 0%Q with (inject_Z 0). rewrite <- Zlt_Qlt.
  assert (2 ^ 1 <= 2 ^ Z.of_nat n)%Z by (apply Z.pow_le_mono_r; lia).
  change (2 ^ 1)%Z with 2%Z in *. lia.
Qed.

Lemma allocation_nonneg n cash i :
  (i < n)%nat → (0 <= cash)%Q → (0 <= allocation n cash i)%Q.
Proof.
  intros Hi Hcash. rewrite allocation_closed by lia.
  apply Qmult_le_0_compat; [|exact Hcash].
  apply Qle_shift_div_l; [apply total_weight_Q_positive; lia|].
  rewrite Qmult_0_l. change 0%Q with (inject_Z 0). rewrite <- Zle_Qle.
  pose proof (pow2_positive (n - i - 1)). lia.
Qed.

(** X6. Among [n] candidates each rank is allotted half of what the rank
    before it gets; the first gets more than half of the cash; a single
    candidate gets all of it; and no allotment of a cash that is not
    negative is negative. *)
Theorem X6_allocation_shape :
  (∀ n cash i, (S i < n)%nat →
     (allocation n cash (S i) == allocation n cash i / 2)%Q)
  ∧ (∀ n cash, (1 <= n)%nat → (0 < cash)%Q →
       (cash / 2 < allocation n cash 0)%Q)
  ∧ (∀ cash, (allocation 1 cash 0 == cash)%Q)
  ∧ (∀ n cash i, (i < n)%nat → (0 <= cash)%Q →
       (0 <= allocation n cash i)%Q).
Proof.
  split; [|split; [|split]].
  - intros n cash i Hi.
    rewrite !allocation_closed by lia.
    pose proof (total_weight_Q_positive n ltac:(lia)) as Hw.
    assert (Hne : ¬ (inject_Z (2 ^ Z.of_nat n - 1) == 0)%Q)
      by (intros E; rewrite E in Hw; by apply Qlt_irrefl in Hw).
    replace (n - i - 1)%nat with (S (n - S i - 1)) by lia.
    rewrite Nat2Z.inj_succ, Z.pow_succ_r by lia.
    rewrite inject_Z_mult. field. exact Hne.
  - intros n cash Hn Hcash.
    rewrite allocation_closed by lia.
    pose proof (total_weight_Q_positive n Hn) as Hw.
    assert (Hne : ¬ (inject_Z (2 ^ Z.of_nat n - 1) == 0)%Q)
      by (intros E; rewrite E in Hw; by apply Qlt_irrefl in Hw).
    replace (n - 0 - 1)%nat with (n - 1)%nat by lia.
    assert (Hhalf : (1 / 2 < inject_Z (2 ^ Z.of_nat (n - 1))
                             / inject_Z (2 ^ Z.of_nat n - 1))%Q).
    { apply Qlt_shift_div_l; [exact Hw|].
      assert (E : (1 / 2 * inject_Z (2 ^ Z.of_nat n - 1)
                   == inject_Z (2 ^ Z.of_nat n - 1) / 2)%Q) by field.
      rewrite E. apply Qlt_shift_div_r; [reflexivity|].
      change 2%Q with (inject_Z 2). rewrite <- inject_Z_mult, <- Zlt_Qlt.
      replace n with (S (n - 1)) at 1 by lia.
      rewrite Nat2Z.inj_succ, Z.pow_succ_r by lia. lia. }
    assert (E : (cash / 2 == 1 / 2 * cash)%Q) by field.
    rewrite E. by apply Qmult_lt_compat_r.
  - intros cash. rewrite allocation_closed by lia. simpl. (* weights of one *)
    change (inject_Z (2 ^ Z.of_nat 0)) with 1%Q.
    change (inject_Z (2 ^ Z.of_nat 1 - 1)) with 1%Q. field.
  - intros n cash i. apply allocation_nonneg.
Qed.

(** ** Candidates in the order of their scores *)

Lemma strong_buy_signals_sorted l :
  StronglySorted (fun a b : string * TechData => (score b.2 <= score a.2)%Z) l →
  StronglySorted (fun a b : string * TechData => (score b.2 <= score a.2)%Z)
                 (strong_buy_signals l).
Proof.
  unfold strong_buy_signals.
  induction 1 as [|x l Hl IH Hx]; [constructor|].
  rewrite filter_cons. destruct (decide _); [|exact IH].
  constructor; [exact IH|].
  apply List.Forall_forall. intros y Hy.
  apply list_elem_of_In, list_elem_of_filter in Hy as [_ Hy].
  rewrite List.Forall_forall in Hx. apply Hx. by apply list_elem_of_In.
Qed.

Lemma StronglySorted_nth_error {A : Type} (R : A → A → Prop) (l : list A) i j x y :
  StronglySorted R l → (i < j)%nat →
  nth_error l i = Some x → nth_error l j = Some y → R x y.
Proof.
  intros Hs. revert i j. induction Hs as [|a l Hl IH Ha]; intros i j Hij Hi Hj.
  - by destruct i.
  - destruct j as [|j]; [lia|]. simpl in Hj. destruct i as [|i].
    + simpl in Hi. injection Hi as <-.
      rewrite List.Forall_forall in Ha. apply Ha. by eapply nth_error_In.
    + simpl in Hi. apply (IH i j); [lia | done | done].
Qed.

Lemma allocation_antitone n cash i j :
  (i <= j)%nat → (j < n)%nat → (0 <= cash)%Q →
  (allocation n cash j <= allocation n cash i)%Q.
Proof.
  intros Hij Hj Hcash.
  rewrite !allocation_closed by lia.
  apply Qmult_le_compat_r; [|exact Hcash].
  apply Qmult_le_compat_r.
  - rewrite <- Zle_Qle. apply Z.pow_le_mono_r; lia.
  - apply Qinv_le_0_compat, Qlt_le_weak, total_weight_Q_positive. lia.
Qed.

(** X7. The strong-buy candidates are served in the order of the
    ranking: of two candidates the one served first has a score at least
    as high and, of a cash that is not negative, an allotment at least as
    large. *)
Theorem X7_better_score_larger_share technicals i j ci cj :
  let buy_signals := strong_buy_signals (rank_pairs_by_technicals technicals) in
  (i < j)%nat →
  nth_error buy_signals i = Some ci → nth_error buy_signals j = Some cj →
  (score cj.2 <= score ci.2)%Z
  ∧ ∀ cash, (0 <= cash)%Q →
      (allocation (length buy_signals) cash j
       <= allocation (length buy_signals) cash i)%Q.
Proof.
  intros buy_signals Hij Hi Hj. split.
  - apply (StronglySorted_nth_error
             (fun a b : string * TechData => (score b.2 <= score a.2)%Z)
             buy_signals i j ci cj); [|done..].
    apply strong_buy_signals_sorted, rank_fold_sorted. constructor.
  - intros cash Hcash. apply allocation_antitone; [lia | | done].
    apply nth_error_Some. by rewrite Hj.
Qed.

(** ** The cost basis after a purchase *)

Section Basis.
Context {World : Type} `{Api World}.

Lemma update_portfolio_on_buy_ledger pair q p0 (s : State World) :
  portfolio (final (update_portfolio_on_buy pair q p0 s))
  = ledger_on_buy (split_coin pair) q p0 (api_now (world s)) (portfolio s)
  ∧ saved (final (update_portfolio_on_buy pair q p0 s))
    = portfolio (final (update_portfolio_on_buy pair q p0 s))
  ∧ world (final (update_portfolio_on_buy pair q p0 s)) = world s.
Proof. unfold update_portfolio_on_buy. run. done. Qed.

(** X8. What [update_portfolio_on_buy] leaves as cost basis: the fill
    price, for an instrument without an entry and for one whose entry has
    quantity 0 (with the fill as quantity); a price between the old cost
    and the fill price, for an entry of a quantity that is not negative;
    and the entries of the other instruments are as they were. *)
Theorem X8_cost_basis_of_a_purchase :
  (∀ (s : State World) pair fill_qty fill_price,
     portfolio s !! split_coin pair = None → (0 < fill_qty)%Q →
     ∃ e', portfolio (final (update_portfolio_on_buy pair fill_qty fill_price s))
           !! split_coin pair = Some e'
           ∧ (buy_price e' == fill_price)%Q ∧ (quantity e' == fill_qty)%Q)
  ∧ (∀ (s : State World) pair fill_qty fill_price e,
       portfolio s !! split_coin pair = Some e →
       (quantity e == 0)%Q → (0 < fill_qty)%Q →
       ∃ e', portfolio (final (update_portfolio_on_buy pair fill_qty
                                                       fill_price s))
             !! split_coin pair = Some e'
             ∧ (buy_price e' == fill_price)%Q ∧ (quantity e' == fill_qty)%Q)
  ∧ (∀ (s : State World) pair fill_qty fill_price e,
       portfolio s !! split_coin pair = Some e →
       (0 <= quantity e)%Q → (0 < fill_qty)%Q →
       ∃ e', portfolio (final (update_portfolio_on_buy pair fill_qty
                                                       fill_price s))
             !! split_coin pair = Some e'
             ∧ ((buy_price e <= fill_price)%Q →
                (buy_price e <= buy_price e')%Q
                ∧ (buy_price e' <= fill_price)%Q)
             ∧ ((fill_price <= buy_price e)%Q →
                (fill_price <= buy_price e')%Q
                ∧ (buy_price e' <= buy_price e)%Q))
  ∧ (∀ (s : State World) pair fill_qty fill_price coin,
       coin ≠ split_coin pair →
       portfolio (final (update_portfolio_on_buy pair fill_qty fill_price s))
       !! coin = portfolio s !! coin).
Proof.
  split; [|split; [|split]].
  - intros s pair q p0 Hnone Hq.
    rewrite (proj1 (update_portfolio_on_buy_ledger pair q p0 s)).
    unfold ledger_on_buy. rewrite Hnone, lookup_insert_eq. eexists.
    split; [reflexivity|]. cbn [buy_price quantity].
    assert (Hpos : (0 < 0 + q)%Q) by (by rewrite Qplus_0_l).
    rewrite (proj2 (Qgtb_true _ _) Hpos).
    split; [|ring]. field. intros E. rewrite E in Hq. by apply Qlt_irrefl in Hq.
  - intros s pair q p0 e He Hzero Hq.
    rewrite (proj1 (update_portfolio_on_buy_ledger pair q p0 s)).
    unfold ledger_on_buy. rewrite He, lookup_insert_eq. eexists.
    split; [reflexivity|]. cbn [buy_price quantity].
    assert (Hpos : (0 < quantity e + q)%Q) by (by rewrite Hzero, Qplus_0_l).
    rewrite (proj2 (Qgtb_true _ _) Hpos).
    split; [|rewrite Hzero; ring]. rewrite Hzero in Hpos |- *. field.
    intros E. rewrite E in Hpos. by apply Qlt_irrefl in Hpos.
  - intros s pair q p0 e He Hqty Hq.
    rewrite (proj1 (update_portfolio_on_buy_ledger pair q p0 s)).
    unfold ledger_on_buy. rewrite He, lookup_insert_eq. eexists.
    split; [reflexivity|]. cbn [buy_price quantity].
    assert (Hpos : (0 < quantity e + q)%Q).
    { rewrite Qplus_comm, <- (Qplus_0_l 0). apply Qplus_lt_le_compat; done. }
    rewrite (proj2 (Qgtb_true _ _) Hpos).
    set (a := buy_price e). set (n := quantity e) in *.
    split; intros Hle; split.
    + apply Qle_shift_div_l; [exact Hpos|].
      assert (E : (a * n + p0 * q == a * (n + q) + (p0 - a) * q)%Q) by ring.
      rewrite E. rewrite <- (Qplus_0_r (a * (n + q))) at 1.
      apply Qplus_le_r. apply Qmult_le_0_compat; [|by apply Qlt_le_weak].
      unfold Qminus. by rewrite <- Qle_minus_iff.
    + apply Qle_shift_div_r; [exact Hpos|].
      assert (E : (p0 * (n + q) == (a * n + p0 * q) + (p0 - a) * n)%Q) by ring.
      rewrite E. rewrite <- (Qplus_0_r (a * n + p0 * q)) at 1.
      apply Qplus_le_r. apply Qmult_le_0_compat; [|done].
      unfold Qminus. by rewrite <- Qle_minus_iff.
    + apply Qle_shift_div_l; [exact Hpos|].
      assert (E : (a * n + p0 * q == p0 * (n + q) + (a - p0) * n)%Q) by ring.
      rewrite E. rewrite <- (Qplus_0_r (p0 * (n + q))) at 1.
      apply Qplus_le_r. apply Qmult_le_0_compat; [|done].
      unfold Qminus. by rewrite <- Qle_minus_iff.
    + apply Qle_shift_div_r; [exact Hpos|].
      assert (E : (a * (n + q) == (a * n + p0 * q) + (a - p0) * q)%Q) by ring.
      rewrite E. rewrite <- (Qplus_0_r (a * n + p0 * q)) at 1.
      apply Qplus_le_r. apply Qmult_le_0_compat; [|by apply Qlt_le_weak].
      unfold Qminus. by rewrite <- Qle_minus_iff.
  - intros s pair q p0 coin Hne.
    rewrite (proj1 (update_portfolio_on_buy_ledger pair q p0 s)).
    by apply ledger_on_buy_other.
Qed.
End Basis.

(** ** The orders of a run *)

Section Orders.
Context {World : Type} `{Api World}.
Variable PAIR_PRECISION : gmap string Z.

Lemma quick_requests_In (s : State World) o :
  In o (requests_of (trace (quick_tp_sl_check_and_sell PAIR_PRECISION s))) →
  ∃ coin q precision,
    In (coin, q) (get_current_positions (api_get_balance (world s)).1)
    ∧ PAIR_PRECISION !! usd_pair coin = Some precision
    ∧ (0 < truncate_quantity q precision)%Q
    ∧ o = mkOrder (usd_pair coin) SideSell (truncate_quantity q precision).
Proof.
  intros Hin.
  destruct (quick_tp_sl_check_and_sell_facts PAIR_PRECISION s) as (_ & Hr & _).
  rewrite Hr in Hin. apply in_flat_map in Hin as ([coin q] & Hpos & Ho).
  apply (quick_inputs_In s) in Hpos as [Hpos _].
  unfold quick_request in Ho. destruct (is_hit _); [|done].
  apply sell_request_In in Ho as (precision & Hp & Hq & ->).
  by exists coin, q, precision.
Qed.

Lemma cycle_requests_In (s : State World) o :
  In o (requests_of (trace (trading_cycle PAIR_PRECISION s))) →
  (∃ coin q precision,
     In (coin, q) (get_current_positions (api_get_balance (world s)).1)
     ∧ PAIR_PRECISION !! usd_pair coin = Some precision
     ∧ (0 < truncate_quantity q precision)%Q
     ∧ o = mkOrder (usd_pair coin) SideSell (truncate_quantity q precision))
  ∨ (∃ pair q precision,
       PAIR_PRECISION !! pair = Some precision
       ∧ (0 < truncate_quantity q precision)%Q
       ∧ o = mkOrder pair SideBuy (truncate_quantity q precision)).
Proof.
  intros Hin.
  destruct (cycle_inputs s) as [[[b technicals] s1]|] eqn:Hcyc.
  2: { destruct (trading_cycle_idle PAIR_PRECISION s Hcyc) as [Hnone _].
       unfold requests_of in Hin. by rewrite Hnone in Hin. }
  rewrite (cycle_inputs_balance s b technicals s1 Hcyc).
  destruct (trading_cycle_phases PAIR_PRECISION s b technicals s1 Hcyc)
    as (_ & tail & Htail & Htrace).
  rewrite Htrace in Hin. unfold requests_of in Hin.
  repeat (progress (rewrite ?orders_of_app, ?map_app in Hin;
                    cbn [orders_of flat_map map app] in Hin)).
  rewrite Htail, app_nil_r in Hin.
  destruct (get_holdings_to_sell_for_tp_sl_facts (Some b) technicals s1)
    as (_ & Hr1 & _ & Htargets).
  rewrite Hr1 in Hin. cbn [map app] in Hin.
  rewrite !in_app_iff in Hin. destruct Hin as [Hin|[Hin|Hin]].
  - match type of Hin with
    | In _ (map fst (orders_of (trace (execute_tp_sl_sells _ ?a ?r ?s2)))) =>
        destruct (execute_tp_sl_sells_sells PAIR_PRECISION a r s2) as (Hr2 & _)
    end.
    unfold requests_of in Hr2. rewrite Hr2 in Hin.
    apply in_flat_map in Hin as ([pair q] & Hpair & Ho).
    apply Htargets in Hpair as (coin & Hpos & -> & _).
    apply sell_request_In in Ho as (precision & Hp & Hq & ->).
    left. by exists coin, q, precision.
  - match type of Hin with
    | In _ (map fst (orders_of (trace (execute_sells _ ?p ?t ?s3)))) =>
        destruct (execute_sells_sells PAIR_PRECISION p t s3) as (Hr3 & _)
    end.
    unfold requests_of in Hr3. rewrite Hr3 in Hin.
    apply in_flat_map in Hin as ([coin q] & Hpos & Ho).
    apply strong_request_In in Ho as (t & precision & _ & _ & _ & Hp & Hq & ->).
    left. by exists coin, q, precision.
  - match type of Hin with
    | In _ (map fst (orders_of (trace (execute_buys _ ?c ?r ?p ?t ?s4)))) =>
        destruct (execute_buys_facts PAIR_PRECISION c r p t s4) as (Hr4 & _)
    end.
    unfold requests_of in Hr4. rewrite Hr4 in Hin.
    destruct (strong_buy_signals _) as [|c0 rest]; [done|].
    apply in_app_iff in Hin as [Hin|Hin].
    + apply in_flat_map in Hin as ([coin q] & Hpos & Ho).
      apply weak_request_In in Ho as (t & precision & _ & _ & Hp & Hq & ->).
      left. by exists coin, q, precision.
    + destruct (Qleb _ 10); [done|].
      apply in_flat_map in Hin as ([i [pair data]] & _ & Ho).
      apply buy_request_In in Ho as (precision & _ & _ & Hp & Hq & ->).
      right. by eexists pair, _, precision.
Qed.

Lemma main_iteration_requests (l : Loop) (s : State World) o :
  In o (requests_of (trace (main_iteration PAIR_PRECISION l s))) →
  ∃ s', In o (requests_of (trace (trading_cycle PAIR_PRECISION s')))
        ∨ In o (requests_of
                  (trace (quick_tp_sl_check_and_sell PAIR_PRECISION s'))).
Proof.
  intros Hin.
  destruct (Z_le_gt_dec FULL_TRADING_CYCLE_INTERVAL (time_since_full_cycle l))
    as [Hdue|Hnot].
  - rewrite (main_iteration_due PAIR_PRECISION l s Hdue) in Hin.
    cbn [trace snd] in Hin. rewrite !requests_of_app in Hin.
    rewrite !in_app_iff in Hin.
    destruct Hin as [[]|[Hin|[[]|[Hin|[]]]]].
    + exists s. by left.
    + eexists. right. exact Hin.
  - rewrite (main_iteration_not_due PAIR_PRECISION l s) in Hin by lia.
    cbn [trace snd] in Hin. rewrite !requests_of_app in Hin.
    rewrite !in_app_iff in Hin.
    destruct Hin as [[]|[Hin|[]]]. exists s. by right.
Qed.

Lemma main_loop_requests (n : nat) (l : Loop) (s : State World) o :
  In o (requests_of (trace (main_loop PAIR_PRECISION n l s))) →
  ∃ s', In o (requests_of (trace (trading_cycle PAIR_PRECISION s')))
        ∨ In o (requests_of
                  (trace (quick_tp_sl_check_and_sell PAIR_PRECISION s'))).
Proof.
  revert l s. induction n as [|n IH]; intros l s Hin; [done|].
  cbn [main_loop] in Hin.
  change (In o (requests_of (trace
           (bind (fun l' => main_loop PAIR_PRECISION n l')
                 (main_iteration PAIR_PRECISION l) s)))) in Hin.
  rewrite bind_run in Hin. cbn [trace snd] in Hin.
  rewrite requests_of_app, in_app_iff in Hin. destruct Hin as [Hin|Hin].
  - by apply main_iteration_requests in Hin.
  - by apply IH in Hin.
Qed.

Lemma main_loop_well_formed (n : nat) (l : Loop) (s : State World) o :
  In o (requests_of (trace (main_loop PAIR_PRECISION n l s))) →
  well_formed_order PAIR_PRECISION o.
Proof.
  intros Hin. apply main_loop_requests in Hin as (s' & [Hin|Hin]).
  - apply cycle_requests_In in Hin
      as [(coin & q & precision & _ & Hp & Hq & ->)
         |(pair & q & precision & Hp & Hq & ->)];
      by exists precision, q.
  - apply quick_requests_In in Hin as (coin & q & precision & _ & Hp & Hq & ->).
    by exists precision, q.
Qed.

(** X9. Every order that any number of passes of [main] submits is of a
    pair with a precision rule in [PAIR_PRECISION], for a positive quantity
    cut to that precision. *)
Theorem X9_orders_follow_the_rules (n : nat) (l : Loop) (s : State World) o :
  In o (requests_of (trace (main_loop PAIR_PRECISION n l s))) →
  well_formed_order PAIR_PRECISION o.
Proof.
  intros Hin. apply main_loop_requests in Hin as (s' & [Hin|Hin]).
  - apply cycle_requests_In in Hin
      as [(coin & q & precision & _ & Hp & Hq & ->)
         |(pair & q & precision & Hp & Hq & ->)];
      by exists precision, q.
  - apply quick_requests_In in Hin as (coin & q & precision & _ & Hp & Hq & ->).
    by exists precision, q.
Qed.

End Orders.

Section Completeness.
Context {World : Type} `{Api World}.
Variable PAIR_PRECISION : gmap string Z.


(** X12. Every order of the strong-sell phase is an order of the funding
    phase too, from whatever states the two are run on the same positions
    and technicals: 13 sell votes are at least 8, and the funding phase
    asks for no SELL signal. *)
Theorem X12_a_strong_sell_is_a_funding_sell positions technicals
    (s s' : State World) o :
  In o (requests_of (trace (execute_sells PAIR_PRECISION positions
                                          technicals s))) →
  In o (requests_of (trace (execute_weak_sell_rebalancing PAIR_PRECISION
                              positions technicals s'))).
Proof.
  intros Hin.
  destruct (execute_sells_sells PAIR_PRECISION positions technicals s)
    as (Hr & _).
  destruct (execute_weak_sell_rebalancing_sells PAIR_PRECISION positions
              technicals s') as (Hr' & _).
  rewrite Hr in Hin. rewrite Hr'.
  apply in_flat_map in Hin as ([coin q] & Hpos & Ho).
  apply in_flat_map. exists (coin, q). split; [done|].
  apply strong_request_In in Ho as (t & precision & Ht & _ & Hvotes & Hp & Hq & ->).
  apply weak_request_In. exists t, precision.
  split; [done|]. split; [|done].
  unfold STRONG_SELL_THRESHOLD in Hvotes. unfold WEAK_SELL_THRESHOLD. lia.
Qed.
End Completeness.

(** X13. With an empty [PAIR_PRECISION], as after exchange information
    that names no [AmountPrecision], no number of passes of [main] submits
    an order. *)
Theorem X13_no_rules_no_orders `{Api World} (n : nat) (l : Loop)
    (s : State World) :
  requests_of (trace (main_loop ∅ n l s)) = [].
Proof.
  destruct (requests_of _) as [|o rest] eqn:E; [done|].
  assert (Hin : In o (requests_of (trace (main_loop ∅ n l s))))
    by (rewrite E; by left).
  apply main_loop_well_formed in Hin as (precision & q & Hp & _).
  by rewrite lookup_empty in Hp.
Qed.

(** ** What the full-cycle check hands to the seller *)

Lemma dict_set_keys {V V' : Type} (k : string) (v : V) (v' : V') d d' :
  map fst d = map fst d' →
  map fst (dict_set k v d) = map fst (dict_set k v' d').
Proof.
  revert d'. induction d as [|[k0 v0] d IH]; intros [|[k1 v1] d'] E;
    try discriminate E; [done|].
  simpl in E. injection E as -> E. simpl.
  destruct (String.eqb k k1); simpl; [by rewrite E|]. f_equal. by apply IH.
Qed.

Lemma dict_set_NoDup {V : Type} (k : string) (v : V) d :
  List.NoDup (map fst d) → List.NoDup (map fst (dict_set k v d)).
Proof.
  induction d as [|[k0 v0] d IH]; simpl.
  - intros _. constructor; [by intros []|constructor].
  - intros Hnd. apply List.NoDup_cons_iff in Hnd as [Hk0 Hnd].
    destruct (String.eqb_spec k k0) as [->|Hne]; simpl.
    + by constructor.
    + constructor; [|by apply IH].
      intros Hin. apply in_map_iff in Hin as ([k1 v1] & E & Hin).
      simpl in E. subst k1. apply dict_set_In in Hin as [E|Hin].
      * by simplify_eq.
      * apply Hk0. apply in_map_iff. by exists (k0, v1).
Qed.

Lemma rate_full_shape p technicals l acc :
  map fst acc.1 = map fst acc.2 →
  List.NoDup (map fst acc.1) →
  (∀ pair reason, In (pair, reason) acc.2 → reason = "TP" ∨ reason = "SL") →
  let r := fold_left (rate_full p technicals) l acc in
  map fst r.1 = map fst r.2
  ∧ List.NoDup (map fst r.1)
  ∧ (∀ pair reason, In (pair, reason) r.2 → reason = "TP" ∨ reason = "SL").
Proof.
  revert acc. induction l as [|x l IH]; intros acc Hk Hnd Hr; [done|].
  cbn [fold_left]. apply IH; unfold rate_full;
    destruct (full_verdict p technicals x.1); cbn [fst snd]; try done.
  - by apply dict_set_keys.
  - by apply dict_set_keys.
  - by apply dict_set_NoDup.
  - by apply dict_set_NoDup.
  - intros pair reason Hin. apply dict_set_In in Hin as [E|Hin];
      [simplify_eq; by left | by eapply Hr].
  - intros pair reason Hin. apply dict_set_In in Hin as [E|Hin];
      [simplify_eq; by right | by eapply Hr].
Qed.

Lemma dict_get_In {V : Type} (k : string) (d : list (string * V)) :
  In k (map fst d) → is_Some (dict_get k d).
Proof.
  induction d as [|[k0 v0] d IH]; simpl; [done|].
  intros [->|Hin].
  - by rewrite String.eqb_refl.
  - destruct (String.eqb k k0); [done | by apply IH].
Qed.

Lemma dict_get_Some_In {V : Type} (k : string) (v : V) (d : list (string * V)) :
  dict_get k d = Some v → In (k, v) d.
Proof.
  induction d as [|[k0 v0] d IH]; simpl; [done|].
  destruct (String.eqb_spec k k0) as [->|Hne].
  - intros [= ->]. by left.
  - intros Hd. right. by apply IH.
Qed.

Section Handover.
Context {World : Type} `{Api World}.

(** X14. What the full-cycle check returns: [positions_to_sell] and
    [sell_reasons] have the same pairs in the same order, each once; every
    pair to sell has the reason TP or SL, so that the default UNKNOWN of
    [execute_tp_sl_sells] is never taken on it; and every pair to sell is
    the pair of an enumerated position, with its quantity. *)
Theorem X14_every_target_has_its_reason balance_data technicals
    (s : State World) :
  let r := get_holdings_to_sell_for_tp_sl balance_data technicals s in
  map fst (value r).1 = map fst (value r).2
  ∧ List.NoDup (map fst (value r).1)
  ∧ (∀ pair q, In (pair, q) (value r).1 →
       dict_get pair (value r).2 = Some "TP"
       ∨ dict_get pair (value r).2 = Some "SL")
  ∧ (∀ pair q, In (pair, q) (value r).1 →
       ∃ coin, pair = usd_pair coin
               ∧ In (coin, q) (get_current_positions balance_data)).
Proof.
  intros r.
  destruct (rate_full_shape (portfolio s) technicals
              (get_current_positions balance_data) ([], []))
    as (Hk & Hnd & Hr); [done | constructor | by intros ? ? [] |].
  rewrite <- (get_holdings_to_sell_for_tp_sl_value balance_data technicals s)
    in Hk, Hnd, Hr.
  fold r in Hk, Hnd, Hr.
  split; [exact Hk|]. split; [exact Hnd|]. split.
  - intros pair q Hin.
    assert (Hkey : In pair (map fst (value r).2)).
    { rewrite <- Hk. apply in_map_iff. by exists (pair, q). }
    apply dict_get_In in Hkey as [reason Hreason].
    rewrite Hreason.
    apply dict_get_Some_In, Hr in Hreason as [->| ->]; [by left | by right].
  - intros pair q Hin.
    destruct (get_holdings_to_sell_for_tp_sl_facts balance_data technicals s)
      as (_ & _ & _ & Htargets).
    apply Htargets in Hin as (coin & Hpos & -> & _). by exists coin.
Qed.
End Handover.

(** ** The schedule of [main] *)

Section Schedule.
Context {World : Type} `{Api World}.
Variable PAIR_PRECISION : gmap string Z.

Lemma main_iteration_value (l : Loop) (s : State World) :
  value (main_iteration PAIR_PRECISION l s)
  = if (FULL_TRADING_CYCLE_INTERVAL <=? time_since_full_cycle l)%Z
    then mkLoop (quick_check_count l + 1) (full_cycle_count l + 1)
                QUICK_TP_SL_CHECK_INTERVAL
    else mkLoop (quick_check_count l + 1) (full_cycle_count l)
                (time_since_full_cycle l + QUICK_TP_SL_CHECK_INTERVAL).
Proof.
  destruct (Z.leb_spec FULL_TRADING_CYCLE_INTERVAL (time_since_full_cycle l))
    as [Hdue|Hnot].
  - by rewrite (main_iteration_due PAIR_PRECISION l s Hdue).
  - by rewrite (main_iteration_not_due PAIR_PRECISION l s Hnot).
Qed.

Lemma main_loop_S (n : nat) (l : Loop) (s : State World) :
  main_loop PAIR_PRECISION (S n) l s
  = (value (main_loop PAIR_PRECISION n
              (value (main_iteration PAIR_PRECISION l s))
              (final (main_iteration PAIR_PRECISION l s))),
     final (main_loop PAIR_PRECISION n
              (value (main_iteration PAIR_PRECISION l s))
              (final (main_iteration PAIR_PRECISION l s))),
     trace (main_iteration PAIR_PRECISION l s)
     ++ trace (main_loop PAIR_PRECISION n
                 (value (main_iteration PAIR_PRECISION l s))
                 (final (main_iteration PAIR_PRECISION l s)))).
Proof.
  exact (bind_run (fun l' => main_loop PAIR_PRECISION n l')
                  (main_iteration PAIR_PRECISION l) s).
Qed.

(** The loop variables after [n] passes, from those of a pass that starts
    [k] quick checks after a full cycle ([1 <= k <= 40], [40] meaning that
    the next pass runs one). *)
Lemma main_loop_counters (n : nat) (c f k : Z) (s : State World) :
  (1 <= k <= 40)%Z →
  value (main_loop PAIR_PRECISION n (mkLoop c f (15 * k)) s)
  = mkLoop (c + Z.of_nat n)
           (f + (Z.of_nat n + k - 1) / 40)
           (15 * ((Z.of_nat n + k - 1) mod 40 + 1)).
Proof.
  revert c f k s. induction n as [|n IH]; intros c f k s Hk.
  - cbn [main_loop]. unfold mret, M_ret, ret. cbn [value fst].
    change (Z.of_nat 0) with 0%Z. rewrite Z.add_0_l, Z.add_0_r.
    rewrite Z.div_small, Z.mod_small by lia. f_equal; lia.
  - rewrite main_loop_S. cbn [value fst].
    rewrite main_iteration_value. cbn [time_since_full_cycle
      quick_check_count full_cycle_count].
    unfold FULL_TRADING_CYCLE_INTERVAL, QUICK_TP_SL_CHECK_INTERVAL.
    destruct (Z.leb_spec 600 (15 * k)) as [Hdue|Hnot].
    + assert (k = 40) by lia. subst k.
      rewrite (IH (c + 1) (f + 1) 1 _) by lia.
      f_equal; [lia | |].
      * replace (Z.of_nat (S n) + 40 - 1) with ((Z.of_nat n + 1 - 1) + 1 * 40) by lia.
        rewrite Z.div_add by lia. lia.
      * replace (Z.of_nat (S n) + 40 - 1) with ((Z.of_nat n + 1 - 1) + 1 * 40) by lia.
        by rewrite Z.mod_add by lia.
    + replace (15 * k + 15) with (15 * (k + 1)) by lia.
      rewrite (IH (c + 1) f (k + 1) _) by lia.
      f_equal; [lia | |].
      * f_equal. f_equal. lia.
      * do 3 f_equal. lia.
Qed.

(** X15. After [n] passes of [main], from the variables it starts with:
    [n] quick checks were run and as many full cycles as there are
    multiples of 40 below [n]; the next pass runs a full cycle exactly when
    [n] is a multiple of 40. *)
Theorem X15_full_cycle_every_fortieth_pass (n : nat) (s : State World) :
  let l := value (main_loop PAIR_PRECISION n main_start s) in
  quick_check_count l = Z.of_nat n
  ∧ full_cycle_count l = ((Z.of_nat n + 39) / 40)%Z
  ∧ time_since_full_cycle l = (15 * ((Z.of_nat n + 39) mod 40 + 1))%Z
  ∧ ((FULL_TRADING_CYCLE_INTERVAL <=? time_since_full_cycle l)%Z = true
     ↔ (Z.of_nat n mod 40 = 0)%Z).
Proof.
  intros l. subst l. unfold main_start.
  change FULL_TRADING_CYCLE_INTERVAL with (15 * 40)%Z.
  rewrite (main_loop_counters n 0 0 40 s) by lia.
  cbn [quick_check_count full_cycle_count time_since_full_cycle].
  replace (Z.of_nat n + 40 - 1)%Z with (Z.of_nat n + 39)%Z by lia.
  split; [lia|]. split; [lia|]. split; [done|].
  rewrite Z.leb_le.
  pose proof (Z.mod_pos_bound (Z.of_nat n + 39) 40 ltac:(lia)) as Hb.
  pose proof (Z.div_mod (Z.of_nat n + 39) 40 ltac:(lia)) as Hd1.
  pose proof (Z.mod_pos_bound (Z.of_nat n) 40 ltac:(lia)) as Hb2.
  pose proof (Z.div_mod (Z.of_nat n) 40 ltac:(lia)) as Hd2.
  lia.
Qed.
End Schedule.

(** ** Revenue *)

Lemma Qsum_app l1 l2 : (Qsum (l1 ++ l2) == Qsum l1 + Qsum l2)%Q.
Proof.
  induction l1 as [|x l1 IH]; simpl; [by rewrite Qplus_0_l|].
  rewrite IH. ring.
Qed.

Lemma proceeds_of_app t1 t2 :
  (proceeds_of (t1 ++ t2) == proceeds_of t1 + proceeds_of t2)%Q.
Proof. unfold proceeds_of. rewrite flat_map_app. apply Qsum_app. Qed.

Lemma proceeds_of_lines (lines : list LogMsg) :
  proceeds_of (map Logged lines) = 0%Q.
Proof. induction lines; simpl; auto. Qed.

Section Proceeds.
Context {World : Type} `{Api World}.
Variable PAIR_PRECISION : gmap string Z.

Lemma sell_truncated_proceeds kind coin pair quantity acc (s : State World) :
  let r := sell_truncated PAIR_PRECISION kind coin pair quantity acc s in
  ((value r).1 == acc.1 + proceeds_of (trace r))%Q.
Proof.
  unfold sell_truncated, zero_if_recorded, zero_and_save.
  destruct acc as [total_received total_pl].
  run_cases; unfold proceeds_of; simpl; ring.
Qed.

Lemma quick_sell_proceeds label coin pair quantity total (s : State World) :
  let r := quick_sell PAIR_PRECISION label coin pair quantity total s in
  (value r == total + proceeds_of (trace r))%Q.
Proof.
  unfold quick_sell, zero_and_save.
  run_cases; unfold proceeds_of; simpl; ring.
Qed.

Lemma quick_check_position_proceeds td total position (s : State World) :
  let r := quick_check_position PAIR_PRECISION td total position s in
  (value r == total + proceeds_of (trace r))%Q.
Proof.
  destruct position as [coin quantity].
  unfold quick_check_position. run.
  repeat (case_match; simplify_eq; run);
    try (unfold proceeds_of; simpl; ring).
  all: match goal with
       | Hq : quick_sell _ ?lab ?c ?p ?qty ?tot ?s0 = _ |- _ =>
           pose proof (quick_sell_proceeds lab c p qty tot s0) as Hp;
           rewrite Hq in Hp; cbn [value trace fst snd] in Hp
       end.
  all: rewrite proceeds_of_app, Hp; unfold proceeds_of; simpl; ring.
Qed.

Lemma sale_loop_proceeds {A : Type} (ρ : string → string → Prop)
    (body : Q * Q → A → M World (Q * Q)) (plan : A → list Order)
    (l : list A) acc (s : State World) :
  (∀ x, In x l →
        sale_or_skip PAIR_PRECISION ρ (fun acc => body acc x) (plan x)) →
  let r := for_each body acc l s in
  ((value r).1 == acc.1 + proceeds_of (trace r))%Q.
Proof.
  intros Hbody r. subst r.
  pose proof (for_each_inv
                (fun a t (_ : gmap string Entry) =>
                   (a.1 == acc.1 + proceeds_of t)%Q) body l) as Hloop.
  apply (Hloop) with (t0 := []);
    [|cbv beta; change (proceeds_of []) with 0%Q; ring].
  intros acc' x s' t' Hx Hacc. rewrite proceeds_of_app.
  destruct (Hbody x Hx) as [lines Hrun _|kind coin pair q Hrun _ _];
    rewrite Hrun.
  - cbn [value trace fst snd]. rewrite proceeds_of_lines, Hacc. ring.
  - rewrite sell_truncated_proceeds. cbv beta in Hacc.
    rewrite Qplus_assoc. by apply Qplus_comp.
Qed.
End Proceeds.

Section Revenue.
Context {World : Type} `{Api World}.
Variable PAIR_PRECISION : gmap string Z.

Lemma execute_sells_proceeds positions technicals (s : State World) :
  let r := execute_sells PAIR_PRECISION positions technicals s in
  (value r == proceeds_of (trace r))%Q.
Proof.
  intros r. subst r. unfold execute_sells.
  set (body := fun (acc : Q * Q) (position : string * Q) => _).
  pose proof (sale_loop_proceeds PAIR_PRECISION pair_of_coin body
                (strong_request PAIR_PRECISION technicals)
                positions (0%Q, 0%Q) s) as Hloop.
  run. destruct (for_each body _ positions s) as [[[tr tp] s1] t1] eqn:Hrun.
  cbn [value trace fst snd] in Hloop.
  assert (∀ x, In x positions →
               sale_or_skip PAIR_PRECISION pair_of_coin (fun acc => body acc x)
                            (strong_request PAIR_PRECISION technicals x))
    as Hbody.
  { intros [coin q] _. unfold body, strong_request. simpl.
    destruct (dict_get (usd_pair coin) technicals) as [t|].
    - destruct (negb (recommendation_eqb (signal t) SELL)).
      + by apply (is_skip _ _ _ _ []).
      + destruct (sell t <? STRONG_SELL_THRESHOLD)%Z.
        * by apply (is_skip _ _ _ _ [LogTooWeak coin]).
        * eapply is_sale; [done..|]. intros coin' Heq. symmetry.
          by apply usd_pair_inj.
    - by apply (is_skip _ _ _ _ []). }
  specialize (Hloop Hbody).
  destruct (Qneb tp 0); run.
  all: rewrite !proceeds_of_app, Hloop; unfold proceeds_of; simpl; ring.
Qed.

Lemma execute_weak_sell_rebalancing_proceeds positions technicals
    (s : State World) :
  let r := execute_weak_sell_rebalancing PAIR_PRECISION positions technicals s in
  (value r == proceeds_of (trace r))%Q.
Proof.
  intros r. subst r. unfold execute_weak_sell_rebalancing.
  set (body := fun (acc : Q * Q) (position : string * Q) => _).
  pose proof (sale_loop_proceeds PAIR_PRECISION pair_of_coin body
                (weak_request PAIR_PRECISION technicals)
                positions (0%Q, 0%Q) s) as Hloop.
  run. destruct (for_each body _ positions s) as [[[tr tp] s1] t1] eqn:Hrun.
  cbn [value trace fst snd] in Hloop.
  assert (∀ x, In x positions →
               sale_or_skip PAIR_PRECISION pair_of_coin (fun acc => body acc x)
                            (weak_request PAIR_PRECISION technicals x))
    as Hbody.
  { intros [coin q] _. unfold body, weak_request. simpl.
    destruct (dict_get (usd_pair coin) technicals) as [t|].
    - destruct (sell t <? WEAK_SELL_THRESHOLD)%Z.
      + by apply (is_skip _ _ _ _ []).
      + eapply is_sale; [done..|]. intros coin' Heq. symmetry.
        by apply usd_pair_inj.
    - by apply (is_skip _ _ _ _ []). }
  specialize (Hloop Hbody).
  destruct (Qgtb tr 0); [destruct (Qneb tp 0)|]; run.
  all: rewrite !proceeds_of_app, Hloop; unfold proceeds_of; simpl; ring.
Qed.

Lemma execute_tp_sl_sells_proceeds positions_to_sell sell_reasons
    (s : State World) :
  let r := execute_tp_sl_sells PAIR_PRECISION positions_to_sell sell_reasons s in
  (value r == proceeds_of (trace r))%Q.
Proof.
  intros r. subst r. unfold execute_tp_sl_sells.
  destruct positions_to_sell as [|item0 rest] eqn:Hpos.
  { run. reflexivity. }
  rewrite <- Hpos. clear Hpos.
  set (body := fun (acc : Q * Q) (item : string * Q) => _).
  pose proof (sale_loop_proceeds PAIR_PRECISION coin_of_pair body
                (tp_sl_request PAIR_PRECISION)
                positions_to_sell (0%Q, 0%Q) s) as Hloop.
  run.
  destruct (for_each body _ positions_to_sell s) as [[[tr tp] s1] t1] eqn:Hrun.
  cbn [value trace fst snd] in Hloop.
  assert (∀ x, In x positions_to_sell →
               sale_or_skip PAIR_PRECISION coin_of_pair (fun acc => body acc x)
                            (tp_sl_request PAIR_PRECISION x)) as Hbody.
  { intros [pair q] _. unfold body, tp_sl_request. simpl.
    eapply is_sale; [done..|]. by intros coin' ->. }
  specialize (Hloop Hbody).
  destruct (Qneb tp 0); run.
  all: rewrite !proceeds_of_app, Hloop; unfold proceeds_of; simpl; ring.
Qed.

Lemma quick_loop_proceeds td total positions (s : State World) :
  let r := for_each (quick_check_position PAIR_PRECISION td) total
                    positions s in
  (value r == total + proceeds_of (trace r))%Q.
Proof.
  intros r. subst r.
  pose proof (for_each_inv
                (fun a t (_ : gmap string Entry) =>
                   (a == total + proceeds_of t)%Q)
                (quick_check_position PAIR_PRECISION td) positions) as Hloop.
  apply (Hloop) with (t0 := []);
    [|cbv beta; change (proceeds_of []) with 0%Q; ring].
  intros acc' x s' t' Hx Hacc. cbv beta in Hacc |- *.
  rewrite proceeds_of_app.
  rewrite (quick_check_position_proceeds PAIR_PRECISION td acc' x s').
  rewrite Qplus_assoc. by apply Qplus_comp.
Qed.

Lemma quick_tp_sl_check_and_sell_proceeds (s : State World) :
  let r := quick_tp_sl_check_and_sell PAIR_PRECISION s in
  (value r == proceeds_of (trace r))%Q.
Proof.
  unfold quick_tp_sl_check_and_sell. run.
  destruct (api_get_balance (world s)) as [[b|] w1]; run; [|reflexivity].
  destruct (get_current_positions (Some b)) as [|x0 rest] eqn:Hpos; run;
    [reflexivity|].
  destruct (api_get_ticker w1) as [td w2]; run.
  destruct (no_ticker td); run; [reflexivity|].
  pose proof (quick_loop_proceeds td 0%Q (x0 :: rest)
                (mkState w2 (portfolio s) (saved s))) as Hloop.
  destruct (for_each _ _ (x0 :: rest) _) as [[v s1] t1].
  cbn [value trace fst snd] in Hloop.
  destruct (Qgtb v 0); run.
  all: change (?a :: ?b :: t1 ++ ?c) with ([a; b] ++ t1 ++ c).
  all: rewrite !proceeds_of_app, Hloop; unfold proceeds_of; simpl; ring.
Qed.

(** X16. What a routine that sells returns as revenue is the sum of the
    [UnitChange] of the sell orders the venue filled during the call, an
    order detail without one counting 0. *)
Theorem X16_revenue_is_what_the_venue_reported :
  (∀ (s : State World),
     let r := quick_tp_sl_check_and_sell PAIR_PRECISION s in
     (value r == proceeds_of (trace r))%Q)
  ∧ (∀ positions_to_sell sell_reasons (s : State World),
       let r := execute_tp_sl_sells PAIR_PRECISION positions_to_sell
                                    sell_reasons s in
       (value r == proceeds_of (trace r))%Q)
  ∧ (∀ positions technicals (s : State World),
       let r := execute_sells PAIR_PRECISION positions technicals s in
       (value r == proceeds_of (trace r))%Q)
  ∧ (∀ positions technicals (s : State World),
       let r := execute_weak_sell_rebalancing PAIR_PRECISION positions
                                              technicals s in
       (value r == proceeds_of (trace r))%Q).
Proof.
  split; [exact quick_tp_sl_check_and_sell_proceeds|].
  split; [exact execute_tp_sl_sells_proceeds|].
  split; [exact execute_sells_proceeds
         |exact execute_weak_sell_rebalancing_proceeds].
Qed.
End Revenue.

(** ** The cash the buy phase commits *)

Lemma cost_of_buys_app bs r1 r2 :
  (cost_of_buys bs (r1 ++ r2) == cost_of_buys bs r1 + cost_of_buys bs r2)%Q.
Proof. unfold cost_of_buys. rewrite flat_map_app. apply Qsum_app. Qed.

Lemma cost_of_buys_sells bs requests :
  (∀ o, In o requests → o_side o = SideSell) → cost_of_buys bs requests = 0%Q.
Proof.
  induction requests as [|o rest IH]; intros Hs; [done|].
  unfold cost_of_buys in *. cbn [flat_map].
  rewrite (Hs o) by (by left). cbn [side_eqb app].
  apply IH. intros o' Ho'. apply Hs. by right.
Qed.

Lemma dict_get_nth_error {V : Type} (d : list (string * V)) i k v :
  List.NoDup (map fst d) → nth_error d i = Some (k, v) → dict_get k d = Some v.
Proof.
  revert i. induction d as [|[k0 v0] d IH]; intros i Hnd Hi; [by destruct i|].
  simpl in Hnd. apply List.NoDup_cons_iff in Hnd as [Hk0 Hnd].
  destruct i as [|i]; simpl in Hi.
  - injection Hi as -> ->. simpl. by rewrite String.eqb_refl.
  - simpl. destruct (String.eqb_spec k k0) as [->|Hne]; [|by eapply IH].
    exfalso. apply Hk0. apply in_map_iff. exists (k0, v).
    split; [done|]. by eapply nth_error_In.
Qed.

Lemma strong_buy_signals_NoDup ranked_pairs :
  List.NoDup (map fst ranked_pairs) →
  List.NoDup (map fst (strong_buy_signals ranked_pairs)).
Proof.
  unfold strong_buy_signals.
  induction ranked_pairs as [|x l IH]; simpl; [done|].
  intros Hnd. apply List.NoDup_cons_iff in Hnd as [Hx Hnd].
  rewrite filter_cons. destruct (decide _); [|by apply IH].
  simpl. constructor; [|by apply IH].
  intros Hin. apply Hx. apply in_map_iff in Hin as (y & Hy & Hin).
  apply in_map_iff. exists y. split; [done|].
  by apply list_elem_of_In, list_elem_of_filter in Hin as [_ Hin%list_elem_of_In].
Qed.

Section Budget.
Variable PAIR_PRECISION : gmap string Z.

(** One candidate costs no more than its allocation. *)
Lemma buy_request_cost bs n cash i pair data :
  dict_get pair bs = Some data →
  (0 <= allocation n cash i)%Q →
  (cost_of_buys bs (buy_request PAIR_PRECISION n cash (i, (pair, data)))
   <= allocation n cash i)%Q.
Proof.
  intros Hd Halloc. unfold buy_request. cbn [fst snd].
  destruct (Qltb _ 10); [exact Halloc|].
  destruct (Qleb (price data) 0) eqn:Hprice; [exact Halloc|].
  apply Qleb_false in Hprice.
  destruct (PAIR_PRECISION !! pair) as [precision|]; [|exact Halloc].
  cbv zeta. destruct (Qgtb _ 0); [|exact Halloc].
  unfold cost_of_buys. cbn [flat_map o_side o_pair o_quantity side_eqb app].
  rewrite Hd. cbn [app Qsum fold_right]. rewrite Qplus_0_r.
  eapply Qle_trans.
  - apply Qmult_le_compat_r; [apply truncate_quantity_le|].
    by apply Qlt_le_weak.
  - assert (E : (allocation n cash i / price data * price data
                 == allocation n cash i)%Q).
    { field. intros E. rewrite E in Hprice. by apply Qlt_irrefl in Hprice. }
    rewrite E. apply Qle_refl.
Qed.

Lemma buy_loop_cost bs n cash (candidates : list (nat * (string * TechData))) :
  (∀ c, In c candidates →
        dict_get c.2.1 bs = Some c.2.2 ∧ (0 <= allocation n cash c.1)%Q) →
  (cost_of_buys bs (flat_map (buy_request PAIR_PRECISION n cash) candidates)
   <= Qsum (map (fun c => allocation n cash c.1) candidates))%Q.
Proof.
  induction candidates as [|[i [pair data]] rest IH]; intros Hc.
  - apply Qle_refl.
  - cbn [flat_map map Qsum fold_right]. rewrite cost_of_buys_app.
    apply Qplus_le_compat.
    + destruct (Hc (i, (pair, data))) as [Hd Ha]; [by left|].
      by apply buy_request_cost.
    + apply IH. intros c Hin. apply Hc. by right.
Qed.
End Budget.

Lemma enumerate_fst {A : Type} (l : list A) :
  map fst (enumerate l) = seq 0 (length l).
Proof.
  unfold enumerate. generalize 0%nat.
  induction l as [|x l IH]; intros k; simpl; [done|]. by rewrite IH.
Qed.

Section Reserve.
Context {World : Type} `{Api World}.
Variable PAIR_PRECISION : gmap string Z.

(** X17. [execute_buys] submits no buy order when the cash to invest is
    at most 10, and otherwise buy orders that, at the prices of the
    candidates they were sized with, cost no more than the cash to invest
    together: the available cash and the revenue of the funding sales,
    less the reserve. *)
Theorem X17_buys_stay_within_the_cash available_cash ranked_pairs positions
    technicals (s : State World) :
  List.NoDup (map fst ranked_pairs) →
  let r := execute_buys PAIR_PRECISION available_cash ranked_pairs positions
                        technicals s in
  let buy_signals := strong_buy_signals ranked_pairs in
  let cash_to_invest :=
    cash_to_invest_of PAIR_PRECISION available_cash positions technicals s in
  ((cash_to_invest <= 10)%Q →
   ∀ o, In o (requests_of (trace r)) → o_side o = SideSell)
  ∧ ((10 < cash_to_invest)%Q →
     (cost_of_buys buy_signals (requests_of (trace r)) <= cash_to_invest)%Q).
Proof.
  intros Hnd r buy_signals cash. subst r.
  destruct (execute_buys_facts PAIR_PRECISION available_cash ranked_pairs
              positions technicals s) as (Hr & _).
  fold buy_signals cash in Hr. rewrite Hr.
  assert (Hweak : ∀ o, In o (flat_map (weak_request PAIR_PRECISION technicals)
                                      positions) → o_side o = SideSell).
  { intros o Hin. apply in_flat_map in Hin as ([coin q] & _ & Ho).
    by apply weak_request_In in Ho as (t & precision & _ & _ & _ & _ & ->). }
  split.
  - intros Hlow o Hin. destruct buy_signals; [done|].
    rewrite (proj2 (Qleb_true _ _) Hlow), app_nil_r in Hin. by apply Hweak.
  - intros Hhigh.
    assert (Hcash : (0 <= cash)%Q).
    { apply Qlt_le_weak. eapply Qlt_trans; [|exact Hhigh]. reflexivity. }
    destruct buy_signals as [|c0 rest] eqn:Hbs; [exact Hcash|].
    rewrite <- Hbs in *.
    rewrite (proj2 (Qleb_false _ _) Hhigh).
    rewrite cost_of_buys_app, (cost_of_buys_sells _ _ Hweak), Qplus_0_l.
    eapply Qle_trans.
    + apply buy_loop_cost. intros [i [pair data]] Hin. cbn [fst snd].
      apply enumerate_In in Hin. split.
      * eapply dict_get_nth_error; [|exact Hin].
        by apply strong_buy_signals_NoDup.
      * apply allocation_nonneg; [|done].
        apply nth_error_Some. by rewrite Hin.
    + rewrite <- (map_map fst (allocation (length buy_signals) cash)).
      rewrite enumerate_fst, allocation_sum; [apply Qle_refl|].
      rewrite Hbs. simpl. lia.
Qed.
End Reserve.

(** ** What every routine keeps *)

Section Frame.
Context {World : Type} `{Api World}.
Variable PAIR_PRECISION : gmap string Z.
Variable R : State World → State World → Prop.
Hypothesis R_refl : ∀ s, R s s.
Hypothesis R_trans : ∀ s1 s2 s3, R s1 s2 → R s2 s3 → R s1 s3.
Hypothesis R_world : ∀ s w, R s (mkState w (portfolio s) (saved s)).
Hypothesis R_zero : ∀ coin s, R s (final (zero_and_save coin s)).
Hypothesis R_buy : ∀ pair q p0 s,
  (0 < q)%Q → (0 < p0)%Q → R s (final (update_portfolio_on_buy pair q p0 s)).

Lemma keeps_ret {A : Type} (a : A) : keeps R (ret a).
Proof. intros s. apply R_refl. Qed.

Lemma keeps_bind {A B : Type} (k : A → M World B) (m : M World A) :
  keeps R m → (∀ a, keeps R (k a)) → keeps R (bind k m).
Proof.
  intros Hm Hk s. rewrite bind_run. cbn [final fst snd].
  eapply R_trans; [apply Hm | apply Hk].
Qed.

Lemma keeps_log m : keeps R (log m).
Proof. intros s. apply R_refl. Qed.

Lemma keeps_get_portfolio : keeps R get_portfolio.
Proof. intros s. apply R_refl. Qed.

Lemma keeps_get_balance : keeps R get_balance.
Proof.
  intros s. unfold get_balance.
  destruct (api_get_balance (world s)) as [r w]. apply R_world.
Qed.

Lemma keeps_get_ticker : keeps R get_ticker.
Proof.
  intros s. unfold get_ticker.
  destruct (api_get_ticker (world s)) as [r w]. apply R_world.
Qed.

Lemma keeps_get_all_technicals pairs : keeps R (get_all_technicals pairs).
Proof.
  intros s. unfold get_all_technicals.
  destruct (api_get_all_technicals pairs (world s)) as [r w]. apply R_world.
Qed.

Lemma keeps_place_order pair side q : keeps R (place_order pair side q).
Proof.
  intros s. unfold place_order.
  destruct (api_place_order pair side q (world s)) as [r w]. apply R_world.
Qed.

Lemma keeps_zero_if_recorded coin : keeps R (zero_if_recorded coin).
Proof.
  intros s. unfold zero_if_recorded. run.
  destruct (portfolio s !! coin); [apply R_zero | apply R_refl].
Qed.

Lemma keeps_for_each {A B : Type} (body : B → A → M World B) acc l :
  (∀ acc x, keeps R (body acc x)) → keeps R (for_each body acc l).
Proof.
  intros Hbody. revert acc. induction l as [|x l IH]; intros acc.
  - apply keeps_ret.
  - cbn [for_each]. apply keeps_bind; [apply Hbody | intros a; apply IH].
Qed.

Lemma keeps_zero_and_save coin : keeps R (zero_and_save coin).
Proof. intros s. apply R_zero. Qed.

Lemma keeps_update_portfolio_on_buy pair q p0 :
  Qgtb q 0 = true → Qleb p0 0 = false →
  keeps R (update_portfolio_on_buy pair q p0).
Proof.
  intros Hq Hp s. apply R_buy; [by apply Qgtb_true | by apply Qleb_false].
Qed.

Ltac keeps_with known :=
  unfold mbind, M_bind, mret, M_ret; cbv zeta;
  repeat (first
    [ known
    | apply keeps_ret | apply keeps_log | apply keeps_get_portfolio
    | apply keeps_get_balance | apply keeps_get_ticker
    | apply keeps_get_all_technicals | apply keeps_place_order
    | apply keeps_zero_if_recorded | apply keeps_zero_and_save
    | by apply keeps_update_portfolio_on_buy
    | apply keeps_for_each
    | apply keeps_bind
    | progress intros
    | match goal with
      | |- keeps _ (match ?x with _ => _ end) => destruct x eqn:?
      end
    | match goal with
      | |- keeps _ (if ?x then _ else _) => destruct x eqn:?
      end
    | progress cbv beta
    | case_match ];
    unfold mbind, M_bind, mret, M_ret; cbv zeta).

Lemma keeps_sell_truncated kind coin pair q acc :
  keeps R (sell_truncated PAIR_PRECISION kind coin pair q acc).
Proof. unfold sell_truncated. keeps_with fail. Qed.

Lemma keeps_quick_sell label coin pair q total :
  keeps R (quick_sell PAIR_PRECISION label coin pair q total).
Proof. unfold quick_sell. keeps_with fail. Qed.

Lemma keeps_quick_check_position td total position :
  keeps R (quick_check_position PAIR_PRECISION td total position).
Proof.
  unfold quick_check_position. keeps_with ltac:(apply keeps_quick_sell).
Qed.

Lemma keeps_quick_tp_sl_check_and_sell :
  keeps R (quick_tp_sl_check_and_sell PAIR_PRECISION).
Proof.
  unfold quick_tp_sl_check_and_sell.
  keeps_with ltac:(apply keeps_quick_check_position).
Qed.

Lemma keeps_get_holdings_to_sell_for_tp_sl balance_data technicals :
  keeps R (get_holdings_to_sell_for_tp_sl balance_data technicals).
Proof. unfold get_holdings_to_sell_for_tp_sl. keeps_with fail. Qed.

Lemma keeps_execute_tp_sl_sells positions_to_sell sell_reasons :
  keeps R (execute_tp_sl_sells PAIR_PRECISION positions_to_sell sell_reasons).
Proof.
  unfold execute_tp_sl_sells. keeps_with ltac:(apply keeps_sell_truncated).
Qed.

Lemma keeps_execute_sells positions technicals :
  keeps R (execute_sells PAIR_PRECISION positions technicals).
Proof.
  unfold execute_sells. keeps_with ltac:(apply keeps_sell_truncated).
Qed.

Lemma keeps_execute_weak_sell_rebalancing positions technicals :
  keeps R (execute_weak_sell_rebalancing PAIR_PRECISION positions technicals).
Proof.
  unfold execute_weak_sell_rebalancing.
  keeps_with ltac:(apply keeps_sell_truncated).
Qed.

Lemma keeps_buy_candidate n cash u candidate :
  keeps R (buy_candidate PAIR_PRECISION n cash u candidate).
Proof. unfold buy_candidate. keeps_with fail. Qed.

Lemma keeps_execute_buys available_cash ranked_pairs positions technicals :
  keeps R (execute_buys PAIR_PRECISION available_cash ranked_pairs positions
                        technicals).
Proof.
  unfold execute_buys.
  keeps_with ltac:(first [ apply keeps_execute_weak_sell_rebalancing
                         | apply keeps_buy_candidate ]).
Qed.

Lemma keeps_trading_cycle : keeps R (trading_cycle PAIR_PRECISION).
Proof.
  unfold trading_cycle.
  keeps_with ltac:(first [ apply keeps_get_holdings_to_sell_for_tp_sl
                         | apply keeps_execute_tp_sl_sells
                         | apply keeps_execute_sells
                         | apply keeps_execute_buys ]).
Qed.

Lemma keeps_main_iteration l : keeps R (main_iteration PAIR_PRECISION l).
Proof.
  unfold main_iteration.
  keeps_with ltac:(first [ apply keeps_trading_cycle
                         | apply keeps_quick_tp_sl_check_and_sell ]).
Qed.

Lemma keeps_main_loop n l : keeps R (main_loop PAIR_PRECISION n l).
Proof.
  revert l. induction n as [|n IH]; intros l; cbn [main_loop].
  - apply keeps_ret.
  - apply keeps_bind; [apply keeps_main_iteration | exact IH].
Qed.
End Frame.

Section Invariants.
Context {World : Type} `{Api World}.
Variable PAIR_PRECISION : gmap string Z.

Lemma persisted_trans (s1 s2 s3 : State World) :
  persisted s1 s2 → persisted s2 s3 → persisted s1 s3.
Proof.
  intros [H12|[Hp12 Hs12]] [H23|[Hp23 Hs23]].
  - by left.
  - left. by rewrite Hp23, Hs23.
  - by left.
  - right. split; congruence.
Qed.

Lemma main_loop_persisted n l (s : State World) :
  persisted s (final (main_loop PAIR_PRECISION n l s)).
Proof.
  apply (keeps_main_loop PAIR_PRECISION persisted).
  - intros s0. by right.
  - apply persisted_trans.
  - intros s0 w. by right.
  - intros coin s0. by left.
  - intros pair q p0 s0 _ _. by left.
Qed.

(** X18. Through any number of passes of [main] the file follows the
    ledger: when they end, [portfolio.json] holds the ledger as it is in
    memory, or neither was written; so a ledger that was on file at the
    start is on file at the end. *)
Theorem X18_the_file_follows_the_ledger :
  (∀ n l (s : State World),
     persisted s (final (main_loop PAIR_PRECISION n l s)))
  ∧ (∀ n l (s : State World),
       saved s = portfolio s →
       saved (final (main_loop PAIR_PRECISION n l s))
       = portfolio (final (main_loop PAIR_PRECISION n l s))).
Proof.
  split; [apply main_loop_persisted|].
  intros n l s Hs.
  destruct (main_loop_persisted n l s) as [Hsaved|[Hp Hf]]; [done|].
  by rewrite Hp, Hf.
Qed.

Lemma sane_alter_zeroed coin p : sane p → sane (alter zeroed coin p).
Proof.
  intros Hs c e He. destruct (decide (coin = c)) as [->|Hne].
  - rewrite lookup_alter_eq in He.
    destruct (p !! c) as [e0|] eqn:Hc; simpl in He; [|done].
    injection He as <-. simpl. split; [apply Qle_refl|]. by eapply Hs.
  - rewrite lookup_alter_ne in He by done. by eapply Hs.
Qed.

Lemma keeps_basis_alter_zeroed coin p : keeps_basis p (alter zeroed coin p).
Proof.
  intros c e He Hpos. destruct (decide (coin = c)) as [->|Hne].
  - exists (zeroed e). by rewrite lookup_alter_eq, He.
  - exists e. by rewrite lookup_alter_ne.
Qed.

Lemma ledger_on_buy_basis coin q p0 t p :
  sane p → (0 < q)%Q → (0 < p0)%Q →
  ∃ e', ledger_on_buy coin q p0 t p !! coin = Some e'
        ∧ (0 < quantity e')%Q ∧ (0 < buy_price e')%Q.
Proof.
  intros Hs Hq Hp0. unfold ledger_on_buy.
  rewrite lookup_insert_eq. eexists. split; [reflexivity|].
  cbn [quantity buy_price].
  set (old := match p !! coin with Some e => e | None => mkEntry 0 0 None end).
  assert (Hold : (0 <= quantity old)%Q ∧ (0 <= buy_price old)%Q).
  { unfold old. destruct (p !! coin) as [e|] eqn:He; [by eapply Hs|].
    split; apply Qle_refl. }
  destruct Hold as [Hn Ha].
  assert (Hpos : (0 < quantity old + q)%Q).
  { rewrite Qplus_comm, <- (Qplus_0_l 0). by apply Qplus_lt_le_compat. }
  split; [exact Hpos|].
  rewrite (proj2 (Qgtb_true _ _) Hpos).
  apply Qlt_shift_div_l; [exact Hpos|]. rewrite Qmult_0_l.
  rewrite Qplus_comm, <- (Qplus_0_l 0). apply Qplus_lt_le_compat.
  - by apply Qmult_lt_0_compat.
  - by apply Qmult_le_0_compat.
Qed.

Lemma sane_ledger_on_buy coin q p0 t p :
  sane p → (0 < q)%Q → (0 < p0)%Q → sane (ledger_on_buy coin q p0 t p).
Proof.
  intros Hs Hq Hp0 c e He. destruct (decide (coin = c)) as [->|Hne].
  - destruct (ledger_on_buy_basis c q p0 t p Hs Hq Hp0) as (e' & He' & Hn & Ha).
    rewrite He' in He. injection He as <-. split; by apply Qlt_le_weak.
  - rewrite ledger_on_buy_other in He by done. by eapply Hs.
Qed.

Lemma keeps_basis_ledger_on_buy coin q p0 t p :
  sane p → (0 < q)%Q → (0 < p0)%Q →
  keeps_basis p (ledger_on_buy coin q p0 t p).
Proof.
  intros Hs Hq Hp0 c e He Hpos. destruct (decide (coin = c)) as [->|Hne].
  - destruct (ledger_on_buy_basis c q p0 t p Hs Hq Hp0) as (e' & He' & _ & Ha).
    by exists e'.
  - exists e. by rewrite ledger_on_buy_other.
Qed.

Lemma keeps_basis_trans p1 p2 p3 :
  keeps_basis p1 p2 → keeps_basis p2 p3 → keeps_basis p1 p3.
Proof.
  intros H12 H23 c e He Hpos.
  destruct (H12 c e He Hpos) as (e2 & He2 & Hpos2). by eapply H23.
Qed.

Lemma main_loop_sane n l (s : State World) :
  sane (portfolio s) →
  sane (portfolio (final (main_loop PAIR_PRECISION n l s)))
  ∧ keeps_basis (portfolio s)
                (portfolio (final (main_loop PAIR_PRECISION n l s))).
Proof.
  apply (keeps_main_loop PAIR_PRECISION
           (fun s s' : State World =>
              sane (portfolio s) →
              sane (portfolio s') ∧ keeps_basis (portfolio s) (portfolio s'))).
  - intros s0 Hs. split; [done|]. intros c e He Hpos. by exists e.
  - intros s1 s2 s3 H12 H23 Hs.
    destruct (H12 Hs) as [Hs2 Hk12]. destruct (H23 Hs2) as [Hs3 Hk23].
    split; [done|]. by eapply keeps_basis_trans.
  - intros s0 w Hs. split; [done|]. intros c e He Hpos. by exists e.
  - intros coin s0 Hs. unfold zero_and_save. run.
    split; [by apply sane_alter_zeroed | apply keeps_basis_alter_zeroed].
  - intros pair q p0 s0 Hq Hp0 Hs. unfold update_portfolio_on_buy. run.
    split; [by apply sane_ledger_on_buy | by apply keeps_basis_ledger_on_buy].
Qed.

(** X19. A ledger without negative quantities and costs stays one
    through any number of passes of [main], and an instrument with a
    positive cost basis keeps a positive one; and a fill of a positive
    quantity at a positive price leaves its instrument an entry of positive
    quantity and cost. *)
Theorem X19_ledger_figures_stay_sound :
  (∀ n l (s : State World),
     sane (portfolio s) →
     sane (portfolio (final (main_loop PAIR_PRECISION n l s)))
     ∧ keeps_basis (portfolio s)
                   (portfolio (final (main_loop PAIR_PRECISION n l s))))
  ∧ (∀ (s : State World) pair fill_qty fill_price,
       sane (portfolio s) → (0 < fill_qty)%Q → (0 < fill_price)%Q →
       ∃ e',
         portfolio (final (update_portfolio_on_buy pair fill_qty fill_price s))
         !! split_coin pair = Some e'
         ∧ (0 < quantity e')%Q ∧ (0 < buy_price e')%Q).
Proof.
  split; [apply main_loop_sane|].
  intros s pair q p0 Hs Hq Hp0. unfold update_portfolio_on_buy. run.
  by apply ledger_on_buy_basis.
Qed.
End Invariants.

(** ** No write without a fill *)

Section Fills.
Context {World : Type} `{Api World}.
Variable PAIR_PRECISION : gmap string Z.

Local Abbreviation T := (@written_on_fills World).

Lemma written_on_fills_app (s1 s2 s3 : State World) t1 t2 :
  T s1 s2 t1 → T s2 s3 t2 → T s1 s3 (t1 ++ t2).
Proof.
  intros H12 H23 Hno.
  destruct H12 as [Hp1 Hs1].
  { intros o d Hin. apply (Hno o d), in_app_iff. by left. }
  destruct H23 as [Hp2 Hs2].
  { intros o d Hin. apply (Hno o d), in_app_iff. by right. }
  split; congruence.
Qed.

Lemma obeys_ret {A : Type} (a : A) : obeys T (ret a).
Proof. by intros s _. Qed.

Lemma obeys_bind {A B : Type} (k : A → M World B) (m : M World A) :
  obeys T m → (∀ a, obeys T (k a)) → obeys T (bind k m).
Proof.
  intros Hm Hk s. rewrite bind_run. cbn [final trace fst snd].
  eapply written_on_fills_app; [apply Hm | apply Hk].
Qed.

Lemma obeys_log m : obeys T (log m).
Proof. by intros s _. Qed.

Lemma obeys_get_portfolio : obeys T get_portfolio.
Proof. by intros s _. Qed.

Lemma obeys_get_balance : obeys T get_balance.
Proof.
  intros s _. unfold get_balance. by destruct (api_get_balance (world s)).
Qed.

Lemma obeys_get_ticker : obeys T get_ticker.
Proof.
  intros s _. unfold get_ticker. by destruct (api_get_ticker (world s)).
Qed.

Lemma obeys_get_all_technicals pairs : obeys T (get_all_technicals pairs).
Proof.
  intros s _. unfold get_all_technicals.
  by destruct (api_get_all_technicals pairs (world s)).
Qed.

(** After an order, only what follows a rejection matters. *)
Lemma obeys_place_order {B : Type} pair side q (k : OrderResult → M World B) :
  (∀ err_msg, obeys T (k (Rejected err_msg))) →
  obeys T (bind k (place_order pair side q)).
Proof.
  intros Hk s. rewrite bind_run. unfold place_order.
  destruct (api_place_order pair side q (world s)) as [[d|err_msg] w];
    cbn [value final trace fst snd].
  - intros Hno. exfalso. apply (Hno (mkOrder pair side q) d). by left.
  - intros Hno. apply (Hk err_msg (mkState w (portfolio s) (saved s))).
    intros o d Hin. apply (Hno o d). by right.
Qed.

Lemma obeys_for_each {A B : Type} (body : B → A → M World B) acc l :
  (∀ acc x, obeys T (body acc x)) → obeys T (for_each body acc l).
Proof.
  intros Hbody. revert acc. induction l as [|x l IH]; intros acc.
  - apply obeys_ret.
  - cbn [for_each]. apply obeys_bind; [apply Hbody | intros a; apply IH].
Qed.

Ltac obeys_with known :=
  unfold mbind, M_bind, mret, M_ret; cbv zeta;
  repeat (first
    [ known
    | apply obeys_ret | apply obeys_log | apply obeys_get_portfolio
    | apply obeys_get_balance | apply obeys_get_ticker
    | apply obeys_get_all_technicals
    | apply obeys_place_order
    | apply obeys_for_each
    | apply obeys_bind
    | progress intros
    | match goal with
      | |- obeys _ (match ?x with _ => _ end) => destruct x eqn:?
      end
    | match goal with
      | |- obeys _ (if ?x then _ else _) => destruct x eqn:?
      end
    | progress cbv beta
    | case_match ];
    unfold mbind, M_bind, mret, M_ret; cbv zeta).

Lemma obeys_sell_truncated kind coin pair q acc :
  obeys T (sell_truncated PAIR_PRECISION kind coin pair q acc).
Proof. unfold sell_truncated. obeys_with fail. Qed.

Lemma obeys_quick_sell label coin pair q total :
  obeys T (quick_sell PAIR_PRECISION label coin pair q total).
Proof. unfold quick_sell. obeys_with fail. Qed.

Lemma obeys_quick_check_position td total position :
  obeys T (quick_check_position PAIR_PRECISION td total position).
Proof.
  unfold quick_check_position. obeys_with ltac:(apply obeys_quick_sell).
Qed.

Lemma obeys_quick_tp_sl_check_and_sell :
  obeys T (quick_tp_sl_check_and_sell PAIR_PRECISION).
Proof.
  unfold quick_tp_sl_check_and_sell.
  obeys_with ltac:(apply obeys_quick_check_position).
Qed.

Lemma obeys_get_holdings_to_sell_for_tp_sl balance_data technicals :
  obeys T (get_holdings_to_sell_for_tp_sl balance_data technicals).
Proof. unfold get_holdings_to_sell_for_tp_sl. obeys_with fail. Qed.

Lemma obeys_execute_tp_sl_sells positions_to_sell sell_reasons :
  obeys T (execute_tp_sl_sells PAIR_PRECISION positions_to_sell sell_reasons).
Proof.
  unfold execute_tp_sl_sells. obeys_with ltac:(apply obeys_sell_truncated).
Qed.

Lemma obeys_execute_sells positions technicals :
  obeys T (execute_sells PAIR_PRECISION positions technicals).
Proof.
  unfold execute_sells. obeys_with ltac:(apply obeys_sell_truncated).
Qed.

Lemma obeys_execute_weak_sell_rebalancing positions technicals :
  obeys T (execute_weak_sell_rebalancing PAIR_PRECISION positions technicals).
Proof.
  unfold execute_weak_sell_rebalancing.
  obeys_with ltac:(apply obeys_sell_truncated).
Qed.

Lemma obeys_buy_candidate n cash u candidate :
  obeys T (buy_candidate PAIR_PRECISION n cash u candidate).
Proof. unfold buy_candidate. obeys_with fail. Qed.

Lemma obeys_execute_buys available_cash ranked_pairs positions technicals :
  obeys T (execute_buys PAIR_PRECISION available_cash ranked_pairs positions
                        technicals).
Proof.
  unfold execute_buys.
  obeys_with ltac:(first [ apply obeys_execute_weak_sell_rebalancing
                         | apply obeys_buy_candidate ]).
Qed.

Lemma obeys_trading_cycle : obeys T (trading_cycle PAIR_PRECISION).
Proof.
  unfold trading_cycle.
  obeys_with ltac:(first [ apply obeys_get_holdings_to_sell_for_tp_sl
                         | apply obeys_execute_tp_sl_sells
                         | apply obeys_execute_sells
                         | apply obeys_execute_buys ]).
Qed.

Lemma obeys_main_iteration l : obeys T (main_iteration PAIR_PRECISION l).
Proof.
  unfold main_iteration.
  obeys_with ltac:(first [ apply obeys_trading_cycle
                         | apply obeys_quick_tp_sl_check_and_sell ]).
Qed.

Lemma obeys_main_loop n l : obeys T (main_loop PAIR_PRECISION n l).
Proof.
  revert l. induction n as [|n IH]; intros l; cbn [main_loop].
  - apply obeys_ret.
  - apply obeys_bind; [apply obeys_main_iteration | exact IH].
Qed.

(** X20. Through any number of passes of [main], the ledger and its file
    are written only when the venue has filled an order: a run in which it
    filled none leaves both as they were. *)
Theorem X20_no_fill_no_write (n : nat) (l : Loop) (s : State World) :
  let r := main_loop PAIR_PRECISION n l s in
  (∀ o d, ¬ In (Ordered o (Filled d)) (trace r)) →
  portfolio (final r) = portfolio s ∧ saved (final r) = saved s.
Proof. intros r. apply obeys_main_loop. Qed.
End Fills.

(** ** The setup *)

Lemma learn_rules_lookup trade_pairs table pair :
  List.NoDup (map fst trade_pairs) →
  learn_rules trade_pairs table !! pair
  = match dict_get pair trade_pairs with
    | Some details =>
        match AmountPrecision details with
        | Some precision => Some precision
        | None => table !! pair
        end
    | None => table !! pair
    end.
Proof.
  unfold learn_rules. revert table.
  induction trade_pairs as [|[k d] l IH]; intros table Hnd; [done|].
  simpl in Hnd. apply List.NoDup_cons_iff in Hnd as [Hk Hnd].
  cbn [fold_left fst snd dict_get]. rewrite IH by done.
  destruct (String.eqb_spec pair k) as [->|Hne].
  - (* the pair is not met again *)
    assert (Hnone : dict_get k l = None).
    { destruct (dict_get k l) eqn:E; [|done]. exfalso. apply Hk.
      apply dict_get_Some_In in E. apply in_map_iff. by exists (k, p). }
    rewrite Hnone. destruct (AmountPrecision d); [|done].
    by rewrite lookup_insert_eq.
  - destruct (dict_get pair l) as [d'|].
    + destruct (AmountPrecision d'); [done|].
      destruct (AmountPrecision d); [|done]. by rewrite lookup_insert_ne.
    + destruct (AmountPrecision d); [|done]. by rewrite lookup_insert_ne.
Qed.

Lemma learn_rules_origin trade_pairs table pair precision :
  learn_rules trade_pairs table !! pair = Some precision →
  (∃ details, In (pair, details) trade_pairs
              ∧ AmountPrecision details = Some precision)
  ∨ table !! pair = Some precision.
Proof.
  unfold learn_rules. revert table.
  induction trade_pairs as [|[k d] l IH]; intros table Hl; [by right|].
  cbn [fold_left fst snd] in Hl. apply IH in Hl as [(d' & Hin & Hp)|Hl].
  - left. exists d'. split; [by right | done].
  - destruct (AmountPrecision d) as [p|] eqn:Hd; [|by right].
    destruct (decide (k = pair)) as [->|Hne].
    + rewrite lookup_insert_eq in Hl. injection Hl as ->.
      left. exists d. split; [by left | done].
    + rewrite lookup_insert_ne in Hl by done. by right.
Qed.

Lemma learn_rules_grows trade_pairs table pair :
  is_Some (table !! pair) → is_Some (learn_rules trade_pairs table !! pair).
Proof.
  unfold learn_rules. revert table.
  induction trade_pairs as [|[k d] l IH]; intros table Hs; [done|].
  cbn [fold_left fst snd]. apply IH.
  destruct (AmountPrecision d); [|done].
  destruct (decide (k = pair)) as [->|Hne];
    [by rewrite lookup_insert_eq | by rewrite lookup_insert_ne].
Qed.

Section Starting.
Context {World : Type} `{Api World} `{Setup World}.

Lemma load_exchange_rules_run table (s : State World) :
  load_exchange_rules table s
  = let info := (api_get_exchange_info (world s)).1 in
    let s1 := mkState (api_get_exchange_info (world s)).2 (portfolio s)
                      (saved s) in
    match info with
    | Some (mkInfo (item :: rest)) =>
        ((true, learn_rules (item :: rest) table), s1,
         [Logged (LogText "Loading exchange trading rules");
          Logged (LogText "Successfully loaded trading rules")])
    | _ =>
        ((false, table), s1,
         [Logged (LogText "Loading exchange trading rules");
          Logged (LogText
                    "CRITICAL: Could not load exchange trading rules")])
    end.
Proof.
  unfold load_exchange_rules, get_exchange_info. run.
  destruct (api_get_exchange_info (world s)) as [[[[|item rest]]|] w]; by run.
Qed.

Lemma load_exchange_rules_ledger table (s : State World) :
  portfolio (final (load_exchange_rules table s)) = portfolio s
  ∧ saved (final (load_exchange_rules table s)) = saved s.
Proof.
  rewrite load_exchange_rules_run. cbv zeta.
  by destruct (api_get_exchange_info (world s)) as [[[[|item rest]]|] w].
Qed.

(** X21. [load_exchange_rules] returns [True] exactly when the exchange
    information came and names a pair, whether or not a precision was
    found in it; when it returns [False] the table is as it was; from
    exchange information it takes the precision of every pair that has
    one and leaves the other pairs as the table had them; no pair leaves
    the table; the ledger and its file are not touched. *)
Theorem X21_rules_as_the_exchange_gives_them table (s : State World) :
  let r := load_exchange_rules table s in
  let info := (api_get_exchange_info (world s)).1 in
  ((value r).1 = true ↔ ∃ i, info = Some i ∧ TradePairs i ≠ [])
  ∧ ((value r).1 = false → (value r).2 = table)
  ∧ (∀ i pair,
       info = Some i → List.NoDup (map fst (TradePairs i)) →
       (value r).2 !! pair
       = match dict_get pair (TradePairs i) with
         | Some details =>
             match AmountPrecision details with
             | Some precision => Some precision
             | None => table !! pair
             end
         | None => table !! pair
         end)
  ∧ (∀ pair, is_Some (table !! pair) → is_Some ((value r).2 !! pair))
  ∧ portfolio (final r) = portfolio s ∧ saved (final r) = saved s.
Proof.
  intros r info. subst r. rewrite load_exchange_rules_run. fold info.
  destruct info as [[[|item rest]]|] eqn:Hinfo; cbn [value final fst snd
    portfolio saved].
  - split; [split; [done | by intros (i & [= <-] & Hne)]|].
    split; [done|]. split; [by intros i pair [= <-] _|]. done.
  - split; [split; [by eexists | done]|].
    split; [done|]. split; [|split; [|done]].
    + intros i pair [= <-] Hnd. by apply learn_rules_lookup.
    + intros pair. apply learn_rules_grows.
  - split; [split; [done | by intros (i & [=] & _)]|].
    split; [done|]. split; [by intros i pair [=]|]. done.
Qed.
End Starting.

Section Main.
Context {World : Type} `{Api World} `{Setup World}.

(** The state the loop of [main] starts from: the world as
    [get_exchange_info] left it, and the ledger that is on file. *)
Lemma main_run (n : nat) (s : State World) :
  let r0 := load_exchange_rules ∅ s in
  let s1 := mkState (world (final r0)) (saved s) (saved s) in
  let r := main_loop (value r0).2 n main_start s1 in
  main n s
  = if (value r0).1
    then (Some (value r), final r,
          [Logged (LogText "ROOSTOO TRADINGVIEW ALGO TRADING BOT STARTED")]
          ++ trace r0
          ++ [Logged (LogText "Bot is now in LIVE API mode");
              Logged (LogText "Monitoring pairs");
              Logged (LogText "Quick TP/SL check every");
              Logged (LogText "Full trading cycle every")]
          ++ trace r)
    else (None, final r0,
          [Logged (LogText "ROOSTOO TRADINGVIEW ALGO TRADING BOT STARTED")]
          ++ trace r0).
Proof.
  intros r0 s1 r. subst r s1 r0. unfold main, load_portfolio. run.
  rewrite load_exchange_rules_run.
  destruct (api_get_exchange_info (world s)) as [[[[|item rest]]|] w];
    cbn [fst snd negb value final trace world portfolio saved]; try done.
  destruct (main_loop _ n main_start _) as [[l s2] t2].
  cbn [fst snd value final trace]. by rewrite app_nil_r.
Qed.

(** X22. Every order that [main] submits, in any number of passes, is of
    a pair for which the exchange information that [main] loaded names a
    precision, for a positive quantity cut to that precision; without
    exchange information it submits none. *)
Theorem X22_orders_follow_the_exchange_information (n : nat)
    (s : State World) o :
  In o (requests_of (trace (main n s))) →
  ∃ i details precision quantity,
    (api_get_exchange_info (world s)).1 = Some i
    ∧ In (o_pair o, details) (TradePairs i)
    ∧ AmountPrecision details = Some precision
    ∧ o_quantity o = truncate_quantity quantity precision
    ∧ (0 < o_quantity o)%Q.
Proof.
  intros Hin. rewrite main_run in Hin. cbv zeta in Hin.
  rewrite load_exchange_rules_run in Hin. cbv zeta in Hin.
  destruct (api_get_exchange_info (world s)) as [[[[|item rest]]|] w];
    cbn [fst snd value final trace world] in Hin;
    try (unfold requests_of in Hin; simpl in Hin; by destruct Hin).
  rewrite !requests_of_app in Hin.
  change (requests_of [_]) with (@nil Order) in Hin.
  change (requests_of [_; _]) with (@nil Order) in Hin.
  change (requests_of [_; _; _; _]) with (@nil Order) in Hin.
  cbn [app] in Hin.
  apply main_loop_well_formed in Hin as (precision & q & Hp & Hq & Hpos).
  apply learn_rules_origin in Hp as [(details & Hd & Hp)|Hp];
    [|by rewrite lookup_empty in Hp].
  exists (mkInfo (item :: rest)), details, precision, q. by cbn [fst TradePairs].
Qed.

(** X23. When the rules cannot be loaded [main] ends without an order
    and without touching the ledger or its file.  Otherwise its loop
    starts from the ledger on file, no instrument on file leaves the
    ledger, and after any number of passes the file holds the ledger, so
    that [load_portfolio] gives it back. *)
Theorem X23_main_starts_from_the_file_and_keeps_it (n : nat)
    (s : State World) :
  let r := main n s in
  (value r = None →
   requests_of (trace r) = []
   ∧ portfolio (final r) = portfolio s ∧ saved (final r) = saved s)
  ∧ (value r ≠ None →
     saved (final r) = portfolio (final r)
     ∧ value (load_portfolio (final r)) = portfolio (final r)
     ∧ ∀ coin, is_Some (saved s !! coin) →
               is_Some (portfolio (final r) !! coin)).
Proof.
  intros r. subst r. rewrite main_run. cbv zeta.
  destruct (load_exchange_rules_ledger ∅ s) as [Hp Hs].
  destruct ((value (load_exchange_rules ∅ s)).1) eqn:Hok;
    cbn [value final trace fst snd].
  - split; [done|]. intros _.
    set (s1 := mkState _ (saved s) (saved s)).
    assert (Hsaved : saved (final (main_loop (value (load_exchange_rules ∅ s)).2
                                      n main_start s1))
                     = portfolio (final (main_loop
                                           (value (load_exchange_rules ∅ s)).2
                                           n main_start s1))).
    { destruct (main_loop_persisted (value (load_exchange_rules ∅ s)).2
                  n main_start s1) as [Hsv|[Hp1 Hs1]]; [done|].
      by rewrite Hp1, Hs1. }
    split; [done|]. split; [done|].
    intros coin Hc.
    by apply (main_loop_retains (value (load_exchange_rules ∅ s)).2
                n main_start s1 coin).
  - split; [|done]. intros _. split; [|done].
    rewrite requests_of_app.
    rewrite load_exchange_rules_run. cbv zeta.
    by destruct (api_get_exchange_info (world s)) as [[[[|item rest]]|] w].
Qed.
End Main.

(** ** The technical-analysis source *)

Section Found.
Import Technicals.

Lemma found_score results exchange p t :
  found results exchange p = Some t → score t = (buy t - sell t)%Z.
Proof.
  unfold found. destruct (results !! _) as [[analysis|]|]; [|done..].
  destruct (summary analysis); [|done]. by intros [= <-].
Qed.

Lemma dict_set_get_is_Some {V : Type} (k k' : string) (v : V) d :
  is_Some (dict_get k d) → is_Some (dict_get k (dict_set k' v d)).
Proof.
  destruct (String.eqb_spec k k') as [->|Hne].
  - by rewrite dict_get_set_eq.
  - by rewrite dict_get_set_ne.
Qed.

Lemma technicals_ok_set pairs final p t :
  In p pairs → score t = (buy t - sell t)%Z →
  technicals_ok pairs final → technicals_ok pairs (dict_set p t final).
Proof.
  intros Hp Ht [Hin Hnd]. split; [|by apply dict_set_NoDup].
  intros p' t' Hin'. apply dict_set_In in Hin' as [E|Hin']; [|by apply Hin].
  by simplify_eq.
Qed.

Lemma store_found_loop_ok pairs results exchange l final :
  (∀ p, In p l → In p pairs) →
  technicals_ok pairs final →
  technicals_ok pairs (fold_left (store_found results exchange) l final).
Proof.
  revert final. induction l as [|p l IH]; intros final Hl Hok; [done|].
  cbn [fold_left]. apply IH; [intros p' Hp'; apply Hl; by right|].
  unfold store_found. destruct (found results exchange p) as [t|] eqn:Hf;
    [|done].
  apply technicals_ok_set; [apply Hl; by left | by eapply found_score | done].
Qed.

Lemma store_found_loop_In results exchange l final p t :
  In (p, t) (fold_left (store_found results exchange) l final) →
  In (p, t) final ∨ In p l.
Proof.
  revert final. induction l as [|p0 l IH]; intros final Hin; [by left|].
  cbn [fold_left] in Hin. apply IH in Hin as [Hin|Hin]; [|right; by right].
  unfold store_found in Hin. destruct (found results exchange p0); [|by left].
  apply dict_set_In in Hin as [E|Hin]; [|by left].
  simplify_eq. right. by left.
Qed.

(** Step 1 *)
Lemma dict_append_In exchange p d e l p' :
  In (e, l) (dict_append exchange p d) → In p' l →
  (e = exchange ∧ p' = p) ∨ ∃ l', In (e, l') d ∧ In p' l'.
Proof.
  unfold dict_append. intros Hin Hp'.
  destruct (dict_get exchange d) as [cached|] eqn:Hd.
  - apply dict_set_In in Hin as [E|Hin]; [|right; by exists l].
    simplify_eq. apply in_app_iff in Hp' as [Hp'|[->|[]]]; [|by left].
    right. exists cached. split; [by apply dict_get_Some_In | done].
  - apply dict_set_In in Hin as [E|Hin]; [|right; by exists l].
    simplify_eq. destruct Hp' as [->|[]]. by left.
Qed.

Lemma segregate_spec cache pairs :
  (∀ e l p, In (e, l) (segregate cache pairs).1 → In p l →
            In p pairs ∧ cache !! p = Some e)
  ∧ (∀ p, In p (segregate cache pairs).2 → In p pairs ∧ cache !! p = None).
Proof.
  unfold segregate.
  assert (Hgen : ∀ l acc,
    ((∀ e l0 p, In (e, l0) acc.1 → In p l0 →
                In p pairs ∧ cache !! p = Some e)
     ∧ (∀ p, In p acc.2 → In p pairs ∧ cache !! p = None)) →
    (∀ p, In p l → In p pairs) →
    let r := fold_left
               (fun (acc : list (string * list string) * list string) p =>
                  match cache !! p with
                  | Some exchange => (dict_append exchange p acc.1, acc.2)
                  | None => (acc.1, acc.2 ++ [p])
                  end) l acc in
    (∀ e l0 p, In (e, l0) r.1 → In p l0 → In p pairs ∧ cache !! p = Some e)
    ∧ (∀ p, In p r.2 → In p pairs ∧ cache !! p = None)).
  { induction l as [|p l IH]; intros acc Hacc Hl; [done|].
    cbn [fold_left]. apply IH; [|intros p' Hp'; apply Hl; by right].
    destruct Hacc as [Hc Hd].
    destruct (cache !! p) as [exchange|] eqn:Hp; cbn [fst snd]; split;
      try done.
    - intros e l0 p' Hin Hp'.
      apply (dict_append_In exchange p acc.1 e l0 p' Hin) in Hp'
        as [[-> ->]|(l' & Hin' & Hp'')].
      + split; [apply Hl; by left | done].
      + by eapply Hc.
    - intros p' Hp'. apply in_app_iff in Hp' as [Hp'|[<-|[]]]; [by apply Hd|].
      split; [apply Hl; by left | done]. }
  apply (Hgen pairs ([], [])); [|done].
  split; [by intros ? ? ? [] | by intros ? []].
Qed.

Lemma cache_ok_start cache pairs final :
  (∀ p t, In (p, t) final → is_Some (cache !! p)) →
  cache_ok cache pairs cache final.
Proof. intros Hc. split; [done|]. split; [by left | done]. Qed.

Lemma store_discovered_ok cache pairs results exchange p
    (acc : gmap string string * list (string * TechData) * list string) :
  In p pairs → In exchange exchanges_to_try →
  technicals_ok pairs acc.1.2 ∧ cache_ok cache pairs acc.1.1 acc.1.2 →
  let acc' := store_discovered results exchange acc p in
  technicals_ok pairs acc'.1.2 ∧ cache_ok cache pairs acc'.1.1 acc'.1.2.
Proof.
  intros Hp He [Ht (Hgrow & Hnew & Hin)]. unfold store_discovered.
  destruct (found results exchange p) as [t|] eqn:Hf; cbn [fst snd];
    [|done].
  split; [apply technicals_ok_set; [done | by eapply found_score | done]|].
  split; [|split].
  - intros p' Hp'. destruct (decide (p = p')) as [->|Hne];
      [by rewrite lookup_insert_eq | rewrite lookup_insert_ne by done].
    by apply Hgrow.
  - intros p' e' He'. destruct (decide (p = p')) as [->|Hne].
    + rewrite lookup_insert_eq in He'. injection He' as <-.
      right. split; [done|]. split; [done|]. by rewrite dict_get_set_eq.
    + rewrite lookup_insert_ne in He' by done.
      destruct (Hnew p' e' He') as [Hold|(Hp' & He'' & Hfinal)]; [by left|].
      right. split; [done|]. split; [done|]. by apply dict_set_get_is_Some.
  - intros p' t' Hin'. apply dict_set_In in Hin' as [E|Hin'].
    + simplify_eq. by rewrite lookup_insert_eq.
    + destruct (decide (p = p')) as [->|Hne];
        [by rewrite lookup_insert_eq | rewrite lookup_insert_ne by done].
      by eapply Hin.
Qed.

Lemma store_discovered_loop_ok cache pairs results exchange l
    (acc : gmap string string * list (string * TechData) * list string) :
  (∀ p, In p l → In p pairs) → In exchange exchanges_to_try →
  technicals_ok pairs acc.1.2 ∧ cache_ok cache pairs acc.1.1 acc.1.2 →
  let acc' := fold_left (store_discovered results exchange) l acc in
  technicals_ok pairs acc'.1.2 ∧ cache_ok cache pairs acc'.1.1 acc'.1.2.
Proof.
  revert acc. induction l as [|p l IH]; intros acc Hl He Hacc; [done|].
  cbn [fold_left]. apply IH; [intros p' Hp'; apply Hl; by right | done|].
  apply store_discovered_ok; [apply Hl; by left | done | done].
Qed.

Lemma log_final {World : Type} m (s : State World) : final (log m s) = s.
Proof. reflexivity. Qed.

Section Fetch.
Context {World : Type} `{Tradingview World}.

Lemma get_multiple_analysis_run symbols (s : State World) :
  get_multiple_analysis symbols s
  = ((api_get_multiple_analysis symbols (world s)).1,
     mkState (api_get_multiple_analysis symbols (world s)).2 (portfolio s)
             (saved s), []).
Proof.
  unfold get_multiple_analysis.
  by destruct (api_get_multiple_analysis symbols (world s)).
Qed.

Lemma fetch_cached_ledger acc group (s : State World) :
  portfolio (final (fetch_cached acc group s)) = portfolio s
  ∧ saved (final (fetch_cached acc group s)) = saved s.
Proof.
  unfold fetch_cached. run. rewrite get_multiple_analysis_run.
  by destruct (api_get_multiple_analysis _ _).1; run.
Qed.

Lemma fetch_cached_value acc group (s : State World) :
  value (fetch_cached acc group s)
  = match (api_get_multiple_analysis (map (symbol_of group.1) group.2)
                                     (world s)).1 with
    | Some results =>
        (fold_left (store_found results group.1) group.2 acc.1, acc.2)
    | None => (acc.1, acc.2 ++ group.2)
    end.
Proof.
  unfold fetch_cached. run. rewrite get_multiple_analysis_run.
  by destruct (api_get_multiple_analysis _ _).1; run.
Qed.

Lemma discover_ok cache pairs exchanges
    (acc : gmap string string * list (string * TechData)) left
    (s : State World) :
  (∀ e, In e exchanges → In e exchanges_to_try) →
  (∀ p, In p left → In p pairs) →
  technicals_ok pairs acc.2 ∧ cache_ok cache pairs acc.1 acc.2 →
  let r := discover exchanges acc left s in
  (technicals_ok pairs (value r).2 ∧ cache_ok cache pairs (value r).1 (value r).2)
  ∧ portfolio (final r) = portfolio s ∧ saved (final r) = saved s.
Proof.
  revert acc left s.
  induction exchanges as [|exchange rest IH]; intros acc left s He Hl Hacc;
    [done|].
  assert (Hrest : ∀ e, In e rest → In e exchanges_to_try)
    by (intros e Hin; apply He; by right).
  cbn [discover]. destruct left as [|p0 left0] eqn:Hleft; [done|].
  rewrite <- Hleft in *. clear Hleft.
  unfold mbind, M_bind. rewrite bind_run, get_multiple_analysis_run.
  cbn [value final trace fst snd]. cbv beta.
  set (s1 := mkState _ (portfolio s) (saved s)).
  change (portfolio s) with (portfolio s1).
  change (saved s) with (saved s1).
  destruct (api_get_multiple_analysis _ (world s)).1 as [results|].
  2: { by apply (IH acc left s1). }
  destruct (bool_decide (results = ∅)).
  { by apply (IH acc left s1). }
  cbv zeta.
  pose proof (store_discovered_loop_ok cache pairs results exchange left
                (acc, []) Hl (He exchange ltac:(by left)) Hacc) as Hafter.
  cbv zeta in Hafter.
  destruct (fold_left _ left (acc, [])) as [after newly].
  cbn [fst snd] in *.
  destruct newly as [|n0 newly].
  - by apply (IH after left s1).
  - rewrite bind_run, !log_final.  cbn [value final trace fst snd].
    apply (IH after (List.filter _ left) s1); [done| |done].
    intros p Hp. apply filter_In in Hp as [Hp _]. by apply Hl.
Qed.

Lemma cached_loop_ok (cache : gmap string string) pairs groups
    (acc : list (string * TechData) * list string) (s : State World) :
  (∀ e l p, In (e, l) groups → In p l → In p pairs ∧ cache !! p = Some e) →
  technicals_ok pairs acc.1 ∧ (∀ p, In p acc.2 → In p pairs)
  ∧ (∀ p t, In (p, t) acc.1 → is_Some (cache !! p)) →
  let r := for_each fetch_cached acc groups s in
  (technicals_ok pairs (value r).1 ∧ (∀ p, In p (value r).2 → In p pairs)
   ∧ (∀ p t, In (p, t) (value r).1 → is_Some (cache !! p)))
  ∧ portfolio (final r) = portfolio s ∧ saved (final r) = saved s.
Proof.
  revert acc s. induction groups as [|[e l] groups IH]; intros acc s Hg Hacc;
    [done|].
  rewrite for_each_cons. cbn [value final fst snd].
  destruct (fetch_cached_ledger acc (e, l) s) as [Hp Hs].
  rewrite <- Hp, <- Hs.
  apply IH; [intros e' l' p Hin; apply Hg; by right|].
  rewrite fetch_cached_value. cbn [fst snd].
  destruct Hacc as (Hok & Htd & Hc).
  assert (Hl : ∀ p, In p l → In p pairs ∧ cache !! p = Some e)
    by (intros p; apply Hg; by left).
  destruct (api_get_multiple_analysis _ _).1 as [results|]; cbn [fst snd].
  - split; [|split; [done|]].
    + apply store_found_loop_ok; [intros p Hin; by apply Hl | done].
    + intros p t Hin. apply store_found_loop_In in Hin as [Hin|Hin];
        [by eapply Hc|].
      apply Hl in Hin as [_ ->]. by eexists.
  - split; [done|]. split; [|done].
    intros p Hin. apply in_app_iff in Hin as [Hin|Hin];
      [by apply Htd | by apply Hl].
Qed.

Lemma get_all_technicals_ok cache pairs (s : State World) :
  let r := get_all_technicals cache pairs s in
  (technicals_ok pairs (value r).1
   ∧ cache_ok cache pairs (value r).2 (value r).1)
  ∧ portfolio (final r) = portfolio s ∧ saved (final r) = saved s.
Proof.
  unfold get_all_technicals, mbind, M_bind, mret, M_ret. cbv zeta.
  rewrite bind_run, !log_final. cbn [value final trace fst snd].
  rewrite bind_run. cbn [value final trace fst snd].
  destruct (segregate_spec cache pairs) as [Hgroups Htd].
  set (groups := (segregate cache pairs).1) in *.
  set (td := (segregate cache pairs).2) in *.
  assert (Hstart : technicals_ok pairs (@nil (string * TechData))
                   ∧ (∀ p, In p td → In p pairs)
                   ∧ (∀ p t, In (p, t) (@nil (string * TechData)) →
                             is_Some (cache !! p))).
  { split; [split; [by intros ? ? [] | constructor]|].
    split; [intros p Hp; by apply Htd | by intros ? ? []]. }
  set (m2 := match groups with [] => _ | _ => _ end).
  assert (Hstep2 :
    (technicals_ok pairs (value (m2 s)).1
     ∧ (∀ p, In p (value (m2 s)).2 → In p pairs)
     ∧ (∀ p t, In (p, t) (value (m2 s)).1 → is_Some (cache !! p)))
    ∧ portfolio (final (m2 s)) = portfolio s
    ∧ saved (final (m2 s)) = saved s).
  { subst m2. destruct groups as [|g0 groups0] eqn:Hg; [done|].
    rewrite <- Hg in *. rewrite bind_run, !log_final.
    cbn [value final trace fst snd].
    exact (cached_loop_ok cache pairs groups ([], td) s Hgroups Hstart). }
  destruct (m2 s) as [[[ft td'] s2] t2].
  cbn [value final trace fst snd] in *.
  destruct Hstep2 as ((Hok & Htd' & Hc) & Hp2 & Hs2).
  destruct td' as [|p0 td0] eqn:Htd0.
  - cbn [ret value final fst snd]. split; [|done].
    split; [done | by apply cache_ok_start].
  - rewrite <- Htd0 in *. rewrite bind_run, !log_final.
    cbn [value final trace fst snd]. rewrite bind_run.
    cbn [ret value final trace fst snd].
    pose proof (discover_ok cache pairs exchanges_to_try (cache, ft) td' s2
                  ltac:(done) Htd'
                  (conj Hok (cache_ok_start cache pairs ft Hc)))
      as Hd.
    cbv zeta in Hd.
    destruct (discover _ _ _ s2) as [[[cache' ft'] s3] t3].
    cbn [value final trace fst snd] in *.
    destruct Hd as ((Hok' & Hc') & Hp3 & Hs3).
    split; [done|]. by rewrite Hp3, Hs3.
Qed.
End Fetch.

Lemma segregate_one_exchange (cache : gmap string string) exchange l l0 td :
  (∀ p, In p l → cache !! p = Some exchange) →
  fold_left (fun (acc : list (string * list string) * list string) p =>
               match cache !! p with
               | Some exchange => (dict_append exchange p acc.1, acc.2)
               | None => (acc.1, acc.2 ++ [p])
               end) l ([(exchange, l0)], td)
  = ([(exchange, l0 ++ l)], td).
Proof.
  revert l0. induction l as [|p l IH]; intros l0 Hl; cbn [fold_left].
  - by rewrite app_nil_r.
  - rewrite (Hl p) by (by left). cbn [fst snd].
    unfold dict_append. cbn [dict_get]. rewrite String.eqb_refl.
    cbn [dict_set]. rewrite String.eqb_refl.
    rewrite IH by (intros p' Hp'; apply Hl; by right).
    by rewrite <- app_assoc.
Qed.

Lemma segregate_all_cached (cache : gmap string string) exchange p0 l :
  (∀ p, In p (p0 :: l) → cache !! p = Some exchange) →
  segregate cache (p0 :: l) = ([(exchange, p0 :: l)], []).
Proof.
  intros Hl. unfold segregate. cbn [fold_left].
  rewrite (Hl p0) by (by left). cbn [fst snd].
  unfold dict_append. cbn [dict_get dict_set].
  apply (segregate_one_exchange cache exchange l [p0] []).
  intros p Hp. apply Hl. by right.
Qed.

Lemma store_found_loop_missing results exchange l final p :
  found results exchange p = None → dict_get p final = None →
  dict_get p (fold_left (store_found results exchange) l final) = None.
Proof.
  intros Hf. revert final. induction l as [|p0 l IH]; intros final Hd; [done|].
  cbn [fold_left]. apply IH. unfold store_found.
  destruct (found results exchange p0) as [t|] eqn:Hf0; [|done].
  rewrite dict_get_set_ne; [done|]. intros ->. by rewrite Hf in Hf0.
Qed.

Section Asked.
Context {World : Type} `{Tradingview World}.

(** X24. The technicals [get_all_technicals] returns are of pairs it was
    asked for, each once, and the score of each is its buy votes less its
    sell votes; the ledger and its file are not touched. *)
Theorem X24_technicals_of_the_pairs_asked cache pairs (s : State World) :
  let r := get_all_technicals cache pairs s in
  (∀ pair t, In (pair, t) (value r).1 →
             In pair pairs ∧ score t = (buy t - sell t)%Z)
  ∧ List.NoDup (map fst (value r).1)
  ∧ portfolio (final r) = portfolio s ∧ saved (final r) = saved s.
Proof.
  intros r. destruct (get_all_technicals_ok cache pairs s)
    as (((Hin & Hnd) & _) & Hp & Hs).
  done.
Qed.

(** X25. The cache of exchanges only learns: no pair leaves it; a pair
    that is new in it, or is with another exchange than before, was asked
    for, is among the technicals returned, and is with one of the seven
    exchanges tried; and every pair returned is in the cache after the
    call. *)
Theorem X25_the_exchange_cache_only_learns cache pairs (s : State World) :
  let r := get_all_technicals cache pairs s in
  (∀ pair, is_Some (cache !! pair) → is_Some ((value r).2 !! pair))
  ∧ (∀ pair exchange,
       (value r).2 !! pair = Some exchange →
       cache !! pair = Some exchange
       ∨ (In pair pairs ∧ In exchange exchanges_to_try
          ∧ is_Some (dict_get pair (value r).1)))
  ∧ (∀ pair t, In (pair, t) (value r).1 → is_Some ((value r).2 !! pair)).
Proof.
  intros r. destruct (get_all_technicals_ok cache pairs s)
    as ((_ & Hc) & _).
  exact Hc.
Qed.

(** X26. When every pair asked for is cached with one exchange and that
    exchange answers, the source is left as that one request left it: the
    technicals are those it has for the pairs, the cache is as it was, and
    a cached pair the exchange has nothing for is not returned. *)
Theorem X26_cached_pairs_are_asked_of_their_exchange_alone
    (cache : gmap string string) pairs exchange (s : State World) results w :
  pairs ≠ [] →
  (∀ p, In p pairs → cache !! p = Some exchange) →
  api_get_multiple_analysis (map (symbol_of exchange) pairs) (world s)
  = (Some results, w) →
  let r := get_all_technicals cache pairs s in
  value r = (fold_left (store_found results exchange) pairs [], cache)
  ∧ world (final r) = w
  ∧ (∀ p, found results exchange p = None → dict_get p (value r).1 = None).
Proof.
  intros Hne Hcached Hapi r. subst r.
  destruct pairs as [|p0 l]; [done|].
  unfold get_all_technicals, mbind, M_bind, mret, M_ret. cbv zeta.
  rewrite (segregate_all_cached cache exchange p0 l Hcached).
  cbn [fst snd].
  rewrite bind_run, !log_final. cbn [value final trace fst snd].
  rewrite bind_run. cbn [value final trace fst snd].
  rewrite bind_run, !log_final. cbn [value final trace fst snd].
  rewrite for_each_cons. cbn [for_each ret value final trace fst snd].
  rewrite fetch_cached_value. cbn [fst snd]. rewrite Hapi. cbn [fst snd].
  split; [done|]. split.
  - unfold fetch_cached, mbind, M_bind, mret, M_ret. cbv zeta. cbn [fst snd].
    rewrite bind_run, !log_final. cbn [value final trace fst snd].
    rewrite bind_run, get_multiple_analysis_run, Hapi.
    by cbn [ret value final trace fst snd world].
  - intros p Hf. by apply store_found_loop_missing.
Qed.
End Asked.
End Found.

Section Bootstrap.
Import Technicals.

Lemma segregate_none_cached (cache : gmap string string) l ic td :
  (∀ p, In p l → cache !! p = None) →
  fold_left (fun (acc : list (string * list string) * list string) p =>
               match cache !! p with
               | Some exchange => (dict_append exchange p acc.1, acc.2)
               | None => (acc.1, acc.2 ++ [p])
               end) l (ic, td)
  = (ic, td ++ l).
Proof.
  revert td. induction l as [|p l IH]; intros td Hl; cbn [fold_left].
  - by rewrite app_nil_r.
  - rewrite (Hl p) by (by left). cbn [fst snd].
    rewrite IH by (intros p' Hp'; apply Hl; by right).
    by rewrite <- app_assoc.
Qed.

Lemma store_discovered_all_found results exchange l
    (acc : gmap string string * list (string * TechData) * list string) :
  (∀ p, In p l → is_Some (found results exchange p)) →
  let acc' := fold_left (store_discovered results exchange) l acc in
  acc'.2 = acc.2 ++ l
  ∧ (∀ p, In p l → acc'.1.1 !! p = Some exchange
                   ∧ dict_get p acc'.1.2 = found results exchange p)
  ∧ (∀ p, acc.1.1 !! p = Some exchange → acc'.1.1 !! p = Some exchange)
  ∧ (∀ p, dict_get p acc.1.2 = found results exchange p →
          dict_get p acc'.1.2 = found results exchange p)
  ∧ (∀ p, ¬ In p l → acc'.1.1 !! p = acc.1.1 !! p).
Proof.
  revert acc. induction l as [|p0 l IH]; intros acc Hl.
  - cbn [fold_left]. rewrite app_nil_r. by repeat split.
  - cbn [fold_left].
    destruct (Hl p0) as [t Ht]; [by left|].
    assert (Hl' : ∀ p, In p l → is_Some (found results exchange p))
      by (intros p Hp; apply Hl; by right).
    destruct (IH (store_discovered results exchange acc p0) Hl')
      as (Hn & Hin & Hc & Hd & Hout).
    unfold store_discovered in Hn, Hin, Hc, Hd, Hout |- *.
    rewrite Ht in *. cbn [fst snd] in *.
    split; [by rewrite Hn, <- app_assoc|]. split; [|split; [|split]].
    + intros p [<-|Hp]; [|by apply Hin]. split.
      * apply Hc. by rewrite lookup_insert_eq.
      * apply Hd. by rewrite dict_get_set_eq.
    + intros p Hp. apply Hc. destruct (decide (p0 = p)) as [->|Hne];
        [by rewrite lookup_insert_eq | by rewrite lookup_insert_ne].
    + intros p Hp. apply Hd. destruct (String.eqb_spec p p0) as [->|Hne].
      * by rewrite dict_get_set_eq.
      * by rewrite dict_get_set_ne.
    + intros p Hp. rewrite Hout by (intros Hin'; apply Hp; by right).
      rewrite lookup_insert_ne; [done|]. intros ->. apply Hp. by left.
Qed.

Lemma filter_all_found (l newly : list string) :
  (∀ p, In p l → In p newly) →
  List.filter (fun p => negb (existsb (String.eqb p) newly)) l = [].
Proof.
  intros Hl. apply filter_none. intros p Hp.
  apply negb_false_iff, existsb_exists. exists p.
  split; [by apply Hl | apply String.eqb_refl].
Qed.

Context {World : Type} `{Tradingview World}.

Lemma discover_nothing_left exchanges
    (acc : gmap string string * list (string * TechData)) (s : State World) :
  discover exchanges acc [] s = (acc, s, []).
Proof. by destruct exchanges. Qed.

Lemma discover_all_found exchanges exchange rest
    (acc : gmap string string * list (string * TechData)) left
    (s : State World) results w :
  exchanges = exchange :: rest →
  left ≠ [] →
  api_get_multiple_analysis (map (symbol_of exchange) left) (world s)
  = (Some results, w) →
  (∀ p, In p left → is_Some (found results exchange p)) →
  value (discover exchanges acc left s)
  = (fold_left (store_discovered results exchange) left (acc, [])).1
  ∧ world (final (discover exchanges acc left s)) = w.
Proof.
  intros -> Hne Hapi Hall.
  assert (Hsome : results ≠ ∅).
  { intros ->. destruct left as [|p0 l]; [done|].
    destruct (Hall p0) as [t Ht]; [by left|].
    unfold found in Ht. by rewrite lookup_empty in Ht. }
  destruct (store_discovered_all_found results exchange left (acc, []) Hall)
    as (Hn & _).
  destruct left as [|p0 l]; [done|]. cbn [discover].
  unfold mbind, M_bind, mret, M_ret.
  rewrite bind_run, get_multiple_analysis_run, Hapi.
  cbn [value final trace fst snd]. cbv beta.
  rewrite (bool_decide_eq_false_2 _ Hsome). cbv zeta.
  destruct (fold_left _ (p0 :: l) (acc, [])) as [after newly].
  cbn [fst snd app] in *. subst newly.
  rewrite bind_run, !log_final. cbn [value final trace fst snd].
  rewrite filter_all_found by done.
  by rewrite discover_nothing_left.
Qed.

Lemma get_all_technicals_none_cached
    (cache : gmap string string) pairs (s : State World) :
  pairs ≠ [] →
  (∀ p, In p pairs → cache !! p = None) →
  let r := get_all_technicals cache pairs s in
  let d := discover exchanges_to_try (cache, []) pairs s in
  value r = ((value d).2, (value d).1) ∧ world (final r) = world (final d).
Proof.
  intros Hne Hnew r d. subst r d.
  unfold get_all_technicals, mbind, M_bind, mret, M_ret. cbv zeta.
  generalize exchanges_to_try as exchanges. intros exchanges.
  unfold segregate.
  rewrite (segregate_none_cached cache pairs [] [] Hnew).
  cbn [fst snd app].
  rewrite bind_run, !log_final. cbn [value final trace fst snd].
  rewrite bind_run. cbn [ret value final trace fst snd].
  destruct pairs as [|p0 l]; [done|].
  rewrite bind_run, !log_final. cbn [value final trace fst snd].
  rewrite bind_run. by cbn [ret value final trace fst snd].
Qed.

(** X27. When none of the pairs asked for is cached and the first
    exchange tried answers with all of them, the source is left as that
    one request left it: every pair is returned with what that exchange
    has for it and is cached with that exchange, and the cache of the
    other pairs is as it was. *)
Theorem X27_discovery_stops_at_the_exchange_that_has_all
    (cache : gmap string string) pairs (s : State World) results w :
  pairs ≠ [] →
  (∀ p, In p pairs → cache !! p = None) →
  api_get_multiple_analysis (map (symbol_of "BINANCE") pairs) (world s)
  = (Some results, w) →
  (∀ p, In p pairs → is_Some (found results "BINANCE" p)) →
  let r := get_all_technicals cache pairs s in
  world (final r) = w
  ∧ (∀ p, In p pairs →
          (value r).2 !! p = Some "BINANCE"
          ∧ dict_get p (value r).1 = found results "BINANCE" p)
  ∧ (∀ p, ¬ In p pairs → (value r).2 !! p = cache !! p).
Proof.
  intros Hne Hnew Hapi Hall r. subst r.
  destruct (get_all_technicals_none_cached cache pairs s Hne Hnew)
    as [-> ->].
  destruct (discover_all_found exchanges_to_try "BINANCE"
              (tl exchanges_to_try) (cache, []) pairs s results w eq_refl
              Hne Hapi Hall) as [-> ->].
  destruct (store_discovered_all_found results "BINANCE" pairs
              ((cache, []), []) Hall) as (_ & Hin & _ & _ & Hout).
  split; [done|]. split; [exact Hin | exact Hout].
Qed.
End Bootstrap.

(** ** What is signed and sent *)

Lemma split_on_no_sep sep s :
  ¬ In sep (list_ascii_of_string s) → split_on sep s = [s].
Proof.
  induction s as [|c s IH]; [done|]. cbn [list_ascii_of_string split_on].
  intros Hn. destruct (Ascii.eqb_spec c sep) as [->|Hne].
  - exfalso. apply Hn. by left.
  - rewrite IH; [done|]. intros Hin. apply Hn. by right.
Qed.

Lemma string_of_uint_digits d :
  ¬ In "="%char (list_ascii_of_string (NilEmpty.string_of_uint d)).
Proof.
  induction d; cbn [NilEmpty.string_of_uint list_ascii_of_string];
    [by intros []|..];
    (intros [Hc|Hin]; [discriminate Hc | by apply IHd]).
Qed.

Section Signed.
Variable hmac_sha256_hexdigest : string → string → string.
Variable str : Q → string.

(** X28. What is signed is what is sent.  [get_balance] sends as its
    [timestamp] the one in the text it signed, [timestamp=<ms>].
    [place_order] sends as its body the text it signed: the parameters in
    the order of their names, [pair], [quantity], [side], [timestamp],
    [type]. *)
Theorem X28_what_is_signed_is_what_is_sent :
  (∀ now_ms,
     balance_request hmac_sha256_hexdigest now_ms
     = ([("RST-API-KEY", API_KEY);
         ("MSG-SIGNATURE",
          hmac_sha256_hexdigest SECRET_KEY
            ("timestamp=" +:+ get_timestamp now_ms));
         ("Content-Type", "application/x-www-form-urlencoded")],
        [("timestamp", get_timestamp now_ms)]))
  ∧ (∀ pair side quantity now_ms,
       let body :=
         "pair=" +:+ pair +:+ "&quantity=" +:+ str quantity +:+ "&side="
         +:+ match side with SideBuy => "BUY" | SideSell => "SELL" end
         +:+ "&timestamp=" +:+ get_timestamp now_ms +:+ "&type=MARKET" in
       order_request hmac_sha256_hexdigest str pair side quantity now_ms
       = ([("RST-API-KEY", API_KEY);
           ("MSG-SIGNATURE", hmac_sha256_hexdigest SECRET_KEY body);
           ("Content-Type", "application/x-www-form-urlencoded")],
          body)).
Proof.
  split.
  - intros now_ms. unfold balance_request, get_signed_headers.
    cbn [dict_set sorted_items fold_left insert_item map String.concat fst snd].
    change ("timestamp" +:+ "=" +:+ get_timestamp now_ms)
      with (String "t" (String "i" (String "m" (String "e" (String "s"
             (String "t" (String "a" (String "m" (String "p"
             (String "=" (get_timestamp now_ms))))))))))).
    cbn [split_on Ascii.eqb Bool.eqb].
    rewrite split_on_no_sep by apply string_of_uint_digits.
    reflexivity.
  - intros pair side quantity now_ms body. subst body.
    unfold order_request, get_signed_headers.
    cbn [dict_set String.eqb Ascii.eqb Bool.eqb].
    reflexivity.
Qed.
End Signed.

(** * The further properties on the paper exchange *)

Lemma X6_allocation_shape_witness :
  (allocation 2 700 1 == allocation 2 700 0 / 2)%Q
  ∧ (700 / 2 < allocation 2 700 0)%Q
  ∧ (0 <= allocation 2 700 1)%Q.
Proof.
  split; [|split].
  - apply (proj1 X6_allocation_shape 2%nat 700%Q 0%nat). lia.
  - apply (proj1 (proj2 X6_allocation_shape) 2%nat 700%Q); [lia | reflexivity].
  - apply (proj2 (proj2 (proj2 X6_allocation_shape)) 2%nat 700%Q 1%nat);
      [lia | discriminate].
Defined.

Lemma X7_better_score_larger_share_witness :
  (score (mkTech 0 3 10 13 BUY 10) <= score (mkTech 10 2 10 14 BUY 12))%Z.
Proof.
  assert (Hi : nth_error (strong_buy_signals
                            (rank_pairs_by_technicals two_candidates)) 0
               = Some ("ETH/USD", mkTech 10 2 10 14 BUY 12))
    by (vm_compute; reflexivity).
  assert (Hj : nth_error (strong_buy_signals
                            (rank_pairs_by_technicals two_candidates)) 1
               = Some ("SOL/USD", mkTech 0 3 10 13 BUY 10))
    by (vm_compute; reflexivity).
  exact (proj1 (X7_better_score_larger_share two_candidates 0 1 _ _
                  ltac:(lia) Hi Hj)).
Defined.

Lemma X8_cost_basis_of_a_purchase_witness :
  (∃ e', portfolio (final (update_portfolio_on_buy "ETH/USD" 2 10 buy_state))
         !! "ETH" = Some e'
         ∧ (buy_price e' == 10)%Q ∧ (quantity e' == 2)%Q)
  ∧ (∃ e', portfolio (final (update_portfolio_on_buy "BTC/USD" 2 50 stale_state))
           !! "BTC" = Some e'
           ∧ (buy_price e' == 50)%Q ∧ (quantity e' == 2)%Q)
  ∧ (∃ e', portfolio (final (update_portfolio_on_buy "BTC/USD" 10 110 tp_state))
           !! "BTC" = Some e'
           ∧ ((buy_price (mkEntry 100 10 None) <= 110)%Q →
              (buy_price (mkEntry 100 10 None) <= buy_price e')%Q
              ∧ (buy_price e' <= 110)%Q)
           ∧ ((110 <= buy_price (mkEntry 100 10 None))%Q →
              (110 <= buy_price e')%Q
              ∧ (buy_price e' <= buy_price (mkEntry 100 10 None))%Q))
  ∧ portfolio (final (update_portfolio_on_buy "ETH/USD" 2 10 tp_state)) !! "BTC"
    = portfolio tp_state !! "BTC".
Proof.
  split; [|split; [|split]].
  - apply (proj1 X8_cost_basis_of_a_purchase buy_state "ETH/USD" 2%Q 10%Q);
      [reflexivity | reflexivity].
  - apply (proj1 (proj2 X8_cost_basis_of_a_purchase) stale_state "BTC/USD"
                 2%Q 50%Q (mkEntry 100 0 None));
      [reflexivity | reflexivity | reflexivity].
  - apply (proj1 (proj2 (proj2 X8_cost_basis_of_a_purchase)) tp_state "BTC/USD"
                 10%Q 110%Q (mkEntry 100 10 None));
      [reflexivity | discriminate | reflexivity].
  - apply (proj2 (proj2 (proj2 X8_cost_basis_of_a_purchase)) tp_state "ETH/USD"
                 2%Q 10%Q "BTC"). discriminate.
Defined.

Lemma X9_orders_follow_the_rules_witness :
  well_formed_order demo_rules
    (mkOrder "BTC/USD" SideSell (truncate_quantity 10 2)).
Proof.
  apply (X9_orders_follow_the_rules demo_rules 1 main_start tp_state).
  vm_compute. repeat (first [left; reflexivity | right]).
Defined.



Lemma X12_a_strong_sell_is_a_funding_sell_witness :
  In (mkOrder "BTC/USD" SideSell (truncate_quantity 1 2))
     (requests_of (trace (execute_weak_sell_rebalancing demo_rules
                            (get_current_positions (Some falling_balance))
                            falling_technicals (falling_state true)))).
Proof.
  apply (X12_a_strong_sell_is_a_funding_sell demo_rules
           (get_current_positions (Some falling_balance)) falling_technicals
           (falling_state false) (falling_state true)).
  vm_compute. repeat (first [left; reflexivity | right]).
Defined.

Lemma X14_every_target_has_its_reason_witness :
  dict_get "BTC/USD"
    (value (get_holdings_to_sell_for_tp_sl (Some falling_balance)
              falling_technicals (falling_state true))).2 = Some "TP"
  ∨ dict_get "BTC/USD"
      (value (get_holdings_to_sell_for_tp_sl (Some falling_balance)
                falling_technicals (falling_state true))).2 = Some "SL".
Proof.
  apply (proj1 (proj2 (proj2 (X14_every_target_has_its_reason
                                (Some falling_balance) falling_technicals
                                (falling_state true))))
               "BTC/USD" 1%Q).
  vm_compute. repeat (first [left; reflexivity | right]).
Defined.

Lemma X17_buys_stay_within_the_cash_witness :
  (cost_of_buys (strong_buy_signals two_candidates)
     (requests_of (trace (execute_buys demo_rules 20700 two_candidates [] []
                                       buy_state)))
   <= cash_to_invest_of demo_rules 20700 [] [] buy_state)%Q.
Proof.
  assert (Hnd : List.NoDup (map fst two_candidates)).
  { repeat constructor; simpl; intuition discriminate. }
  apply (proj2 (X17_buys_stay_within_the_cash demo_rules 20700%Q two_candidates
                  [] [] buy_state Hnd)).
  vm_compute. reflexivity.
Defined.

Lemma X18_the_file_follows_the_ledger_witness :
  saved (final (main_loop demo_rules 1 main_start tp_state))
  = portfolio (final (main_loop demo_rules 1 main_start tp_state)).
Proof.
  apply (proj2 (X18_the_file_follows_the_ledger demo_rules) 1%nat main_start
               tp_state).
  reflexivity.
Defined.

Lemma X19_ledger_figures_stay_sound_witness :
  sane (portfolio (final (main_loop demo_rules 1 main_start buy_state)))
  ∧ ∃ e',
      portfolio (final (update_portfolio_on_buy "ETH/USD" 2 10 buy_state))
      !! "ETH" = Some e'
      ∧ (0 < quantity e')%Q ∧ (0 < buy_price e')%Q.
Proof.
  assert (Hs : sane (portfolio buy_state)).
  { intros coin e He.
    change (portfolio buy_state) with (∅ : gmap string Entry) in He.
    by rewrite lookup_empty in He. }
  split.
  - apply (proj1 (X19_ledger_figures_stay_sound demo_rules) 1%nat main_start
                 buy_state Hs).
  - apply (proj2 (X19_ledger_figures_stay_sound demo_rules) buy_state
                 "ETH/USD" 2%Q 10%Q Hs); reflexivity.
Defined.

Lemma X20_no_fill_no_write_witness :
  portfolio (final (main_loop demo_rules 1 main_start quiet_state))
  = portfolio quiet_state
  ∧ saved (final (main_loop demo_rules 1 main_start quiet_state))
    = saved quiet_state.
Proof.
  apply (X20_no_fill_no_write demo_rules 1%nat main_start quiet_state).
  intros o d Hin. vm_compute in Hin.
  repeat (destruct Hin as [Hin|Hin]; [discriminate Hin|]). exact Hin.
Defined.

Lemma X21_rules_as_the_exchange_gives_them_witness :
  (value (load_exchange_rules ∅ (desk_state (Some demo_info)))).2 !! "BTC/USD"
  = Some 2%Z.
Proof.
  assert (Hnd : List.NoDup (map fst (TradePairs demo_info))).
  { repeat constructor; simpl; intuition discriminate. }
  exact (proj1 (proj2 (proj2 (X21_rules_as_the_exchange_gives_them ∅
                                (desk_state (Some demo_info)))))
               demo_info "BTC/USD" eq_refl Hnd).
Defined.

Lemma X22_orders_follow_the_exchange_information_witness :
  ∃ i details precision quantity,
    Some demo_info = Some i
    ∧ In ("BTC/USD", details) (TradePairs i)
    ∧ AmountPrecision details = Some precision
    ∧ truncate_quantity 10 2 = truncate_quantity quantity precision
    ∧ (0 < truncate_quantity 10 2)%Q.
Proof.
  assert (Hin : In (mkOrder "BTC/USD" SideSell (truncate_quantity 10 2))
                   (requests_of (trace (main 1 (desk_state (Some demo_info))))))
    by (vm_compute; repeat (first [left; reflexivity | right])).
  exact (X22_orders_follow_the_exchange_information 1%nat
           (desk_state (Some demo_info))
           (mkOrder "BTC/USD" SideSell (truncate_quantity 10 2)) Hin).
Defined.

Lemma X23_main_starts_from_the_file_and_keeps_it_witness :
  (requests_of (trace (main 1 (desk_state None))) = []
   ∧ portfolio (final (main 1 (desk_state None)))
     = portfolio (desk_state None)
   ∧ saved (final (main 1 (desk_state None))) = saved (desk_state None))
  ∧ saved (final (main 1 (desk_state (Some demo_info))))
    = portfolio (final (main 1 (desk_state (Some demo_info)))).
Proof.
  split.
  - apply (proj1 (X23_main_starts_from_the_file_and_keeps_it 1%nat
                    (desk_state None))).
    reflexivity.
  - apply (proj2 (X23_main_starts_from_the_file_and_keeps_it 1%nat
                    (desk_state (Some demo_info)))).
    vm_compute. discriminate.
Defined.

Lemma X24_technicals_of_the_pairs_asked_witness :
  In "BTC/USD" ["BTC/USD"; "ETH/USD"]
  ∧ score (mkTech 97 2 10 14 BUY 12)
    = (buy (mkTech 97 2 10 14 BUY 12) - sell (mkTech 97 2 10 14 BUY 12))%Z.
Proof.
  apply (proj1 (X24_technicals_of_the_pairs_asked ∅ ["BTC/USD"; "ETH/USD"]
                  feed_state) "BTC/USD" (mkTech 97 2 10 14 BUY 12)).
  vm_compute. repeat (first [left; reflexivity | right]).
Defined.

Lemma X25_the_exchange_cache_only_learns_witness :
  is_Some ((value (Technicals.get_all_technicals binance_cache ["BTC/USD"]
                     feed_state)).2 !! "ETH/USD")
  ∧ is_Some ((value (Technicals.get_all_technicals ∅ ["BTC/USD"; "ETH/USD"]
                       feed_state)).2 !! "BTC/USD").
Proof.
  split.
  - apply (proj1 (X25_the_exchange_cache_only_learns binance_cache
                    ["BTC/USD"] feed_state) "ETH/USD").
    by eexists.
  - apply (proj2 (proj2 (X25_the_exchange_cache_only_learns ∅
                           ["BTC/USD"; "ETH/USD"] feed_state))
                 "BTC/USD" (mkTech 97 2 10 14 BUY 12)).
    vm_compute. repeat (first [left; reflexivity | right]).
Defined.

Lemma X26_cached_pairs_are_asked_of_their_exchange_alone_witness :
  (value (Technicals.get_all_technicals binance_cache ["BTC/USD"; "ETH/USD"]
            feed_state)).2 = binance_cache
  ∧ dict_get "ETH/USD"
      (value (Technicals.get_all_technicals binance_cache
                ["BTC/USD"; "ETH/USD"] feed_state)).1 = None.
Proof.
  assert (Hcached : ∀ p, In p ["BTC/USD"; "ETH/USD"] →
                         binance_cache !! p = Some "BINANCE").
  { intros p [<-|[<-|[]]]; reflexivity. }
  destruct (X26_cached_pairs_are_asked_of_their_exchange_alone binance_cache
              ["BTC/USD"; "ETH/USD"] "BINANCE" feed_state (listed demo_feed)
              demo_feed ltac:(discriminate) Hcached eq_refl)
    as (Hvalue & _ & Hdropped).
  split.
  - by rewrite Hvalue.
  - apply Hdropped. reflexivity.
Defined.

Lemma X27_discovery_stops_at_the_exchange_that_has_all_witness :
  (value (Technicals.get_all_technicals ∅ ["BTC/USD"] feed_state)).2
  !! "BTC/USD" = Some "BINANCE".
Proof.
  assert (Hnew : ∀ p, In p ["BTC/USD"] →
                      (∅ : gmap string string) !! p = None)
    by (intros p _; apply lookup_empty).
  assert (Hall : ∀ p, In p ["BTC/USD"] →
                      is_Some (Technicals.found (listed demo_feed)
                                                "BINANCE" p)).
  { intros p [<-|[]]. vm_compute. by eexists. }
  destruct (X27_discovery_stops_at_the_exchange_that_has_all ∅ ["BTC/USD"]
              feed_state (listed demo_feed) demo_feed ltac:(discriminate)
              Hnew eq_refl Hall) as (_ & Hin & _).
  apply Hin. by left.
Defined.
